(** * HWPX image compressor: a shallow embedding of
      [hwpx_image_compressor_v3_advanced.py]

    The development follows the class [HWPXImageCompressorAdvanced]:
    - [compress_image]        the codec search (quality loop, scale loop,
                              quality-60 fallback);
    - [compress_base64_image] the inline (base64) wrapper;
    - [process_xml_images]    the scan of one XML document;
    - [process_hwpx]          the orchestrator (unpack, two passes, repack,
                              scratch clean-up).

    Pillow, [base64], [xml.etree.ElementTree] and text-file decoding are
    libraries the program calls; they are interfaces here (type classes),
    and every statement is proved for all their implementations.  A call
    into Pillow may raise, and the exception travels as it does in the
    program: only [Image.open] sits in a [try] inside [compress_image].
    Small concrete implementations serve to run the model on explicit
    inputs.

    Python integers are [Z], floats are binary64 primitive floats, [bytes]
    are lists of bytes, and an exception is a value of [exn] carried by
    [result].  The file system is explicit state: the scratch directory is a
    finite map from relative paths to files and directories, an archive is
    the list of its members; the state also tells which paths lie under the
    scratch directory and which paths cannot be written.

    Left out: what the program prints, the clock, and the rendering of the
    statistics into the message text.  The calls of [progress_callback] are
    left out of [process_hwpx] (they read the state and change nothing of
    it); the percentages they report are modelled on their own
    ([asset_progress], [xml_progress]).

    Of the graphical front end ([HWPXCompressorGUI]) the methods that decide
    what is processed are modelled: [parse_drop_files], [on_drop],
    [process_files] and [show_message]; the layout of the window
    ([setup_gui]) and the progress display ([update_progress]) are not. *)

From Stdlib Require Import ZArith Floats Uint63 Ascii.
From stdpp Require Import base tactics option list strings gmap fin_maps sorting.

Set Warnings "-inexact-float,-register-all,-clear-no-such-hyp".
Set Default Proof Using "Type".

Local Open Scope Z_scope.

(** ** Python values *)

(** [bytes] objects; [str] objects are [string]. *)
Abbreviation bytes := (list Byte.byte).

(** [len(b)] as a Python integer. *)
Definition len {A} (l : list A) : Z := Z.of_nat (length l).

Definition str_len (s : string) : Z := Z.of_nat (String.length s).

(** The exceptions the program can meet.  The last two are not Python
    exceptions.  [NonTermination] is what a loop of the model answers when
    its fuel runs out (the lemmas [quality_search_fuel] and
    [scale_search_fuel] show that this never happens with the fuel the model
    gives).  [OutsideModel] is what the model answers where it does not
    follow the program: a run whose output archive lies under the scratch
    directory. *)
Inductive exn : Set :=
  | UnboundLocalError
  | ZeroDivisionError
  | ValueError
  | OSError
  | binascii_Error
  | ParseError
  | UnicodeDecodeError
  | FileNotFoundError
  | NotADirectoryError
  | IsADirectoryError
  | FileExistsError
  | PermissionError
  | NonTermination
  | OutsideModel.

(** A computation that returns or raises. *)
Inductive result (A : Type) : Type :=
  | Ok (a : A)
  | Raise (e : exn).
Arguments Ok {A} a.
Arguments Raise {A} e.

#[global] Instance result_ret : MRet result := @Ok.
#[global] Instance result_bind : MBind result := λ A B f m,
  match m with
  | Ok a => f a
  | Raise e => Raise e
  end.

(** [try: m  except Exception: h] *)
Definition try_except {A} (m : result A) (h : exn → A) : A :=
  match m with
  | Ok a => a
  | Raise e => h e
  end.

(** An optional library answer, raising [e] when there is none. *)
Definition or_raise {A} (e : exn) (o : option A) : result A :=
  match o with
  | Some a => Ok a
  | None => Raise e
  end.

(** ** Strings: [str.endswith], [str.lower], [os.path.splitext] *)

Definition chars : string → list Ascii.ascii := String.list_ascii_of_string.

(** [s.endswith(suf)] *)
Definition endswith (s suf : string) : bool :=
  bool_decide (chars suf `suffix_of` chars s).

(** [s.endswith((suf1, suf2, ...))] *)
Definition endswith_any (s : string) (sufs : list string) : bool :=
  existsb (endswith s) sufs.

Definition lower_ascii (c : Ascii.ascii) : Ascii.ascii :=
  let n := Ascii.nat_of_ascii c in
  if ((65 <=? n) && (n <=? 90))%nat then Ascii.ascii_of_nat (n + 32) else c.

(** [s.lower()].  Strings are byte strings here, so only the letters A-Z are
    folded; no other character lower-cases into one of the letters of the
    extensions tested below. *)
Definition lower (s : string) : string :=
  String.string_of_list_ascii (lower_ascii <$> chars s).

(** [s.rfind(c)]: the last index of [c], or -1. *)
Fixpoint rfind_from (c : Ascii.ascii) (cs : list Ascii.ascii) (i found : Z) : Z :=
  match cs with
  | [] => found
  | d :: cs => rfind_from c cs (i + 1) (if bool_decide (d = c) then i else found)
  end.

Definition rfind (c : Ascii.ascii) (cs : list Ascii.ascii) : Z := rfind_from c cs 0 (-1).

(** [s[i:j]] for [0 <= i]. *)
Definition slice {A} (l : list A) (i j : Z) : list A :=
  take (Z.to_nat (j - i)) (drop (Z.to_nat i) l).

(** [os.path.splitext(p)[0]] with "/" as the separator (no alternative
    separator): the extension starts at the last dot, provided that dot lies
    in the last path component and some character before it in that
    component is not a dot. *)
Definition splitext_root (p : string) : string :=
  let cs := chars p in
  let sepIndex := rfind "/" cs in
  let dotIndex := rfind "." cs in
  if (sepIndex <? dotIndex)
     && existsb (λ c, bool_decide (c ≠ "."%char)) (slice cs (sepIndex + 1) dotIndex)
  then String.string_of_list_ascii (slice cs 0 dotIndex)
  else p.

(** ** Floating point: the scale factor of the resize loop

    Python floats are IEEE-754 binary64, as are Rocq's primitive floats. *)

(** [float(n)] for an image dimension [n] (a non-negative machine integer). *)
Definition float_of_int (n : Z) : float := PrimFloat.of_uint63 (Uint63.of_Z n).

(** [int(x)]: truncation towards zero.  Python raises on an infinity or a
    NaN; the product of an image dimension and a scale factor is finite, and
    those cases answer 0 here. *)
Definition int_of_float (x : float) : Z :=
  match Prim2SF x with
  | S754_finite s m e =>
      let a := if 0 <=? e then Z.shiftl (Z.pos m) e else Z.shiftr (Z.pos m) (- e) in
      if s then - a else a
  | _ => 0
  end.

(** ** Pillow

    Every method call may raise; attributes are read without a call. *)

Class Pillow := {
  (** an opened image *)
  Image : Type;
  (** [Image.open(io.BytesIO(data))]; [None] when it raises.  It reads the
      header only: the pixels are decoded by the first method that needs
      them, which raises if they do not decode. *)
  Image_open : bytes → option Image;
  (** [Image.new(mode, size, color)] *)
  Image_new : string → Z * Z → Z * Z * Z → result Image;
  (** [img.mode], [img.width], [img.height] *)
  mode : Image → string;
  width : Image → Z;
  height : Image → Z;
  (** [img.convert(mode)] *)
  convert : Image → string → result Image;
  (** [img.split()[-1]] *)
  last_band : Image → result Image;
  (** [background.paste(img, mask=mask)], as the pasted background *)
  paste : Image → Image → option Image → result Image;
  (** [img.resize(size, Image.Resampling.LANCZOS)] *)
  resize : Image → Z * Z → result Image;
  (** the bytes written by [img.save(output, format='JPEG',
      quality=quality, optimize=True)] *)
  save_jpeg : Image → Z → result bytes
}.

(** [img.size] *)
Definition size `{Pillow} (img : Image) : Z * Z := (width img, height img).

(** ** The compressor object *)

Record HWPXImageCompressorAdvanced := {
  target_size_kb : Z;
  target_size_bytes : Z;
  (** the base64 cache; no method reads or writes it *)
  processed_images : gmap string string
}.

(** [HWPXImageCompressorAdvanced(target_size_kb)] *)
Definition new_compressor (target_size_kb : Z) : HWPXImageCompressorAdvanced :=
  {| target_size_kb := target_size_kb;
     target_size_bytes := target_size_kb * 1024;
     processed_images := ∅ |}.

(** How a search loop of [compress_image] ends: by the [return] inside it, or
    by its condition turning false, leaving the loop variable behind. *)
Inductive loop_end (R S : Type) : Type :=
  | Returned (r : R)
  | Exhausted (s : S).
Arguments Returned {R S} r.
Arguments Exhausted {R S} s.

Section codec.
Context `{Pillow}.
Variable self : HWPXImageCompressorAdvanced.

(** Colour-mode normalisation (source lines 47-54). *)
Definition normalize (img : Image) : result Image :=
  if bool_decide (mode img ∈ ["RGBA"; "LA"; "P"]) then
    background ← Image_new "RGB" (size img) (255, 255, 255);
    img ← (if bool_decide (mode img = "P") then convert img "RGBA" else Ok img);
    mask ← (if bool_decide (mode img ∈ ["RGBA"; "LA"])
            then band ← last_band img; Ok (Some band)
            else Ok None);
    paste background img mask
  else if bool_decide (mode img ≠ "RGB") then convert img "RGB"
  else Ok img.

(** The quality loop (source lines 57-66):
    [while quality > 5: ...; quality -= 5]. *)
Fixpoint quality_search (fuel : nat) (img : Image) (quality : Z)
    : result (loop_end (bytes * string) Z) :=
  match fuel with
  | O => Raise NonTermination
  | S fuel =>
      if 5 <? quality then
        output ← save_jpeg img quality;
        if len output <=? target_size_bytes self then Ok (Returned (output, "jpg"))
        else quality_search fuel img (quality - 5)
      else Ok (Exhausted quality)
  end.

(** [(int(img.width * scale), int(img.height * scale))] *)
Definition scaled_size (img : Image) (scale : float) : Z * Z :=
  (int_of_float (float_of_int (width img) * scale),
   int_of_float (float_of_int (height img) * scale)).

(** The scale loop (source lines 69-79):
    [while scale > 0.3: ...; scale -= 0.1].  The variable [resized] is
    unbound before the first iteration and survives the loop. *)
Fixpoint scale_search (fuel : nat) (img : Image) (scale : float)
    (resized : option Image)
    : result (loop_end (bytes * string) (float * option Image)) :=
  match fuel with
  | O => Raise NonTermination
  | S fuel =>
      if (0.3 <? scale)%float then
        resized ← resize img (scaled_size img scale);
        output ← save_jpeg resized 85;
        if len output <=? target_size_bytes self then Ok (Returned (output, "jpg"))
        else scale_search fuel img (scale - 0.1)%float (Some resized)
      else Ok (Exhausted (scale, resized))
  end.

#[global] Arguments quality_search : simpl never.
#[global] Arguments scale_search : simpl never.

(** Fuel for the two loops: the quality loop runs at most [quality / 5]
    times, the scale loop seven times. *)
Definition quality_fuel : nat := 96.
Definition scale_fuel : nat := 16.

(** [compress_image(self, image_data)] (source lines 39-84).  Only
    [Image.open] is inside the [try]. *)
Definition compress_image (image_data : bytes) : result (bytes * string) :=
  match Image_open image_data with
  | None => Ok (image_data, "original")
  | Some img =>
      img ← normalize img;
      q ← quality_search quality_fuel img 95;
      match q with
      | Returned r => Ok r
      | Exhausted _ =>
          s ← scale_search scale_fuel img 0.9%float None;
          match s with
          | Returned r => Ok r
          | Exhausted (_, resized) =>
              resized ← or_raise UnboundLocalError resized;
              output ← save_jpeg resized 60;
              Ok (output, "jpg")
          end
      end
  end.
End codec.

(** ** base64 *)

Class Base64 := {
  (** [base64.b64decode(s)]; [None] when it raises [binascii.Error] *)
  b64decode : string → option bytes;
  (** [base64.b64encode(data).decode('utf-8')] *)
  b64encode : bytes → string
}.

Section inline.
Context `{Pillow, Base64}.
Variable self : HWPXImageCompressorAdvanced.

(** [compress_base64_image(self, base64_string)] (source lines 86-108):
    the new string, the original size, the compressed size and the
    was-compressed flag. *)
Definition compress_base64_image (base64_string : string) : string * Z * Z * bool :=
  try_except
    (image_data ← or_raise binascii_Error (b64decode base64_string);
     let original_size := len image_data in
     if original_size <=? target_size_bytes self then
       Ok (base64_string, original_size, original_size, false)
     else
       r ← compress_image self image_data;
       let compressed_data := r.1 in
       let compressed_size := len compressed_data in
       let compressed_base64 := b64encode compressed_data in
       Ok (compressed_base64, original_size, compressed_size, true))
    (λ _, (base64_string, 0, 0, false)).
End inline.

(** ** xml.etree.ElementTree *)

(** An element: tag, attribute dictionary, text, tail and children. *)
Inductive Element : Type :=
  | Elem (tag : string) (attrib : gmap string string)
         (text tail : option string) (children : list Element).

Definition attrib_of (e : Element) : gmap string string :=
  match e with Elem _ attrib _ _ _ => attrib end.

Definition children_of (e : Element) : list Element :=
  match e with Elem _ _ _ _ children => children end.

(** [root.iter()]: the element and its descendants, in document order. *)
Fixpoint iter (e : Element) : list Element :=
  match e with
  | Elem _ _ _ _ children => e :: concat (iter <$> children)
  end.

Class ElementTree := {
  (** [ET.fromstring(xml_content)]; [None] when it raises [ParseError] *)
  ET_fromstring : string → option Element;
  (** the [(prefix, uri)] payloads of the events of
      [ET.iterparse(io.StringIO(xml_content), events=['start-ns'])]: one per
      namespace declaration of the document *)
  ET_start_ns : string → list (string * string);
  (** [ET.tostring(root, encoding='utf-8')] *)
  ET_tostring : Element → bytes
}.

(** What [process_xml_images] returns first: the text it was given ([str]),
    or the serialised tree ([bytes]). *)
Inductive str_or_bytes : Type :=
  | Str (s : string)
  | Bytes (b : bytes).

(** [ET.iterparse] yields pairs [(event, elem)]: the event name and, for a
    start-ns event, the pair [(prefix, uri)]. *)
Definition ET_iterparse `{ElementTree} (xml_content : string)
    : list (string * (string * string)) :=
  (λ ns, ("start-ns", ns)) <$> ET_start_ns xml_content.

(** [a, b = s] for a string [s]: its two characters, and [ValueError] for any
    other length. *)
Definition unpack_pair (s : string) : result (string * string) :=
  match chars s with
  | [a; b] => Ok (String a EmptyString, String b EmptyString)
  | _ => Raise ValueError
  end.

(** The namespace loop (source lines 117-121); it unpacks [event]. *)
Fixpoint extract_namespaces (events : list (string * (string * string)))
    (namespaces : gmap string string) : result (gmap string string) :=
  match events with
  | [] => Ok namespaces
  | (event, elem) :: events =>
      pu ← unpack_pair event;
      let '(prefix, uri) := pu in
      extract_namespaces events
        (if bool_decide (prefix ≠ "") then <[prefix := uri]> namespaces else namespaces)
  end.

(** The running totals of one document scan. *)
Record scan_totals := {
  scan_count : Z;
  scan_original : Z;
  scan_compressed : Z;
  scan_modified : bool
}.

Definition scan_zero : scan_totals :=
  {| scan_count := 0; scan_original := 0; scan_compressed := 0; scan_modified := false |}.

Section scanner.
Context `{Pillow, Base64, ElementTree}.
Variable self : HWPXImageCompressorAdvanced.

(** The body of the first loop (source lines 130-142) on one element's
    attributes.  [compress_base64_image] catches its own exceptions, so the
    inner [try] never reaches its [except]. *)
Definition scan_bin_attrib (attrib : gmap string string) (st : scan_totals)
    : gmap string string * scan_totals :=
  match attrib !! "bin" with
  | None => (attrib, st)
  | Some base64_str =>
      if 100 <? str_len base64_str then
        let '(new_base64, orig_size, comp_size, was_compressed) :=
          compress_base64_image self base64_str in
        if was_compressed then
          (<["bin" := new_base64]> attrib,
           {| scan_count := scan_count st + 1;
              scan_original := scan_original st + orig_size;
              scan_compressed := scan_compressed st + comp_size;
              scan_modified := true |})
        else (attrib, st)
      else (attrib, st)
  end.

(** The first loop, [for elem in root.iter()], rewriting the tree in place. *)
Fixpoint scan_bin (e : Element) (st : scan_totals) : Element * scan_totals :=
  match e with
  | Elem tag attrib text tail children =>
      let '(attrib, st) := scan_bin_attrib attrib st in
      let '(children, st) :=
        (fix scan_children (cs : list Element) (st : scan_totals) :=
           match cs with
           | [] => ([], st)
           | c :: cs =>
               let '(c, st) := scan_bin c st in
               let '(cs, st) := scan_children cs st in
               (c :: cs, st)
           end) children st in
      (Elem tag attrib text tail children, st)
  end.

(** The second loop (source lines 145-148): an element carrying
    [fillImagePath] is recognised, and left as it is ([pass]). *)
Fixpoint scan_fillImagePath (e : Element) : Element :=
  match e with
  | Elem tag attrib text tail children =>
      let attrib :=
        if bool_decide (is_Some (attrib !! "fillImagePath")) then attrib else attrib in
      Elem tag attrib text tail (scan_fillImagePath <$> children)
  end.

(** [process_xml_images(self, xml_content, file_path)] (source lines
    110-157); [file_path] only labels the warning that is printed. *)
Definition process_xml_images (xml_content file_path : string)
    : str_or_bytes * Z * Z * Z :=
  try_except
    (root ← or_raise ParseError (ET_fromstring xml_content);
     namespaces ← extract_namespaces (ET_iterparse xml_content) ∅;
     let '(root, st) := scan_bin root scan_zero in
     let root := scan_fillImagePath root in
     if scan_modified st then
       Ok (Bytes (ET_tostring root), scan_count st, scan_original st, scan_compressed st)
     else Ok (Str xml_content, 0, 0, 0))
    (λ _, (Str xml_content, 0, 0, 0)).
End scanner.

(** ** Archives and the scratch directory *)

(** A path, as its components. *)
Abbreviation path := (list string).

(** One archive member: its name (split at "/"), whether it is a directory
    entry (a name ending in "/"), and its data. *)
Record ZipInfo := {
  filename : path;
  is_dir : bool;
  content : bytes
}.

Abbreviation archive := (list ZipInfo).

(** What sits at a path of the scratch directory. *)
Inductive node : Type :=
  | File (data : bytes)
  | Dir.

(** The scratch directory: its entries by path relative to it.  The empty
    path is the directory itself.  Names are compared exactly, as on a
    case-sensitive file system. *)
Abbreviation tree := (gmap (list string) node).

Definition lookup_node (t : tree) (p : path) : option node :=
  match p with
  | [] => Some Dir
  | _ => t !! p
  end.

(** [os.path.exists] *)
Definition exists_ (t : tree) (p : path) : bool := bool_decide (is_Some (lookup_node t p)).

(** [os.path.dirname] *)
Definition dirname (p : path) : path := take (length p - 1) p.

(** The directories [done ++ todo] leads through, created where missing;
    [zipfile] does it with [os.makedirs] when the parent is missing. *)
Fixpoint ensure_dirs (t : tree) (done todo : path) : result tree :=
  match todo with
  | [] => Ok t
  | x :: todo =>
      let d := done ++ [x] in
      match t !! d with
      | Some (File _) => Raise NotADirectoryError
      | Some Dir => ensure_dirs t d todo
      | None => ensure_dirs (<[d := Dir]> t) d todo
      end
  end.

(** The components [zipfile] drops from a member's name. *)
Definition invalid_path_parts : list string := [""; "."; ".."].

Definition sanitize (name : path) : path :=
  filter (λ x, x ∉ invalid_path_parts) name.

(** [ZipFile._extract_member] into the scratch directory. *)
Definition extract_member (t : tree) (member : ZipInfo) : result tree :=
  let targetpath := sanitize (filename member) in
  t ← ensure_dirs t [] (dirname targetpath);
  if is_dir member then
    match lookup_node t targetpath with
    | Some Dir => Ok t
    | Some (File _) => Raise FileExistsError
    | None => Ok (<[targetpath := Dir]> t)
    end
  else
    match lookup_node t targetpath with
    | Some Dir => Raise IsADirectoryError
    | _ => Ok (<[targetpath := File (content member)]> t)
    end.

(** [zip_ref.extractall(temp_dir)] *)
Fixpoint extractall (members : archive) (t : tree) : result tree :=
  match members with
  | [] => Ok t
  | member :: members => t ← extract_member t member; extractall members t
  end.

(** [p] is [d] followed by one component. *)
Fixpoint child_name (d p : path) : option string :=
  match d, p with
  | [], [x] => Some x
  | a :: d, b :: p => if bool_decide (a = b) then child_name d p else None
  | _, _ => None
  end.

(** [os.listdir]; the order is the file system's. *)
Definition listdir (t : tree) (d : path) : result (list string) :=
  match lookup_node t d with
  | None => Raise FileNotFoundError
  | Some (File _) => Raise NotADirectoryError
  | Some Dir => Ok (omap (child_name d) (map_to_list t).*1)
  end.

(** [os.path.getsize].  What it reports for a directory depends on the
    platform (0 here); an image-named directory aborts the run wherever the
    sort puts it. *)
Definition getsize (t : tree) (p : path) : result Z :=
  match lookup_node t p with
  | None => Raise FileNotFoundError
  | Some (File data) => Ok (len data)
  | Some Dir => Ok 0
  end.

(** [open(p, 'rb').read()] *)
Definition read_file (t : tree) (p : path) : result bytes :=
  match lookup_node t p with
  | None => Raise FileNotFoundError
  | Some (File data) => Ok data
  | Some Dir => Raise IsADirectoryError
  end.

(** [open(p, 'wb').write(data)] *)
Definition write_file (t : tree) (p : path) (data : bytes) : result tree :=
  match lookup_node t p with
  | Some Dir => Raise IsADirectoryError
  | Some (File _) => Ok (<[p := File data]> t)
  | None =>
      match lookup_node t (dirname p) with
      | Some Dir => Ok (<[p := File data]> t)
      | Some (File _) => Raise NotADirectoryError
      | None => Raise FileNotFoundError
      end
  end.

(** The files [os.walk(temp_dir)] reaches, each with its path relative to
    [temp_dir] ([os.path.relpath]) and its data.  In the trees extraction
    builds every file lies under directories of the tree (lemmas
    [extractall_wf] and [wf_tree_ancestor]), so the walk reaches all of
    them. *)
Definition walk_files (t : tree) : list (path * bytes) :=
  omap (λ pn, match pn.2 with File data => Some (pn.1, data) | Dir => None end)
       (map_to_list t).

(** The archive written by the repackaging loop (source lines 306-311):
    one member per file. *)
Definition repack (t : tree) : archive :=
  (λ pd, {| filename := pd.1; is_dir := false; content := pd.2 |}) <$> walk_files t.

(** [list.sort(key=..., reverse=True)] on items paired with their keys:
    stable, larger keys first. *)
Fixpoint insert_desc {A} (x : A * Z) (l : list (A * Z)) : list (A * Z) :=
  match l with
  | [] => [x]
  | y :: l => if x.2 <? y.2 then y :: insert_desc x l else x :: y :: l
  end.

Fixpoint sort_desc {A} (l : list (A * Z)) : list (A * Z) :=
  match l with
  | [] => []
  | x :: l => insert_desc x (sort_desc l)
  end.

(** [for x in l: st = body st x], stopping at the first exception. *)
Fixpoint for_each {S A} (body : S → A → result S) (l : list A) (st : S) : result S :=
  match l with
  | [] => Ok st
  | x :: l => st ← body st x; for_each body l st
  end.

(** ** Text files *)

Class TextIO := {
  (** [open(p, 'r', encoding='utf-8').read()] on a file holding these bytes;
      [None] when it raises [UnicodeDecodeError] *)
  read_text : bytes → option string;
  (** the bytes [open(p, 'w', encoding='utf-8').write(s)] leaves in the file *)
  write_text : string → bytes;
  (** [b.decode('utf-8')] *)
  decode_utf8 : bytes → option string
}.

(** ** The orchestrator *)

(** The counters of the binary-asset pass (source lines 186-189). *)
Record asset_totals := {
  compressed_count : Z;
  total_original_size : Z;
  total_compressed_size : Z;
  skipped_count : Z
}.

(** The counters of the XML pass (source lines 256-258). *)
Record xml_totals := {
  xml_compressed_count : Z;
  xml_total_original : Z;
  xml_total_compressed : Z
}.

(** The figures [result_msg] is rendered from (the reduction percentage and
    the elapsed time follow from them and the clock). *)
Record RunStatistics := {
  stat_compressed : Z;
  stat_skipped : Z;
  stat_xml_compressed : Z;
  total_all_compressed : Z;
  total_all_original : Z;
  total_all_compressed_size : Z;
  stat_output_path : string
}.

(** The message of a [(False, msg)] answer. *)
Inductive failure_msg : Type :=
  | NotHwpx
  | ErrorOccurred (e : exn).

(** What [process_hwpx] returns: [(True, result_msg)] or [(False, msg)]. *)
Inductive reply : Type :=
  | Success (stats : RunStatistics)
  | Failure (msg : failure_msg).

(** What sits at the scratch path ["temp_hwpx_processing"]. *)
Inductive occupant : Type :=
  | Absent
  | RegularFile (data : bytes)
  | Directory (t : tree).

(** The path up to and including its last separator: the directory a path
    lies in, as the path spells it. *)
Fixpoint dir_prefix (cs : list Ascii.ascii) : list Ascii.ascii :=
  match cs with
  | [] => []
  | c :: cs =>
      let d := dir_prefix cs in
      if bool_decide (c = "/"%char) || bool_decide (d ≠ []) then c :: d else []
  end.

Definition directory (p : string) : string :=
  String.string_of_list_ascii (dir_prefix (chars p)).

(** The part of the file system a run touches:
    - the archives, by path (a path where there is no archive has no
      entry);
    - what sits at the scratch path;
    - which directories, as [directory] spells them, are the scratch
      directory or lie under it;
    - the paths [zipfile.ZipFile(path, 'w')] cannot create or truncate,
      with the exception it raises there (a missing directory, a
      permission).
    Inside the scratch directory every read and write of the run is taken
    to go through. *)
Record world := {
  zips : gmap string archive;
  temp_dir : occupant;
  scratch_subdir : string → bool;
  write_error : string → option exn
}.

(** Whether a path lies under the scratch directory. *)
Definition under_scratch (w : world) (p : string) : bool :=
  scratch_subdir w (directory p).

(** The archives outside the scratch directory: those that are there once
    the scratch directory has been removed or made afresh. *)
Definition outside_scratch (w : world) : gmap string archive :=
  filter (λ pa, under_scratch w pa.1 = false) (zips w).

(** The file system a run leaves when it has removed the scratch
    directory: nothing at the scratch path, and the given archives. *)
Definition scratch_removed (w : world) (archives : gmap string archive) : world :=
  {| zips := archives; temp_dir := Absent;
     scratch_subdir := scratch_subdir w; write_error := write_error w |}.

(** [shutil.rmtree] and [os.makedirs] at the scratch path. *)
Definition rmtree (o : occupant) : result occupant :=
  match o with
  | Directory _ => Ok Absent
  | RegularFile _ => Raise NotADirectoryError
  | Absent => Raise FileNotFoundError
  end.

Definition makedirs (o : occupant) : result occupant :=
  match o with
  | Absent => Ok (Directory ∅)
  | _ => Raise FileExistsError
  end.

Definition occupied (o : occupant) : bool :=
  match o with Absent => false | _ => true end.

Definition image_extensions : list string := [".png"; ".jpg"; ".jpeg"; ".bmp"; ".gif"].

Definition bindata_path : path := ["BinData"].
Definition contents_path : path := ["Contents"].

Section orchestrator.
Context `{Pillow, Base64, ElementTree, TextIO}.
Variable self : HWPXImageCompressorAdvanced.

(** One turn of the asset loop (source lines 203-246), on the scratch tree
    and the counters. *)
Definition asset_step (st : tree * asset_totals) (item : string * path)
    : result (tree * asset_totals) :=
  let '(t, c) := st in
  let image_path := item.2 in
  original_data ← read_file t image_path;
  let original_size := len original_data in
  let c := {| compressed_count := compressed_count c;
              total_original_size := total_original_size c + original_size;
              total_compressed_size := total_compressed_size c;
              skipped_count := skipped_count c |} in
  if original_size <=? target_size_bytes self then
    Ok (t, {| compressed_count := compressed_count c;
              total_original_size := total_original_size c;
              total_compressed_size := total_compressed_size c + original_size;
              skipped_count := skipped_count c + 1 |})
  else
    Ok (try_except
          (r ← compress_image self original_data;
           let compressed_data := r.1 in
           let compressed_size := len compressed_data in
           (* reduction = (original_size - compressed_size) / original_size * 100 *)
           _ ← (if original_size =? 0 then Raise ZeroDivisionError else Ok ());
           t ← write_file t image_path compressed_data;
           Ok (t, {| compressed_count := compressed_count c + 1;
                     total_original_size := total_original_size c;
                     total_compressed_size := total_compressed_size c + compressed_size;
                     skipped_count := skipped_count c |}))
          (λ _, (t, {| compressed_count := compressed_count c;
                       total_original_size := total_original_size c;
                       total_compressed_size := total_compressed_size c + original_size;
                       skipped_count := skipped_count c |}))).

Definition asset_zero : asset_totals :=
  {| compressed_count := 0; total_original_size := 0;
     total_compressed_size := 0; skipped_count := 0 |}.

(** The image files of [BinData], largest first (source lines 191-201). *)
Definition image_info (t : tree) : result (list (string * path)) :=
  names ← listdir t bindata_path;
  let image_files :=
    filter (λ f, endswith_any (lower f) image_extensions) (names : list string) in
  let image_info := (λ f, (f, bindata_path ++ [f])) <$> image_files in
  keyed ← mapM (λ x, k ← getsize t x.2; Ok (x, k)) image_info;
  Ok (sort_desc keyed).*1.

(** Stage 2: the binary-asset pass (source lines 184-246). *)
Definition process_bindata (t : tree) : result (tree * asset_totals) :=
  if exists_ t bindata_path then
    items ← image_info t;
    for_each asset_step items (t, asset_zero)
  else Ok (t, asset_zero).

(** The XML documents of [Contents] (source lines 249-254). *)
Definition xml_files (t : tree) : result (list path) :=
  if exists_ t contents_path then
    names ← listdir t contents_path;
    Ok ((λ f, contents_path ++ [f]) <$> filter (λ f, endswith f ".xml") (names : list string))
  else Ok [].

Definition xml_zero : xml_totals :=
  {| xml_compressed_count := 0; xml_total_original := 0; xml_total_compressed := 0 |}.

(** One turn of the document loop (source lines 262-298).  Its [try] catches
    every exception; [open(xml_path, 'w')] has emptied the file by the time
    [new_xml.decode] can raise. *)
Definition xml_step (st : tree * xml_totals) (xml_path : path) : tree * xml_totals :=
  let '(t, c) := st in
  let file_name := default "" (last xml_path) in
  try_except
    (data ← read_file t xml_path;
     xml_content ← or_raise UnicodeDecodeError (read_text data);
     let '(new_xml, comp_count, orig, comp) :=
       process_xml_images self xml_content file_name in
     if 0 <? comp_count then
       t ← write_file t xml_path [];
       match new_xml with
       | Bytes b =>
           match decode_utf8 b with
           | None => Ok (t, c)
           | Some s =>
               t ← write_file t xml_path (write_text s);
               Ok (t, {| xml_compressed_count := xml_compressed_count c + comp_count;
                         xml_total_original := xml_total_original c + orig;
                         xml_total_compressed := xml_total_compressed c + comp |})
           end
       | Str s =>
           t ← write_file t xml_path (write_text s);
           Ok (t, {| xml_compressed_count := xml_compressed_count c + comp_count;
                     xml_total_original := xml_total_original c + orig;
                     xml_total_compressed := xml_total_compressed c + comp |})
       end
     else Ok (t, c))
    (λ _, (t, c)).

(** Stage 3: the XML pass (source lines 248-298). *)
Definition process_contents (t : tree) : result (tree * xml_totals) :=
  files ← xml_files t;
  Ok (foldl xml_step (t, xml_zero) files).

(** Stages 1 to 3 on the fresh scratch directory [t]. *)
Definition run_stages (members : archive) (t : tree)
    : result (tree * asset_totals * xml_totals) :=
  t ← extractall members t;
  ta ← process_bindata t;
  tx ← process_contents ta.1;
  Ok (tx.1, ta.2, tx.2).

(** The statistics of a finished run (source lines 316-318). *)
Definition statistics (a : asset_totals) (x : xml_totals) (output_path : string)
    : RunStatistics :=
  {| stat_compressed := compressed_count a;
     stat_skipped := skipped_count a;
     stat_xml_compressed := xml_compressed_count x;
     total_all_compressed := compressed_count a + xml_compressed_count x;
     total_all_original := total_original_size a + xml_total_original x;
     total_all_compressed_size := total_compressed_size a + xml_total_compressed x;
     stat_output_path := output_path |}.

(** Source lines 168-171: whatever is at the scratch path is removed and the
    directory is created afresh.  This happens before the [try]. *)
Definition prepare_scratch (o : occupant) : result occupant :=
  o ← (if occupied o then rmtree o else Ok o);
  makedirs o.

(** The default output path (source lines 164-166). *)
Definition resolve_output (hwpx_path : string) (output_path : option string) : string :=
  default (splitext_root hwpx_path +:+ "_compressed.hwpx") output_path.

(** [process_hwpx(self, hwpx_path, output_path)] (source lines 159-351):
    the file system afterwards, and the answer ([Raise] for an exception
    that leaves the method).

    Once the scratch directory is made afresh, no archive lies under it: an
    input under the scratch directory is gone by the time it is opened.
    Where the output path lies under the scratch directory the program
    packs the archive into itself and then removes it; the model does not
    follow that and answers [OutsideModel]. *)
Definition process_hwpx (hwpx_path : string) (output_path : option string) (w : world)
    : world * result reply :=
  if negb (endswith hwpx_path ".hwpx") then (w, Ok (Failure NotHwpx))
  else
    let output_path := resolve_output hwpx_path output_path in
    match prepare_scratch (temp_dir w) with
    | Raise e => (w, Raise e)
    | Ok (Directory t) =>
        let archives := outside_scratch w in
        match (members ← or_raise FileNotFoundError (archives !! hwpx_path);
               run_stages members t) with
        | Ok (t, a, x) =>
            if under_scratch w output_path then (w, Raise OutsideModel)
            else
              match write_error w output_path with
              | None =>
                  (* the archive is written, then [shutil.rmtree(temp_dir)] *)
                  (scratch_removed w (<[output_path := repack t]> archives),
                   Ok (Success (statistics a x output_path)))
              | Some e =>
                  (* [zipfile.ZipFile(output_path, 'w')] raises inside the
                     [try] *)
                  (scratch_removed w archives, Ok (Failure (ErrorOccurred e)))
              end
        | Raise e =>
            (* [except]: the scratch directory, in whatever state the failed
               stage left it, is removed *)
            (scratch_removed w archives, Ok (Failure (ErrorOccurred e)))
        end
    | Ok _ => (w, Raise FileNotFoundError)
    end.
End orchestrator.

(** ** The graphical front end: [HWPXCompressorGUI]

    The window's state as the methods below read and write it: the
    processing flag, the size selected with the radio buttons and the
    status line.  The progress bar and the detail line, which only
    [update_progress] and the last two lines of [process_files] write, are
    left out, and so is the timer by which [show_message] puts the status
    line back to its resting text after five seconds. *)

(** The texts of the status line. *)
Inductive message : Type :=
  | Waiting
  | AlreadyProcessing
  | DropHwpxFile
  | Completed (success total : Z)
  | PartlyCompleted (success total : Z).

Record HWPXCompressorGUI := {
  is_processing : bool;
  size_var : Z;
  (** the text and the colour ([fg]) of [status_label] *)
  status_label : message * string
}.

(** The sizes of the radio buttons, in KB. *)
Definition sizes : list Z := [50; 100; 200; 500; 1000].

(** [HWPXCompressorGUI()] *)
Definition new_gui : HWPXCompressorGUI :=
  {| is_processing := false; size_var := 200; status_label := (Waiting, "#95a5a6") |}.

Definition colors : gmap string string :=
  {[ "success" := "#27ae60"; "error" := "#e74c3c";
     "warning" := "#f39c12"; "info" := "#3498db" ]}.

(** [show_message(self, message, msg_type)] (source lines 542-553). *)
Definition show_message (gui : HWPXCompressorGUI) (message : message) (msg_type : string)
    : HWPXCompressorGUI :=
  {| is_processing := is_processing gui;
     size_var := size_var gui;
     status_label := (message, default (colors !!! "info") (colors !! msg_type)) |}.

(** [cs.lstrip(remove)], on the characters. *)
Fixpoint lstrip (cs remove : list Ascii.ascii) : list Ascii.ascii :=
  match cs with
  | [] => []
  | c :: cs' => if bool_decide (c ∈ remove) then lstrip cs' remove else cs
  end.

(** [s.strip(remove)] *)
Definition strip (s remove : string) : string :=
  String.string_of_list_ascii
    (reverse (lstrip (reverse (lstrip (chars s) (chars remove))) (chars remove))).

(** What the front end asks of Tk and of the file system. *)
Class Desktop := {
  (** [self.root.tk.splitlist(data)] *)
  splitlist : string → list string;
  (** [os.path.exists(item)], in a given state of the file system *)
  os_path_exists : world → string → bool
}.

Section front_end.
Context `{Pillow, Base64, ElementTree, TextIO, Desktop}.

(** [parse_drop_files(self, data)] (source lines 498-505). *)
Definition parse_drop_files (w : world) (data : string) : list string :=
  filter (λ item, os_path_exists w item = true) ((λ item, strip item "{}") <$> splitlist data).

(** [on_drop(self, event)] (source lines 480-496): the window afterwards,
    and the files handed to the thread it starts on [process_files], if it
    starts one. *)
Definition on_drop (gui : HWPXCompressorGUI) (w : world) (data : string)
    : HWPXCompressorGUI * option (list string) :=
  if is_processing gui then (show_message gui AlreadyProcessing "warning", None)
  else
    let files := parse_drop_files w data in
    let hwpx_files := filter (λ f, endswith (lower f) ".hwpx" = true) files in
    if bool_decide (hwpx_files = []) then (show_message gui DropHwpxFile "error", None)
    else (gui, Some hwpx_files).

(** The loop of [process_files] (source lines 517-524): the file system
    afterwards, and the number of successes, unless a call raises. *)
Fixpoint process_each (compressor : HWPXImageCompressorAdvanced) (files : list string)
    (w : world) (success : Z) : world * result Z :=
  match files with
  | [] => (w, Ok success)
  | file_path :: files =>
      match process_hwpx compressor file_path None w with
      | (w, Ok (Success _)) => process_each compressor files w (success + 1)
      | (w, Ok (Failure _)) => process_each compressor files w success
      | (w, Raise e) => (w, Raise e)
      end
  end.

(** [process_files(self, files)] (source lines 507-533), as the thread runs
    it. *)
Definition process_files (gui : HWPXCompressorGUI) (files : list string) (w : world)
    : HWPXCompressorGUI * world * result () :=
  let gui := {| is_processing := true; size_var := size_var gui;
                status_label := status_label gui |} in
  let total := len files in
  let target_size := size_var gui in
  let compressor := new_compressor target_size in
  match process_each compressor files w 0 with
  | (w, Ok success) =>
      let gui := {| is_processing := false; size_var := size_var gui;
                    status_label := status_label gui |} in
      (if bool_decide (success = total)
       then show_message gui (Completed success total) "success"
       else show_message gui (PartlyCompleted success total) "warning",
       w, Ok ())
  | (w, Raise e) => (gui, w, Raise e)
  end.
End front_end.

(** ** Progress reports

    The percentages [process_hwpx] hands to [progress_callback], which
    [update_progress] puts on the progress bar: 0 at the start, one per
    image, one per document, and 95 before repacking. *)

(** [int((idx / total_images) * 100) if total_images > 0 else 0]
    (source line 206) *)
Definition asset_progress (idx total_images : Z) : Z :=
  if 0 <? total_images
  then int_of_float (float_of_int idx / float_of_int total_images * 100)
  else 0.

(** [80 + int((idx / len(xml_files)) * 15) if xml_files else 80]
    (source line 268) *)
Definition xml_progress (idx len_xml_files : Z) : Z :=
  if 0 <? len_xml_files
  then 80 + int_of_float (float_of_int idx / float_of_int len_xml_files * 15)
  else 80.

(** ** Vocabulary of the statements *)

(** The quality levels the loop visits: 95, 90, ..., 10. *)
Definition quality_levels : list Z :=
  [95; 90; 85; 80; 75; 70; 65; 60; 55; 50; 45; 40; 35; 30; 25; 20; 15; 10].

(** The scale factors the loop visits, computed as the loop computes them:
    0.9 and six subtractions of 0.1. *)
Definition scale_levels : list float :=
  [0.9; 0.9 - 0.1; 0.9 - 0.1 - 0.1; 0.9 - 0.1 - 0.1 - 0.1; 0.9 - 0.1 - 0.1 - 0.1 - 0.1;
   0.9 - 0.1 - 0.1 - 0.1 - 0.1 - 0.1; 0.9 - 0.1 - 0.1 - 0.1 - 0.1 - 0.1 - 0.1]%float.

(** The last of them, the smallest scale: 0.3 up to rounding. *)
Definition min_scale : float := (0.9 - 0.1 - 0.1 - 0.1 - 0.1 - 0.1 - 0.1)%float.

(** The candidate at a scale level: the image resized, and its encoding at
    a quality. *)
Definition candidate `{Pillow} (img : Image) (scale : float) : result Image :=
  resize img (scaled_size img scale).

Definition candidate_encoding `{Pillow} (img : Image) (quality : Z) (scale : float)
    : result bytes :=
  resized ← candidate img scale; save_jpeg resized quality.

(** The encoding at quality 60 of the most downscaled candidate. *)
Definition fallback_encoding `{Pillow} (img : Image) : result bytes :=
  candidate_encoding img 60 min_scale.

(** Whether an encoding fits the budget. *)
Definition fits (self : HWPXImageCompressorAdvanced) (output : bytes) : bool :=
  len output <=? target_size_bytes self.

(** A search through [levels] in order, for the first whose encoding fits:
    the level and the encoding, [None] when no encoding fits, and the
    exception of the first encoding that raises. *)
Fixpoint first_fit {A} (self : HWPXImageCompressorAdvanced) (enc : A → result bytes)
    (levels : list A) : result (option (A * bytes)) :=
  match levels with
  | [] => Ok None
  | a :: levels =>
      output ← enc a;
      if fits self output then Ok (Some (a, output)) else first_fit self enc levels
  end.

(** An encoding that returns and is over the budget. *)
Definition over (self : HWPXImageCompressorAdvanced) (r : result bytes) : Prop :=
  ∃ output, r = Ok output ∧ target_size_bytes self < len output.

(** A computation that returns. *)
Definition returns {A} (r : result A) : Prop := ∃ a, r = Ok a.

(** Every call into Pillow that the search can make on an opened image
    returns: the normalisation, the encoding at each quality level, at each
    scale level the resizing and the encoding of the candidate, and the
    fall-back encoding. *)
Definition codec_returns `{Pillow} (img0 : Image) : Prop :=
  ∃ img, normalize img0 = Ok img
    ∧ (∀ q, q ∈ quality_levels → returns (save_jpeg img q))
    ∧ (∀ s, s ∈ scale_levels → returns (candidate_encoding img 85 s))
    ∧ returns (fallback_encoding img).

(** A bounded check of that, from [n] upwards. *)
Fixpoint three_tenths_from (fuel : nat) (n : Z) : bool :=
  match fuel with
  | O => true
  | S fuel =>
      (int_of_float (float_of_int n * min_scale) =? 3 * n / 10)
      && three_tenths_from fuel (n + 1)
  end.

(** The values of attribute [key] over the elements of a tree, in document
    order ([None] where an element does not carry it). *)
Definition attr_values (key : string) (root : Element) : list (option string) :=
  (λ e, attrib_of e !! key) <$> iter root.

(** The tree with every [bin] attribute removed: all that the first loop
    cannot touch. *)
Fixpoint erase_bin (e : Element) : Element :=
  match e with
  | Elem tag attrib text tail children =>
      Elem tag (delete "bin" attrib) text tail (erase_bin <$> children)
  end.

Section scan_vocabulary.
Context `{Pillow, Base64}.
Variable self : HWPXImageCompressorAdvanced.

(** The children loop of [scan_bin], by name. *)
Fixpoint scan_bin_list (cs : list Element) (st : scan_totals)
    : list Element * scan_totals :=
  match cs with
  | [] => ([], st)
  | c :: cs =>
      let '(c, st) := scan_bin self c st in
      let '(cs, st) := scan_bin_list cs st in
      (c :: cs, st)
  end.
End scan_vocabulary.

(** The totals after an element whose [bin] attribute is [v]. *)
Definition payload_totals `{Pillow, Base64} (self : HWPXImageCompressorAdvanced)
    (st : scan_totals) (v : option string) : scan_totals :=
  match v with
  | Some base64_str =>
      if 100 <? str_len base64_str then
        let '(_, orig_size, comp_size, was_compressed) :=
          compress_base64_image self base64_str in
        if was_compressed then
          {| scan_count := scan_count st + 1;
             scan_original := scan_original st + orig_size;
             scan_compressed := scan_compressed st + comp_size;
             scan_modified := true |}
        else st
      else st
  | None => st
  end.

(** An inline payload over the budget: longer than 100 characters and
    decoding to more bytes than the budget. *)
Definition over_budget `{Base64} (self : HWPXImageCompressorAdvanced)
    (v : option string) : bool :=
  match v with
  | Some base64_str =>
      (100 <? str_len base64_str)
      && match b64decode base64_str with
         | Some image_data => target_size_bytes self <? len image_data
         | None => false
         end
  | None => false
  end.

(** The modified flag is up exactly when something was counted. *)
Definition totals_coherent (st : scan_totals) : Prop :=
  0 ≤ scan_count st ∧ (scan_modified st = true ↔ 0 < scan_count st).

(** Whether a node is a file; two trees with the same entries of the same
    kinds. *)
Definition is_file (n : node) : bool :=
  match n with File _ => true | Dir => false end.

Definition same_kinds (t t' : tree) : Prop :=
  ∀ p, is_file <$> t !! p = is_file <$> t' !! p.

(** A name the asset pass takes for an image. *)
Definition is_image_name (f : string) : bool :=
  endswith_any (lower f) image_extensions.

(** What one turn of the asset loop leaves in a file holding [data], and
    what it adds to the counters. *)
Definition asset_outcome `{Pillow} (self : HWPXImageCompressorAdvanced)
    (data : bytes) : bytes :=
  if len data <=? target_size_bytes self then data
  else match compress_image self data with
       | Ok r => if len data =? 0 then data else r.1
       | Raise _ => data
       end.

Definition asset_tally `{Pillow} (self : HWPXImageCompressorAdvanced)
    (data : bytes) (c : asset_totals) : asset_totals :=
  if len data <=? target_size_bytes self then
    {| compressed_count := compressed_count c;
       total_original_size := total_original_size c + len data;
       total_compressed_size := total_compressed_size c + len data;
       skipped_count := skipped_count c + 1 |}
  else match compress_image self data with
       | Ok r =>
           if len data =? 0 then
             {| compressed_count := compressed_count c;
                total_original_size := total_original_size c + len data;
                total_compressed_size := total_compressed_size c + len data;
                skipped_count := skipped_count c |}
           else
             {| compressed_count := compressed_count c + 1;
                total_original_size := total_original_size c + len data;
                total_compressed_size := total_compressed_size c + len r.1;
                skipped_count := skipped_count c |}
       | Raise _ =>
           {| compressed_count := compressed_count c;
              total_original_size := total_original_size c + len data;
              total_compressed_size := total_compressed_size c + len data;
              skipped_count := skipped_count c |}
       end.

(** The asset pass can run: [BinData] is not a file, and none of its
    image-named entries is a directory. *)
Definition bindata_ok (t : tree) : Prop :=
  (∀ data, t !! bindata_path ≠ Some (File data))
  ∧ (is_Some (t !! bindata_path) →
     ∀ f, is_image_name f = true → t !! (bindata_path ++ [f]) ≠ Some Dir).

(** The XML pass can run: [Contents] is not a file. *)
Definition contents_ok (t : tree) : Prop :=
  ∀ data, t !! contents_path ≠ Some (File data).

(** A document that reads as text but does not parse. *)
Definition malformed `{ElementTree, TextIO} (data : bytes) : Prop :=
  ∃ text, read_text data = Some text ∧ ET_fromstring text = None.

(** A document none of whose inline payloads is over the budget. *)
Definition document_within `{Base64, ElementTree, TextIO}
    (self : HWPXImageCompressorAdvanced) (data : bytes) : Prop :=
  ∀ text root, read_text data = Some text → ET_fromstring text = Some root →
    Forall (λ v, over_budget self v = false) (attr_values "bin" root).

(** A document the XML pass leaves alone: read as text, it comes back from
    the scan with a count of zero. *)
Definition document_settled `{Pillow, Base64, ElementTree, TextIO}
    (self : HWPXImageCompressorAdvanced) (data : bytes) : Prop :=
  ∀ text file_path, read_text data = Some text →
    (process_xml_images self text file_path).1.1.2 = 0.

(** What a run needs for its output to be settled: [compress_image]
    brings an asset over the budget within the budget, and likewise the
    bytes of every inline payload over the budget in a document the scan
    reaches. *)
Definition asset_settles `{Pillow} (self : HWPXImageCompressorAdvanced)
    (data : bytes) : Prop :=
  target_size_bytes self < len data →
  ∃ out tag, compress_image self data = Ok (out, tag) ∧ len out ≤ target_size_bytes self.

Definition payload_settles `{Pillow, Base64} (self : HWPXImageCompressorAdvanced)
    (v : option string) : Prop :=
  over_budget self v = true →
  ∃ image_data out tag,
    v ≫= b64decode = Some image_data
    ∧ compress_image self image_data = Ok (out, tag)
    ∧ len out ≤ target_size_bytes self.

Definition document_settles `{Pillow, Base64, ElementTree, TextIO}
    (self : HWPXImageCompressorAdvanced) (data : bytes) : Prop :=
  ∀ text root, read_text data = Some text → ET_fromstring text = Some root →
    ET_start_ns text = [] →
    Forall (payload_settles self) (attr_values "bin" root).

(** A scratch tree as extraction builds it: every entry has a non-empty
    path of valid components, and sits in a directory of the tree. *)
Definition wf_tree (t : tree) : Prop :=
  ∀ p n, t !! p = Some n →
    p ≠ [] ∧ sanitize p = p ∧ lookup_node t (dirname p) = Some Dir.

(** The file members of an archive, and its image assets. *)
Definition is_file_member (m : ZipInfo) : bool := negb (is_dir m).

Definition is_image_member (m : ZipInfo) : bool :=
  negb (is_dir m)
  && match filename m with
     | [d; f] => bool_decide (d = "BinData") && is_image_name f
     | _ => false
     end.

(** Its XML documents. *)
Definition is_document_member (m : ZipInfo) : bool :=
  negb (is_dir m)
  && match filename m with
     | [d; f] => bool_decide (d = "Contents") && endswith f ".xml"
     | _ => false
     end.

(** The sum of a list of integers. *)
Definition total (l : list Z) : Z := foldr Z.add 0 l.

(** The number of bytes an inline payload decodes to (0 when it does not
    decode, or is absent). *)
Definition decoded_size `{Base64} (v : option string) : Z :=
  match v ≫= b64decode with
  | Some image_data => len image_data
  | None => 0
  end.

(** What the first loop of the scan leaves in a [bin] attribute holding
    [v]. *)
Definition rewritten_payload `{Pillow, Base64} (self : HWPXImageCompressorAdvanced)
    (v : option string) : option string :=
  if over_budget self v then
    match v ≫= b64decode with
    | Some image_data =>
        match compress_image self image_data with
        | Ok r => Some (b64encode r.1)
        | Raise _ => v
        end
    | None => v
    end
  else v.

(** An inline payload the scan rewrites and counts: one over the budget
    whose bytes [compress_image] returns on. *)
Definition compressed_payload `{Pillow, Base64} (self : HWPXImageCompressorAdvanced)
    (v : option string) : bool :=
  over_budget self v
  && match v ≫= b64decode with
     | Some image_data =>
         match compress_image self image_data with Ok _ => true | Raise _ => false end
     | None => false
     end.

(** The size of the file at a path of the scratch directory (0 where there
    is no file). *)
Definition file_size (t : tree) (p : path) : Z :=
  match t !! p with
  | Some (File data) => len data
  | _ => 0
  end.

(** Whether a computation returns. *)
Definition is_returned {A} (r : result A) : bool :=
  match r with Ok _ => true | Raise _ => false end.

(** A file the asset loop counts as compressed: one over the budget on
    which the turn gets to its end (a file within the budget is skipped; a
    turn that raises, in [compress_image] or in the division by the size of
    an empty file, counts the file as neither). *)
Definition compressed_asset `{Pillow} (self : HWPXImageCompressorAdvanced) (t : tree)
    (p : path) : bool :=
  match t !! p with
  | Some (File data) =>
      (target_size_bytes self <? len data) && negb (len data =? 0)
      && is_returned (compress_image self data)
  | _ => false
  end.

(** The scale factors the loop visits, each with the number of tenths it
    stands for. *)
Definition scale_tenths : list (float * Z) := zip scale_levels [9; 8; 7; 6; 5; 4; 3].

(** A bounded check, from [n] upwards, that scaling by each factor and
    truncating gives that many tenths, rounded down. *)
Fixpoint tenths_from (fuel : nat) (n : Z) : bool :=
  match fuel with
  | O => true
  | S fuel =>
      forallb (λ sk : float * Z, int_of_float (float_of_int n * sk.1) =? sk.2 * n / 10)
              scale_tenths
      && tenths_from fuel (n + 1)
  end.

(** A check of the progress percentages of a loop over [n] items. *)
Definition progress_ok (n : Z) : bool :=
  forallb (λ idx, (0 <=? asset_progress idx n) && (asset_progress idx n <=? 99)
                  && (80 <=? xml_progress idx n) && (xml_progress idx n <=? 94))
          (seqZ 0 n)
  && (xml_progress 0 n =? 80)
  && ((n <? 6) || (80 <? asset_progress (n - 1) n)).

(** ** Small implementations of the libraries, to run the model

    A toy picture is a marker byte, one or two bytes giving its sides, and
    padding.  Its JPEG encoding at quality [q] is the marker ["I"], a side
    byte and [width * height * q / 1000] further bytes. *)
Module Toy.

(** A toy image has a width, a height and a mode; a truncated one has a
    header that reads and pixels that do not decode. *)
Record toy_image := {
  toy_width : Z;
  toy_height : Z;
  toy_mode : string;
  toy_truncated : bool
}.

Definition byte_of_Z (n : Z) : Byte.byte := default Byte.x00 (Byte.of_N (Z.to_N n)).
Definition Z_of_byte (b : Byte.byte) : Z := Z.of_N (Byte.to_N b).

(** The opened RGB image of a given width and height. *)
Definition toy_rgb (w h : Z) (truncated : bool) : toy_image :=
  {| toy_width := w; toy_height := h; toy_mode := "RGB"; toy_truncated := truncated |}.

(** ["I" k] opens as a square picture of side [10 * k], ["T" k] as a
    truncated one, ["N" w h] as a picture [w] wide and [1000 * h] high. *)
Definition toy_open (data : bytes) : option toy_image :=
  match data with
  | Byte.x49 :: k :: _ => Some (toy_rgb (10 * Z_of_byte k) (10 * Z_of_byte k) false)
  | Byte.x54 :: k :: _ => Some (toy_rgb (10 * Z_of_byte k) (10 * Z_of_byte k) true)
  | Byte.x4e :: w :: h :: _ => Some (toy_rgb (Z_of_byte w) (1000 * Z_of_byte h) false)
  | _ => None
  end.

(** Decoding the pixels, as every method does first. *)
Definition toy_load (img : toy_image) : result () :=
  if toy_truncated img then Raise OSError else Ok ().

(** The encoding at quality [q] takes [width * height * q / 1000] bytes
    after the marker and the side; a side over 65500 is refused. *)
Definition toy_encoding (w h quality : Z) : bytes :=
  Byte.x49 :: byte_of_Z (w / 10) :: repeat Byte.x00 (Z.to_nat (w * h * quality / 1000)).

Definition toy_save (img : toy_image) (quality : Z) : result bytes :=
  _ ← toy_load img;
  if (65500 <? toy_width img) || (65500 <? toy_height img) then Raise OSError
  else Ok (toy_encoding (toy_width img) (toy_height img) quality).

(** A size with a side of zero is refused, as Pillow does. *)
Definition toy_resize (img : toy_image) (sz : Z * Z) : result toy_image :=
  _ ← toy_load img;
  if (sz.1 <=? 0) || (sz.2 <=? 0) then Raise ValueError
  else Ok {| toy_width := sz.1; toy_height := sz.2; toy_mode := toy_mode img;
             toy_truncated := false |}.

#[export] Instance pillow : Pillow := {|
  Image := toy_image;
  Image_open := toy_open;
  Image_new := λ m sz _,
    Ok {| toy_width := sz.1; toy_height := sz.2; toy_mode := m; toy_truncated := false |};
  mode := toy_mode;
  width := toy_width;
  height := toy_height;
  convert := λ img m,
    _ ← toy_load img;
    Ok {| toy_width := toy_width img; toy_height := toy_height img; toy_mode := m;
          toy_truncated := false |};
  last_band := λ img,
    _ ← toy_load img;
    Ok {| toy_width := toy_width img; toy_height := toy_height img; toy_mode := "L";
          toy_truncated := false |};
  paste := λ background img mask,
    _ ← toy_load img;
    Ok {| toy_width := toy_width background; toy_height := toy_height background;
          toy_mode := toy_mode background; toy_truncated := false |};
  resize := toy_resize;
  save_jpeg := toy_save
|}.

(** base64 as the identity between byte strings and strings. *)
#[export] Instance base64 : Base64 := {|
  b64decode := λ s, Some (String.list_byte_of_string s);
  b64encode := String.string_of_list_byte
|}.

(** A toy document: ["!"] starts one that does not parse, ["@"] one that
    declares a namespace; after the first character comes the payload of the
    single picture element.  A tree of that shape is written as ["#"] and
    the payload, any other tree as a text that does not parse. *)
#[export] Instance element_tree : ElementTree := {|
  ET_fromstring := λ s,
    match s with
    | String "!" _ => None
    | String _ payload =>
        Some (Elem "sec" {[ "fillImagePath" := "BinData/image1.png" ]} None None
                [Elem "pic" {[ "bin" := payload ]} None None []])
    | EmptyString => None
    end;
  ET_start_ns := λ s,
    match s with
    | String "@" _ => [("hp", "urn:hp")]
    | _ => []
    end;
  ET_tostring := λ e,
    match e with
    | Elem _ outer _ _ [Elem _ inner _ _ []] =>
        match outer !! "bin", inner !! "bin" with
        | None, Some payload => String.list_byte_of_string (String "#" payload)
        | _, _ => [Byte.x21]
        end
    | _ => [Byte.x21]
    end
|}.

#[export] Instance text_io : TextIO := {|
  read_text := λ b, Some (String.string_of_list_byte b);
  write_text := String.list_byte_of_string;
  decode_utf8 := λ b, Some (String.string_of_list_byte b)
|}.

(** The opened RGB image of a given side. *)
Definition rgb (side : Z) : Image := toy_rgb side side false.

(** A picture of side [10 * k], padded to [n] bytes. *)
Definition picture (k : Z) (n : nat) : bytes :=
  Byte.x49 :: byte_of_Z k :: repeat Byte.x00 (n - 2).

(** A truncated picture of side [10 * k], in [n] bytes. *)
Definition truncated_picture (k : Z) (n : nat) : bytes :=
  Byte.x54 :: byte_of_Z k :: repeat Byte.x00 (n - 2).

(** A picture 3 pixels wide and 60000 high, in 1100 bytes, and the image it
    opens as. *)
Definition narrow_picture : bytes :=
  Byte.x4e :: byte_of_Z 3 :: byte_of_Z 60 :: repeat Byte.x00 1097.
Definition narrow : Image := toy_rgb 3 60000 false.

(** A compressor with a budget of 1 KB. *)
Definition one_kb : HWPXImageCompressorAdvanced := new_compressor 1.

(** A file system: its scratch directory is ["temp_hwpx_processing/"], and
    nothing can be written in ["no/such/dir/"]. *)
Definition toy_world (archives : gmap string archive) (scratch : occupant) : world :=
  {| zips := archives;
     temp_dir := scratch;
     scratch_subdir := λ d, bool_decide (d = "temp_hwpx_processing/");
     write_error := λ p,
       if bool_decide (directory p = "no/such/dir/") then Some FileNotFoundError else None |}.

(** A document archive: a directory entry, the mimetype, two images (one
    too large at every setting of the codec, one within the budget), a file
    that is no image, and three documents (one with a large inline picture,
    one that does not parse, one that declares a namespace). *)
Definition demo_archive : archive :=
  [ {| filename := ["BinData"]; is_dir := true; content := [] |};
    {| filename := ["mimetype"]; is_dir := false; content := [Byte.x61] |};
    {| filename := ["BinData"; "image1.PNG"]; is_dir := false; content := picture 44 1100 |};
    {| filename := ["BinData"; "image2.jpg"]; is_dir := false; content := picture 10 500 |};
    {| filename := ["BinData"; "notes.txt"]; is_dir := false; content := picture 10 1200 |};
    {| filename := ["Contents"; "section0.xml"]; is_dir := false;
       content := Byte.x23 :: picture 30 1100 |};
    {| filename := ["Contents"; "section1.xml"]; is_dir := false;
       content := Byte.x21 :: picture 30 1100 |};
    {| filename := ["Contents"; "header.xml"]; is_dir := false;
       content := Byte.x40 :: picture 30 1100 |} ].

(** The file system before the run: the archive, and a scratch directory
    left over from an earlier run. *)
Definition demo_world : world :=
  toy_world {[ "doc.hwpx" := demo_archive ]} (Directory {[ ["stale"] := File [Byte.x00] ]}).

(** The archive unpacked. *)
Definition demo_tree : tree :=
  match extractall demo_archive ∅ with
  | Ok t => t
  | Raise _ => ∅
  end.

(** The document that does not parse, the one that declares a namespace and
    the one with the large inline picture, as bytes and as text. *)
Definition bad_document : bytes := Byte.x21 :: picture 30 1100.
Definition bad_text : string := String.string_of_list_byte bad_document.
Definition ns_document : bytes := Byte.x40 :: picture 30 1100.
Definition ns_text : string := String.string_of_list_byte ns_document.
Definition pic_text : string := String.string_of_list_byte (Byte.x23 :: picture 30 1100).
Definition pic_root : Element :=
  Elem "sec" {[ "fillImagePath" := "BinData/image1.png" ]} None None
    [Elem "pic" {[ "bin" := String.string_of_list_byte (picture 30 1100) ]} None None []].

(** An archive whose images are all within the budget. *)
Definition small_archive : archive :=
  [ {| filename := ["mimetype"]; is_dir := false; content := [Byte.x61] |};
    {| filename := ["BinData"; "image2.jpg"]; is_dir := false; content := picture 10 500 |};
    {| filename := ["Contents"; "section0.xml"]; is_dir := false;
       content := Byte.x23 :: picture 5 50 |};
    {| filename := ["Contents"; "section1.xml"]; is_dir := false;
       content := Byte.x21 :: picture 30 1100 |} ].

(** An archive whose large image and large inline picture the codec brings
    within the budget. *)
Definition fit_archive : archive :=
  [ {| filename := ["mimetype"]; is_dir := false; content := [Byte.x61] |};
    {| filename := ["BinData"; "image1.png"]; is_dir := false; content := picture 30 1100 |};
    {| filename := ["BinData"; "image2.jpg"]; is_dir := false; content := picture 10 500 |};
    {| filename := ["Contents"; "section0.xml"]; is_dir := false;
       content := Byte.x23 :: picture 30 1100 |};
    {| filename := ["Contents"; "section1.xml"]; is_dir := false;
       content := Byte.x21 :: picture 30 1100 |};
    {| filename := ["Contents"; "header.xml"]; is_dir := false;
       content := Byte.x40 :: picture 30 1100 |} ].

Definition fit_world : world := toy_world {[ "fit.hwpx" := fit_archive ]} Absent.

(** [small_archive] unpacked. *)
Definition small_tree : tree :=
  match extractall small_archive ∅ with
  | Ok t => t
  | Raise _ => ∅
  end.

(** A scratch tree with three image assets: one the codec brings within
    the budget, one within the budget already, and one that is truncated. *)
Definition mixed_tree : tree :=
  {[ ["BinData"] := Dir;
     ["BinData"; "a.png"] := File (picture 30 1100);
     ["BinData"; "b.png"] := File (picture 10 500);
     ["BinData"; "c.png"] := File (truncated_picture 30 1100) ]}.

Definition fit_tree : tree :=
  match extractall fit_archive ∅ with
  | Ok t => t
  | Raise _ => ∅
  end.

(** The run on [demo_world], and the run on its output. *)
Definition demo_run : world * result reply :=
  process_hwpx one_kb "doc.hwpx" None demo_world.

Definition demo_stats : RunStatistics :=
  {| stat_compressed := 1; stat_skipped := 1; stat_xml_compressed := 1;
     total_all_compressed := 2; total_all_original := 2700;
     total_all_compressed_size := 2449; stat_output_path := "doc_compressed.hwpx" |}.

Definition demo_output : archive :=
  default [] (zips demo_run.1 !! "doc_compressed.hwpx").

Definition demo_rerun : world * result reply :=
  process_hwpx one_kb "doc_compressed.hwpx" None demo_run.1.

(** What the asset pass makes of the unpacked archive. *)
Definition demo_after_assets : tree * asset_totals :=
  match process_bindata one_kb demo_tree with
  | Ok r => r
  | Raise _ => (∅, asset_zero)
  end.

(** What the asset pass makes of [mixed_tree]. *)
Definition mixed_after : tree * asset_totals :=
  match process_bindata one_kb mixed_tree with
  | Ok r => r
  | Raise _ => (∅, asset_zero)
  end.

(** The run on [fit_world]. *)
Definition fit_run : world * result reply :=
  process_hwpx one_kb "fit.hwpx" None fit_world.

Definition fit_stats : RunStatistics :=
  {| stat_compressed := 1; stat_skipped := 1; stat_xml_compressed := 1;
     total_all_compressed := 2; total_all_original := 2700;
     total_all_compressed_size := 2304; stat_output_path := "fit_compressed.hwpx" |}.

(** The desktop: dropped data is a list of paths separated by spaces, and a
    path exists when it holds an archive. *)
Fixpoint split_spaces (cs cur : list Ascii.ascii) : list string :=
  match cs with
  | [] => [String.string_of_list_ascii (reverse cur)]
  | c :: cs =>
      if bool_decide (c = " "%char)
      then String.string_of_list_ascii (reverse cur) :: split_spaces cs []
      else split_spaces cs (c :: cur)
  end.

#[export] Instance desktop : Desktop := {|
  splitlist := λ data, split_spaces (chars data) [];
  os_path_exists := λ w item, bool_decide (is_Some (zips w !! item))
|}.

(** An archive whose [BinData] is a file, and what unpacking makes of it. *)
Definition broken_archive : archive :=
  [ {| filename := ["BinData"]; is_dir := false; content := [Byte.x61] |} ].

Definition broken_tree : tree := {[ ["BinData"] := File [Byte.x61] ]}.

(** A file system with three archives, one under an upper-case extension,
    and nothing at the scratch path. *)
Definition desk_world : world :=
  toy_world {[ "small.hwpx" := small_archive; "REPORT.HWPX" := small_archive;
               "broken.hwpx" := broken_archive ]} Absent.

(** The same with a regular file at the scratch path. *)
Definition blocked_world : world :=
  toy_world (zips desk_world) (RegularFile [Byte.x00]).

(** A file system with an archive left in the scratch directory. *)
Definition nested_world : world :=
  toy_world {[ "small.hwpx" := small_archive;
               "temp_hwpx_processing/old.hwpx" := small_archive ]}
            (Directory {[ ["old.hwpx"] := File [Byte.x00] ]}).

(** A compressor with a budget of 2 KB, and one with a negative budget. *)
Definition two_kb : HWPXImageCompressorAdvanced := new_compressor 2.
Definition below_zero : HWPXImageCompressorAdvanced := new_compressor (-1).

(** Bytes that are no picture, as an inline payload. *)
Definition no_picture : bytes := repeat Byte.x00 1100.
Definition no_picture_text : string := String.string_of_list_byte no_picture.

(** The member of [demo_archive] that is no image, though it lies in
    [BinData]. *)
Definition notes_member : ZipInfo :=
  {| filename := ["BinData"; "notes.txt"]; is_dir := false; content := picture 10 1200 |}.

(** A palette image of side 300. *)
Definition palette : Image :=
  {| toy_width := 300; toy_height := 300; toy_mode := "P"; toy_truncated := false |}.

(** The document with the large inline picture, and its text once the
    picture is compressed. *)
Definition pic_document : bytes := Byte.x23 :: picture 30 1100.
Definition rewritten_text : string :=
  default "" (decode_utf8 (ET_tostring (scan_bin one_kb pic_root scan_zero).1)).

(** A document whose inline picture is truncated, as text and as a tree. *)
Definition truncated_text : string :=
  String.string_of_list_byte (Byte.x23 :: truncated_picture 30 1100).
Definition truncated_root : Element :=
  Elem "sec" {[ "fillImagePath" := "BinData/image1.png" ]} None None
    [Elem "pic" {[ "bin" := String.string_of_list_byte (truncated_picture 30 1100) ]}
       None None []].

End Toy.

(** * Proofs *)

(** ** The codec *)

Lemma bind_Ok {A B} (a : A) (f : A → result B) : Ok a ≫= f = f a.
Proof. reflexivity. Qed.

Lemma bind_Raise {A B} (e : exn) (f : A → result B) : Raise e ≫= f = Raise e.
Proof. reflexivity. Qed.

(** A bind that returns: both halves returned. *)
Lemma bind_Ok_inv {A B} (m : result A) (f : A → result B) (b : B) :
  m ≫= f = Ok b → ∃ a, m = Ok a ∧ f a = Ok b.
Proof. destruct m as [a|e]; [eauto|done]. Qed.

Lemma bind_assoc {A B C} (m : result A) (f : A → result B) (g : B → result C) :
  (m ≫= f) ≫= g = m ≫= (λ a, f a ≫= g).
Proof. by destruct m. Qed.

(** ** Searching a list of levels *)

Section first_fit_facts.
Context {A : Type}.
Implicit Types (self : HWPXImageCompressorAdvanced) (enc : A → result bytes).

Lemma first_fit_cons self enc a levels :
  first_fit self enc (a :: levels) =
    output ← enc a;
    if fits self output then Ok (Some (a, output)) else first_fit self enc levels.
Proof. reflexivity. Qed.

Lemma fits_le self output : fits self output = true ↔ len output ≤ target_size_bytes self.
Proof. apply Z.leb_le. Qed.

Lemma fits_gt self output : fits self output = false ↔ target_size_bytes self < len output.
Proof. apply Z.leb_gt. Qed.

(** Past a run of levels whose encodings are over the budget, the search
    goes on with the rest. *)
Lemma first_fit_skip self enc pre levels :
  (∀ x, x ∈ pre → over self (enc x)) →
  first_fit self enc (pre ++ levels) = first_fit self enc levels.
Proof.
  intros Hpre. induction pre as [|y pre IH]; [done|].
  cbn [app]. rewrite first_fit_cons.
  destruct (Hpre y) as (out & -> & Hgt); [by left|].
  rewrite bind_Ok. apply fits_gt in Hgt as ->.
  apply IH. intros x Hx. apply Hpre. by right.
Qed.

(** The search finds a level exactly when that level's encoding fits and
    those of the levels before it returned and are over the budget. *)
Lemma first_fit_Some self enc levels a out :
  first_fit self enc levels = Ok (Some (a, out)) ↔
  ∃ pre post, levels = pre ++ a :: post
    ∧ (∀ x, x ∈ pre → over self (enc x))
    ∧ enc a = Ok out ∧ len out ≤ target_size_bytes self.
Proof.
  split.
  - induction levels as [|y levels IH]; [done|].
    rewrite first_fit_cons. destruct (enc y) as [o|e] eqn:Hy; [|done].
    rewrite bind_Ok. destruct (fits self o) eqn:Hfit.
    + intros [= -> ->]. exists [], levels. split_and!; [done| |done|by apply fits_le].
      by intros x Hx%elem_of_nil.
    + intros (pre & post & -> & Hpre & Ha & Hle)%IH.
      exists (y :: pre), post. split_and!; [done| |done|done].
      intros x [->|Hx]%elem_of_cons; [|by apply Hpre].
      exists o. split; [done|]. by apply fits_gt.
  - intros (pre & post & -> & Hpre & Ha & Hle).
    rewrite first_fit_skip by done. rewrite first_fit_cons, Ha, bind_Ok.
    by apply fits_le in Hle as ->.
Qed.

(** It finds none exactly when every encoding returned and is over the
    budget. *)
Lemma first_fit_None self enc levels :
  first_fit self enc levels = Ok None ↔ ∀ x, x ∈ levels → over self (enc x).
Proof.
  split.
  - induction levels as [|y levels IH]; [by intros _ x Hx%elem_of_nil|].
    rewrite first_fit_cons. destruct (enc y) as [o|e] eqn:Hy; [|done].
    rewrite bind_Ok. destruct (fits self o) eqn:Hfit; [done|].
    intros Hrest x [->|Hx]%elem_of_cons; [|by apply IH].
    exists o. split; [done|]. by apply fits_gt.
  - intros Hall. rewrite <- (app_nil_r levels). by rewrite first_fit_skip.
Qed.

(** It raises exactly when an encoding raises before any fits. *)
Lemma first_fit_Raise self enc levels e :
  first_fit self enc levels = Raise e ↔
  ∃ pre a post, levels = pre ++ a :: post
    ∧ (∀ x, x ∈ pre → over self (enc x)) ∧ enc a = Raise e.
Proof.
  split.
  - induction levels as [|y levels IH]; [done|].
    rewrite first_fit_cons. destruct (enc y) as [o|e'] eqn:Hy.
    + rewrite bind_Ok. destruct (fits self o) eqn:Hfit; [done|].
      intros (pre & a & post & -> & Hpre & Ha)%IH.
      exists (y :: pre), a, post. split_and!; [done| |done].
      intros x [->|Hx]%elem_of_cons; [|by apply Hpre].
      exists o. split; [done|]. by apply fits_gt.
    + intros [= ->]. exists [], y, levels. split_and!; [done| |done].
      by intros x Hx%elem_of_nil.
  - intros (pre & a & post & -> & Hpre & Ha).
    rewrite first_fit_skip by done. by rewrite first_fit_cons, Ha.
Qed.

(** It returns when every encoding does. *)
Lemma first_fit_returns self enc levels :
  (∀ x, x ∈ levels → returns (enc x)) → returns (first_fit self enc levels).
Proof.
  induction levels as [|y levels IH]; intros Hall; [by eexists|].
  rewrite first_fit_cons. destruct (Hall y) as (o & ->); [by left|].
  rewrite bind_Ok. destruct (fits self o); [by eexists|].
  apply IH. intros x Hx. apply Hall. by right.
Qed.

(** It reads nothing of the compressor but its byte budget. *)
Lemma first_fit_budget self self' enc levels :
  target_size_bytes self' = target_size_bytes self →
  first_fit self' enc levels = first_fit self enc levels.
Proof.
  intros Hb. induction levels as [|y levels IH]; [done|].
  rewrite !first_fit_cons. destruct (enc y) as [o|e]; [|done].
  rewrite !bind_Ok. unfold fits. by rewrite Hb, IH.
Qed.
End first_fit_facts.

(** With a larger budget the search stops no later. *)
Lemma first_fit_weaken self self' (enc : Z → result bytes) (levels : list Z) q out :
  target_size_bytes self ≤ target_size_bytes self' →
  StronglySorted (λ x y, y ≤ x) levels →
  first_fit self enc levels = Ok (Some (q, out)) →
  ∃ q' out', first_fit self' enc levels = Ok (Some (q', out')) ∧ q ≤ q'.
Proof.
  intros Hle. induction 1 as [|x l Hl IH Hx]; [done|].
  rewrite !first_fit_cons. destruct (enc x) as [o|e] eqn:Ho; [|done].
  rewrite !bind_Ok. destruct (fits self' o) eqn:Hfit'.
  - intros Hfind. exists x, o. split; [done|].
    destruct (fits self o); [by injection Hfind as -> _|].
    apply first_fit_Some in Hfind as (pre & post & -> & _).
    apply (proj1 (Forall_forall _ _) Hx). apply elem_of_app. right. by left.
  - destruct (fits self o) eqn:Hfit; [|exact IH].
    apply fits_le in Hfit. apply fits_gt in Hfit'. lia.
Qed.

Section codec_facts.
Context `{Pillow}.
Implicit Types (self : HWPXImageCompressorAdvanced) (img : Image).

Lemma quality_search_step self fuel img quality :
  quality_search self (S fuel) img quality =
    if 5 <? quality then
      output ← save_jpeg img quality;
      if fits self output then Ok (Returned (output, "jpg"))
      else quality_search self fuel img (quality - 5)
    else Ok (Exhausted quality).
Proof. reflexivity. Qed.

Lemma scale_search_step self fuel img scale resized :
  scale_search self (S fuel) img scale resized =
    if (0.3 <? scale)%float then
      resized ← candidate img scale;
      output ← save_jpeg resized 85;
      if fits self output then Ok (Returned (output, "jpg"))
      else scale_search self fuel img (scale - 0.1)%float (Some resized)
    else Ok (Exhausted (scale, resized)).
Proof. reflexivity. Qed.

(** The quality loop never runs out of fuel: given fuel above the level it
    starts from, how much there is makes no difference. *)
Lemma quality_search_fuel self img fuel fuel' quality :
  (Z.to_nat quality < fuel)%nat → (Z.to_nat quality < fuel')%nat →
  quality_search self fuel img quality = quality_search self fuel' img quality.
Proof.
  revert fuel' quality. induction fuel as [|fuel IH]; intros fuel' quality Hq Hq'; [lia|].
  destruct fuel' as [|fuel']; [lia|].
  rewrite !quality_search_step.
  destruct (Z.ltb_spec 5 quality); [|done].
  destruct (save_jpeg img quality) as [out|e]; [|done].
  rewrite !bind_Ok. destruct (fits self out); [done|].
  apply IH; lia.
Qed.

(** The loops read nothing of the compressor but its byte budget. *)
Lemma quality_search_budget self self' fuel img quality :
  target_size_bytes self' = target_size_bytes self →
  quality_search self' fuel img quality = quality_search self fuel img quality.
Proof.
  intros Hb. revert quality. induction fuel as [|fuel IH]; intros quality; [done|].
  rewrite !quality_search_step. unfold fits. rewrite Hb.
  destruct (5 <? quality); [|done].
  destruct (save_jpeg img quality) as [out|e]; [|done].
  rewrite !bind_Ok. destruct (_ <=? _); [done|]. apply IH.
Qed.

Lemma scale_search_budget self self' fuel img scale resized :
  target_size_bytes self' = target_size_bytes self →
  scale_search self' fuel img scale resized = scale_search self fuel img scale resized.
Proof.
  intros Hb. revert scale resized.
  induction fuel as [|fuel IH]; intros scale resized; [done|].
  rewrite !scale_search_step. unfold fits. rewrite Hb.
  destruct (0.3 <? scale)%float; [|done].
  destruct (candidate img scale) as [r|e]; [|done]. rewrite !bind_Ok.
  destruct (save_jpeg r 85) as [out|e]; [|done]. rewrite !bind_Ok.
  destruct (_ <=? _); [done|]. apply IH.
Qed.

Lemma compress_image_budget self self' data :
  target_size_bytes self' = target_size_bytes self →
  compress_image self' data = compress_image self data.
Proof.
  intros Hb. unfold compress_image.
  destruct (Image_open data) as [img0|]; [|reflexivity].
  destruct (normalize img0) as [img|e]; [|by rewrite !bind_Raise]. rewrite !bind_Ok.
  rewrite (quality_search_budget self self') by done.
  destruct (quality_search self quality_fuel img 95) as [[r|q]|e];
    rewrite ?bind_Ok, ?bind_Raise; [reflexivity| |reflexivity].
  by rewrite (scale_search_budget self self').
Qed.

(** The quality loop as a search: the first level of [quality_levels] whose
    encoding fits, and level 5 left behind when none does. *)
Lemma quality_search_find self img :
  quality_search self quality_fuel img 95 =
    hit ← first_fit self (save_jpeg img) quality_levels;
    Ok (match hit with
        | Some (_, output) => Returned (output, "jpg")
        | None => Exhausted 5
        end).
Proof.
  unfold quality_fuel, quality_levels.
  repeat (rewrite quality_search_step, first_fit_cons;
          match goal with |- context [5 <? ?q] => change (5 <? q) with true end;
          cbv iota;
          match goal with |- context [save_jpeg img ?q] =>
            destruct (save_jpeg img q) as [?|?]; [|reflexivity] end;
          rewrite !bind_Ok;
          match goal with |- context [fits self ?o] =>
            destruct (fits self o); [reflexivity|] end;
          match goal with |- context [?q - 5] =>
            let q' := eval vm_compute in (q - 5) in change (q - 5) with q' end).
  rewrite quality_search_step. reflexivity.
Qed.

(** The scale loop as a search over [scale_levels]; when no level fits, the
    loop leaves the candidate of the smallest scale behind. *)
Lemma scale_search_find self img :
  scale_search self scale_fuel img 0.9 None =
    hit ← first_fit self (candidate_encoding img 85) scale_levels;
    match hit with
    | Some (_, output) => Ok (Returned (output, "jpg"))
    | None =>
        resized ← candidate img min_scale;
        Ok (Exhausted ((min_scale - 0.1)%float, Some resized))
    end.
Proof.
  unfold scale_fuel, scale_levels, min_scale, candidate_encoding.
  repeat (rewrite scale_search_step, first_fit_cons;
          match goal with
          | |- context [(0.3 <? ?s)%float] =>
              let b := eval vm_compute in (0.3 <? s)%float in
              change (0.3 <? s)%float with b
          end;
          cbv iota;
          match goal with |- context [candidate img ?s ≫= _] =>
            destruct (candidate img s) as [?|?] eqn:?; [|reflexivity] end;
          rewrite !bind_Ok;
          match goal with |- context [save_jpeg ?r 85] =>
            destruct (save_jpeg r 85) as [?|?]; [|reflexivity] end;
          rewrite !bind_Ok;
          match goal with |- context [fits self ?o] =>
            destruct (fits self o); [reflexivity|] end).
  rewrite scale_search_step.
  match goal with
  | |- context [(0.3 <? ?s)%float] => change (0.3 <? s)%float with false
  end.
  reflexivity.
Qed.

(** The scale loop never runs out of fuel either: from 0.9 it stops within
    eight tests of its condition, whatever the fuel beyond that. *)
Lemma scale_search_fuel self img fuel :
  (8 ≤ fuel)%nat →
  scale_search self fuel img 0.9 None = scale_search self scale_fuel img 0.9 None.
Proof.
  intros Hf. do 8 (destruct fuel as [|fuel]; [lia|]). clear Hf. unfold scale_fuel.
  repeat (rewrite !scale_search_step;
          match goal with
          | |- context [(0.3 <? ?s)%float] =>
              let b := eval vm_compute in (0.3 <? s)%float in
              change (0.3 <? s)%float with b
          end;
          cbv iota;
          try (match goal with |- context [candidate img ?s ≫= _] =>
                 destruct (candidate img s) as [?|?]; [|reflexivity] end;
               rewrite !bind_Ok;
               match goal with |- context [save_jpeg ?r 85] =>
                 destruct (save_jpeg r 85) as [?|?]; [|reflexivity] end;
               rewrite !bind_Ok;
               match goal with |- context [fits self ?o] =>
                 destruct (fits self o); [reflexivity|] end)).
  reflexivity.
Qed.

(** [compress_image] on an input that opens, in closed form: the
    normalisation, then the first quality level that fits, else the first
    scale level that fits, else the fall-back encoding; the first call into
    Pillow that raises ends it. *)
Lemma compress_image_decoded self data img0 :
  Image_open data = Some img0 →
  compress_image self data =
    img ← normalize img0;
    hit ← first_fit self (save_jpeg img) quality_levels;
    match hit with
    | Some (_, output) => Ok (output, "jpg")
    | None =>
        hit ← first_fit self (candidate_encoding img 85) scale_levels;
        match hit with
        | Some (_, output) => Ok (output, "jpg")
        | None => output ← fallback_encoding img; Ok (output, "jpg")
        end
    end.
Proof.
  intros Hopen. unfold compress_image. rewrite Hopen.
  destruct (normalize img0) as [img|e]; [|done]. rewrite !bind_Ok.
  rewrite quality_search_find.
  destruct (first_fit self (save_jpeg img) quality_levels) as [[[q out]|]|e];
    rewrite ?bind_Ok, ?bind_Raise; [reflexivity| |reflexivity].
  rewrite scale_search_find.
  destruct (first_fit self (candidate_encoding img 85) scale_levels) as [[[s out]|]|e];
    rewrite ?bind_Ok, ?bind_Raise; [reflexivity| |reflexivity].
  unfold fallback_encoding, candidate_encoding.
  destruct (candidate img min_scale) as [r|e]; [|done].
  rewrite !bind_Ok. cbn [or_raise]. by rewrite bind_Ok.
Qed.

(** What [compress_image] returns on an input that opens is tagged as a
    JPEG, and is an output of the encoder. *)
Lemma compress_image_is_jpeg self data img0 out tag :
  Image_open data = Some img0 →
  compress_image self data = Ok (out, tag) →
  tag = "jpg" ∧ ∃ img quality, save_jpeg img quality = Ok out.
Proof.
  intros Hopen. rewrite (compress_image_decoded _ _ _ Hopen).
  intros (img & Hnorm & Hrun)%bind_Ok_inv.
  apply bind_Ok_inv in Hrun as ([[q o]|] & Hq & Hrun).
  { injection Hrun as -> <-. split; [done|].
    apply first_fit_Some in Hq as (_ & _ & _ & _ & Hq & _). eauto. }
  apply bind_Ok_inv in Hrun as ([[s o]|] & Hs & Hrun).
  { injection Hrun as -> <-. split; [done|].
    apply first_fit_Some in Hs as (_ & _ & _ & _ & Hs & _).
    apply bind_Ok_inv in Hs as (r & _ & Hs). eauto. }
  apply bind_Ok_inv in Hrun as (o & Hf & Hrun). injection Hrun as -> <-.
  split; [done|]. apply bind_Ok_inv in Hf as (r & _ & Hf). eauto.
Qed.

(** It returns when every call into Pillow does. *)
Lemma compress_image_returns self data :
  (∀ img0, Image_open data = Some img0 → codec_returns img0) →
  ∃ out tag, compress_image self data = Ok (out, tag).
Proof.
  intros Hcodec. destruct (Image_open data) as [img0|] eqn:Hopen.
  - destruct (Hcodec img0 eq_refl) as (img & Hnorm & Hq & Hs & (o & Hf)).
    rewrite (compress_image_decoded _ _ _ Hopen), Hnorm, bind_Ok.
    destruct (first_fit_returns self (save_jpeg img) quality_levels Hq) as (hq & ->).
    rewrite bind_Ok. destruct hq as [[q out]|]; [eauto|].
    destruct (first_fit_returns self (candidate_encoding img 85) scale_levels Hs) as (hs & ->).
    rewrite bind_Ok. destruct hs as [[s out]|]; [eauto|].
    rewrite Hf, bind_Ok. eauto.
  - unfold compress_image. rewrite Hopen. eauto.
Qed.
End codec_facts.

(** The smallest scale is the double next to 0.3 that six subtractions of
    0.1 from 0.9 reach. *)
Lemma min_scale_value : min_scale = 0.30000000000000016%float.
Proof. reflexivity. Qed.

Lemma three_tenths_from_spec fuel n0 n :
  three_tenths_from fuel n0 = true →
  n0 ≤ n < n0 + Z.of_nat fuel →
  int_of_float (float_of_int n * min_scale) = 3 * n / 10.
Proof.
  revert n0. induction fuel as [|fuel IH]; intros n0 Hall Hn; [lia|].
  cbn [three_tenths_from] in Hall. apply andb_true_iff in Hall as [Hhere Hrest].
  destruct (decide (n = n0)) as [->|Hne].
  - by apply Z.eqb_eq.
  - apply (IH (n0 + 1)); [done|lia].
Qed.

(** The smallest scale of the resize loop is 0.3: on every dimension a JPEG
    can have, scaling by [min_scale] and truncating gives exactly three
    tenths of the dimension, rounded down. *)
Theorem smallest_scale_is_three_tenths (n : Z) :
  0 ≤ n ≤ 65535 → int_of_float (float_of_int n * min_scale) = 3 * n / 10.
Proof.
  intros Hn.
  assert (three_tenths_from (Z.to_nat 65536) 0 = true) as Hall by (vm_compute; reflexivity).
  apply (three_tenths_from_spec _ _ _ Hall). lia.
Qed.

Lemma quality_levels_sorted : StronglySorted (λ x y : Z, y ≤ x) quality_levels.
Proof.
  unfold quality_levels. repeat (constructor; [|repeat constructor; lia]). constructor.
Qed.

Section codec_claims.
Context `{Pillow}.
Implicit Types (self : HWPXImageCompressorAdvanced) (data : bytes).

(** C1, as amended.  For an input that opens and is larger than the budget:
    whatever [compress_image] returns is tagged as a JPEG and either fits
    the budget or is exactly the quality-60 encoding of the candidate of
    the smallest scale (0.3); it returns whenever the calls into Pillow
    that the search makes return, and when it raises, it raises the
    exception of the normalisation, of an encoding at a quality level, of a
    resizing or encoding at a scale level, or of the fall-back encoding; and
    the answer is a function of the input bytes and the byte budget alone:
    a compressor with the same budget answers the same. *)
Theorem compress_image_fits_or_falls_back self self' data img0 :
  Image_open data = Some img0 →
  target_size_bytes self < len data →
  target_size_bytes self' = target_size_bytes self →
  (∀ out tag, compress_image self data = Ok (out, tag) →
     tag = "jpg"
     ∧ ∃ img, normalize img0 = Ok img
         ∧ (len out ≤ target_size_bytes self ∨ fallback_encoding img = Ok out))
  ∧ (codec_returns img0 → ∃ out, compress_image self data = Ok (out, "jpg"))
  ∧ (∀ e, compress_image self data = Raise e →
       normalize img0 = Raise e
       ∨ ∃ img, normalize img0 = Ok img
           ∧ ((∃ q, q ∈ quality_levels ∧ save_jpeg img q = Raise e)
              ∨ (∃ s, s ∈ scale_levels ∧ candidate_encoding img 85 s = Raise e)
              ∨ fallback_encoding img = Raise e))
  ∧ compress_image self' data = compress_image self data.
Proof.
  intros Hopen _ Hbudget. split_and!.
  - intros out tag. rewrite (compress_image_decoded _ _ _ Hopen).
    intros (img & Hnorm & Hrun)%bind_Ok_inv.
    apply bind_Ok_inv in Hrun as ([[q o]|] & Hq & Hrun).
    { injection Hrun as -> <-. split; [done|]. exists img. split; [done|]. left.
      by apply first_fit_Some in Hq as (_ & _ & _ & _ & _ & Hle). }
    apply bind_Ok_inv in Hrun as ([[s o]|] & Hs & Hrun).
    { injection Hrun as -> <-. split; [done|]. exists img. split; [done|]. left.
      by apply first_fit_Some in Hs as (_ & _ & _ & _ & _ & Hle). }
    apply bind_Ok_inv in Hrun as (o & Hf & Hrun). injection Hrun as -> <-.
    split; [done|]. exists img. split; [done|]. by right.
  - intros Hcodec.
    destruct (compress_image_returns self data) as (out & tag & Hrun).
    { intros img Himg. by rewrite Hopen in Himg; injection Himg as <-. }
    destruct (compress_image_is_jpeg _ _ _ _ _ Hopen Hrun) as [-> _]. eauto.
  - intros e. rewrite (compress_image_decoded _ _ _ Hopen).
    destruct (normalize img0) as [img|e'] eqn:Hnorm; [|intros [= ->]; by left].
    rewrite bind_Ok. intros Hrun. right. exists img. split; [done|].
    destruct (first_fit self (save_jpeg img) quality_levels) as [[[q o]|]|e'] eqn:Hq;
      rewrite ?bind_Ok, ?bind_Raise in Hrun; [done| |].
    2:{ injection Hrun as ->. left.
        apply first_fit_Raise in Hq as (pre & q & post & Hl & _ & Hq).
        exists q. split; [|done]. rewrite Hl. apply elem_of_app. right. by left. }
    destruct (first_fit self (candidate_encoding img 85) scale_levels)
      as [[[s o]|]|e'] eqn:Hs; rewrite ?bind_Ok, ?bind_Raise in Hrun; [done| |].
    2:{ injection Hrun as ->. right. left.
        apply first_fit_Raise in Hs as (pre & s & post & Hl & _ & Hs).
        exists s. split; [|done]. rewrite Hl. apply elem_of_app. right. by left. }
    right. right. destruct (fallback_encoding img) as [o|e']; [done|].
    by injection Hrun as ->.
  - by apply compress_image_budget.
Qed.

(** C3. The quality search encodes the normalised image at the levels 95,
    90, ..., 10 in turn and [compress_image] returns the first encoding that
    fits the budget: the encoding of a level such that the encodings of the
    levels before it are over the budget.  The search gives up, at level 5,
    exactly when none of the eighteen fits, and the scale search follows.
    An encoding that raises before any fits ends both with its
    exception. *)
Theorem quality_search_first_fit self data img0 img :
  Image_open data = Some img0 →
  normalize img0 = Ok img →
  let hit := first_fit self (save_jpeg img) quality_levels in
  (∀ q out, hit = Ok (Some (q, out)) ↔
     ∃ pre post, quality_levels = pre ++ q :: post
       ∧ (∀ q', q' ∈ pre → over self (save_jpeg img q'))
       ∧ save_jpeg img q = Ok out ∧ len out ≤ target_size_bytes self)
  ∧ (∀ q out, hit = Ok (Some (q, out)) →
       quality_search self quality_fuel img 95 = Ok (Returned (out, "jpg"))
       ∧ compress_image self data = Ok (out, "jpg"))
  ∧ (hit = Ok None ↔ quality_search self quality_fuel img 95 = Ok (Exhausted 5))
  ∧ (hit = Ok None ↔ ∀ q, q ∈ quality_levels → over self (save_jpeg img q))
  ∧ (hit = Ok None →
       compress_image self data =
         s ← scale_search self scale_fuel img 0.9%float None;
         match s with
         | Returned r => Ok r
         | Exhausted (_, resized) =>
             resized ← or_raise UnboundLocalError resized;
             output ← save_jpeg resized 60;
             Ok (output, "jpg")
         end)
  ∧ (∀ e, hit = Raise e →
       quality_search self quality_fuel img 95 = Raise e
       ∧ compress_image self data = Raise e).
Proof.
  intros Hopen Hnorm hit.
  assert (quality_search self quality_fuel img 95 =
          h ← hit; Ok (match h with
                       | Some (_, output) => Returned (output, "jpg")
                       | None => Exhausted 5
                       end)) as Hsearch by apply quality_search_find.
  assert (compress_image self data =
          q ← quality_search self quality_fuel img 95;
          match q with
          | Returned r => Ok r
          | Exhausted _ =>
              s ← scale_search self scale_fuel img 0.9%float None;
              match s with
              | Returned r => Ok r
              | Exhausted (_, resized) =>
                  resized ← or_raise UnboundLocalError resized;
                  output ← save_jpeg resized 60;
                  Ok (output, "jpg")
              end
          end) as Hrun.
  { unfold compress_image. by rewrite Hopen, Hnorm, bind_Ok. }
  split_and!.
  - intros q out. apply first_fit_Some.
  - intros q out Hq. rewrite Hrun, Hsearch, Hq, !bind_Ok. done.
  - rewrite Hsearch. destruct hit as [[[q out]|]|e]; by rewrite ?bind_Ok, ?bind_Raise.
  - apply first_fit_None.
  - intros Hnone. by rewrite Hrun, Hsearch, Hnone, !bind_Ok.
  - intros e He. by rewrite Hrun, Hsearch, He, !bind_Raise.
Qed.
End codec_claims.

(** ** Further facts on the codec *)

Section codec_further.
Context `{Pillow}.
Implicit Types (self : HWPXImageCompressorAdvanced) (data : bytes).

(** When no quality level fits, the scale search returns the first of the
    seven scale levels whose quality-85 encoding fits; a resizing or an
    encoding that raises before any fits (as the resizing to a side of zero
    does) ends [compress_image] with its exception; and when none of the
    seven fits, the answer is that of the fall-back encoding. *)
Theorem scale_search_first_fit self data img0 img :
  Image_open data = Some img0 →
  normalize img0 = Ok img →
  (∀ q, q ∈ quality_levels → over self (save_jpeg img q)) →
  (∀ pre s post out, scale_levels = pre ++ s :: post →
     (∀ s', s' ∈ pre → over self (candidate_encoding img 85 s')) →
     candidate_encoding img 85 s = Ok out →
     len out ≤ target_size_bytes self →
     compress_image self data = Ok (out, "jpg"))
  ∧ (∀ pre s post e, scale_levels = pre ++ s :: post →
       (∀ s', s' ∈ pre → over self (candidate_encoding img 85 s')) →
       candidate_encoding img 85 s = Raise e →
       compress_image self data = Raise e)
  ∧ ((∀ s, s ∈ scale_levels → over self (candidate_encoding img 85 s)) →
     compress_image self data = (out ← fallback_encoding img; Ok (out, "jpg"))
     ∧ returns (candidate img min_scale)).
Proof.
  intros Hopen Hnorm Hq.
  rewrite (compress_image_decoded _ _ _ Hopen), Hnorm, bind_Ok.
  rewrite (proj2 (first_fit_None self (save_jpeg img) quality_levels) Hq), bind_Ok.
  split_and!.
  - intros pre s post out Hl Hpre Hs Hle.
    rewrite (proj2 (first_fit_Some self (candidate_encoding img 85) scale_levels s out));
      [done|]. by exists pre, post.
  - intros pre s post e Hl Hpre Hs.
    rewrite (proj2 (first_fit_Raise self (candidate_encoding img 85) scale_levels e));
      [done|]. by exists pre, s, post.
  - intros Hnone.
    rewrite (proj2 (first_fit_None self (candidate_encoding img 85) scale_levels) Hnone).
    split; [done|].
    destruct (Hnone min_scale) as (out & Hout & _).
    { unfold scale_levels, min_scale. set_solver. }
    apply bind_Ok_inv in Hout as (r & Hr & _). by exists r.
Qed.

(** [compress_image] returns whenever the calls into Pillow that the search
    can make return: both loops end, and the scale loop has bound [resized]
    by the time the fall-back reads it.  The tag it answers is "original"
    exactly when the bytes do not open as an image. *)
Theorem compress_image_returns_with_pillow self data :
  (∀ img0, Image_open data = Some img0 → codec_returns img0) →
  ∃ out tag, compress_image self data = Ok (out, tag)
    ∧ (tag = "original" ∧ out = data ∧ Image_open data = None
       ∨ tag = "jpg" ∧ ∃ img0, Image_open data = Some img0).
Proof.
  intros Hcodec.
  destruct (compress_image_returns self data Hcodec) as (out & tag & Hrun).
  exists out, tag. split; [done|].
  destruct (Image_open data) as [img0|] eqn:Hopen.
  - destruct (compress_image_is_jpeg _ _ _ _ _ Hopen Hrun) as [-> _]. right. eauto.
  - unfold compress_image in Hrun. rewrite Hopen in Hrun. injection Hrun as <- <-.
    by left.
Qed.

(** A larger budget never lowers the quality the quality search settles
    on. *)
Theorem larger_budget_higher_quality self self' img q out :
  target_size_bytes self ≤ target_size_bytes self' →
  first_fit self (save_jpeg img) quality_levels = Ok (Some (q, out)) →
  ∃ q' out', q ≤ q'
    ∧ first_fit self' (save_jpeg img) quality_levels = Ok (Some (q', out'))
    ∧ save_jpeg img q = Ok out ∧ save_jpeg img q' = Ok out'
    ∧ quality_search self quality_fuel img 95 = Ok (Returned (out, "jpg"))
    ∧ quality_search self' quality_fuel img 95 = Ok (Returned (out', "jpg")).
Proof.
  intros Hle Hfind.
  destruct (first_fit_weaken self self' (save_jpeg img) quality_levels q out)
    as (q' & out' & Hfind' & Hqq'); [done|apply quality_levels_sorted|done|].
  exists q', out'. rewrite !quality_search_find, Hfind, Hfind', !bind_Ok.
  split_and!; [done|done| | |done|done].
  - by apply first_fit_Some in Hfind as (_ & _ & _ & _ & Hq & _).
  - by apply first_fit_Some in Hfind' as (_ & _ & _ & _ & Hq & _).
Qed.
End codec_further.

Lemma tenths_from_spec fuel n0 n s k :
  tenths_from fuel n0 = true →
  n0 ≤ n < n0 + Z.of_nat fuel →
  (s, k) ∈ scale_tenths →
  int_of_float (float_of_int n * s) = k * n / 10.
Proof.
  revert n0. induction fuel as [|fuel IH]; intros n0 Hall Hn Hsk; [lia|].
  cbn [tenths_from] in Hall. apply andb_true_iff in Hall as [Hhere Hrest].
  destruct (decide (n = n0)) as [->|Hne].
  - rewrite forallb_forall in Hhere. apply Z.eqb_eq.
    by apply (Hhere (s, k)), list_elem_of_In.
  - apply (IH (n0 + 1)); [done|lia|done].
Qed.

(** The rounding errors of the repeated subtraction never show in the size
    of a candidate: on every dimension a JPEG can have, the seven scale
    factors the loop computes give exactly nine, eight, ..., three tenths of
    the dimension, rounded down. *)
Theorem scale_levels_are_tenths (n : Z) (s : float) (k : Z) :
  0 ≤ n ≤ 65535 →
  (s, k) ∈ scale_tenths →
  int_of_float (float_of_int n * s) = k * n / 10.
Proof.
  intros Hn Hsk.
  assert (tenths_from (Z.to_nat 65536) 0 = true) as Hall by (vm_compute; reflexivity).
  apply (tenths_from_spec _ _ _ _ _ Hall); [lia|done].
Qed.

(** ** The inline wrapper *)

Section inline_facts.
Context `{Pillow, Base64}.
Implicit Types (self : HWPXImageCompressorAdvanced) (data : bytes).

Lemma compress_base64_image_undecodable self base64_string :
  b64decode base64_string = None →
  compress_base64_image self base64_string = (base64_string, 0, 0, false).
Proof. intros Hdec. unfold compress_base64_image. by rewrite Hdec. Qed.

Lemma compress_base64_image_small self base64_string data :
  b64decode base64_string = Some data →
  len data ≤ target_size_bytes self →
  compress_base64_image self base64_string = (base64_string, len data, len data, false).
Proof.
  intros Hdec Hle. unfold compress_base64_image. rewrite Hdec. cbn [or_raise].
  rewrite bind_Ok. cbv zeta.
  by destruct (Z.leb_spec (len data) (target_size_bytes self)); [|lia].
Qed.

Lemma compress_base64_image_large self base64_string data out tag :
  b64decode base64_string = Some data →
  target_size_bytes self < len data →
  compress_image self data = Ok (out, tag) →
  compress_base64_image self base64_string = (b64encode out, len data, len out, true).
Proof.
  intros Hdec Hgt Hc.
  unfold compress_base64_image. rewrite Hdec. cbn [or_raise].
  rewrite bind_Ok. cbv zeta.
  destruct (Z.leb_spec (len data) (target_size_bytes self)); [lia|].
  rewrite Hc, bind_Ok. reflexivity.
Qed.

(** When [compress_image] raises, the wrapper answers the string as given,
    with zero sizes and the flag down. *)
Lemma compress_base64_image_failed self base64_string data e :
  b64decode base64_string = Some data →
  target_size_bytes self < len data →
  compress_image self data = Raise e →
  compress_base64_image self base64_string = (base64_string, 0, 0, false).
Proof.
  intros Hdec Hgt Hc.
  unfold compress_base64_image. rewrite Hdec. cbn [or_raise].
  rewrite bind_Ok. cbv zeta.
  destruct (Z.leb_spec (len data) (target_size_bytes self)); [lia|].
  by rewrite Hc, bind_Raise.
Qed.

(** The flag is raised exactly for a payload over the budget on which
    [compress_image] returns. *)
Lemma compress_base64_image_flag self base64_string :
  (compress_base64_image self base64_string).2 =
    match b64decode base64_string with
    | Some data =>
        (target_size_bytes self <? len data) && is_returned (compress_image self data)
    | None => false
    end.
Proof.
  destruct (b64decode base64_string) as [data|] eqn:Hdec.
  - destruct (Z.ltb_spec (target_size_bytes self) (len data)) as [Hgt|Hle].
    + destruct (compress_image self data) as [[out tag]|e] eqn:Hc.
      * by rewrite (compress_base64_image_large _ _ _ _ _ Hdec Hgt Hc).
      * by rewrite (compress_base64_image_failed _ _ _ _ Hdec Hgt Hc).
    + by rewrite (compress_base64_image_small _ _ _ Hdec Hle).
  - by rewrite compress_base64_image_undecodable.
Qed.

(** What the wrapper answers first is the string as given whenever the flag
    is down. *)
Lemma compress_base64_image_kept self base64_string :
  (compress_base64_image self base64_string).2 = false →
  (compress_base64_image self base64_string).1.1.1 = base64_string.
Proof.
  destruct (b64decode base64_string) as [data|] eqn:Hdec.
  - destruct (Z.ltb_spec (target_size_bytes self) (len data)) as [Hgt|Hle].
    + destruct (compress_image self data) as [[out tag]|e] eqn:Hc.
      * by rewrite (compress_base64_image_large _ _ _ _ _ Hdec Hgt Hc).
      * by rewrite (compress_base64_image_failed _ _ _ _ Hdec Hgt Hc).
    + by rewrite (compress_base64_image_small _ _ _ Hdec Hle).
  - by rewrite compress_base64_image_undecodable.
Qed.
End inline_facts.

(** ** The document scan *)

(** Induction on elements, with the hypothesis on every child. *)
Lemma Element_children_ind (P : Element → Prop) :
  (∀ tag attrib text tail children,
     Forall P children → P (Elem tag attrib text tail children)) →
  ∀ e, P e.
Proof.
  intros Hstep. fix IH 1. intros [tag attrib text tail children].
  apply Hstep. induction children as [|c cs IHcs]; constructor; [apply IH|apply IHcs].
Qed.

Lemma attr_values_Elem key tag attrib text tail children :
  attr_values key (Elem tag attrib text tail children) =
    attrib !! key :: concat (attr_values key <$> children).
Proof.
  unfold attr_values. cbn [iter fmap list_fmap attrib_of]. f_equal.
  induction children as [|c cs IH]; [done|].
  cbn [fmap list_fmap concat]. rewrite fmap_app. f_equal. apply IH.
Qed.

Section scanner_facts.
Context `{Pillow, Base64, ElementTree}.
Implicit Types (self : HWPXImageCompressorAdvanced) (st : scan_totals).

Lemma scan_bin_Elem self tag attrib text tail children st :
  scan_bin self (Elem tag attrib text tail children) st =
    let '(attrib, st) := scan_bin_attrib self attrib st in
    let '(children, st) := scan_bin_list self children st in
    (Elem tag attrib text tail children, st).
Proof. reflexivity. Qed.

(** The second loop changes nothing. *)
Lemma scan_fillImagePath_id (e : Element) : scan_fillImagePath e = e.
Proof.
  induction e as [tag attrib text tail children IH] using Element_children_ind.
  cbn [scan_fillImagePath]. f_equal.
  - by case_bool_decide.
  - induction IH as [|c cs Hc _ IHcs]; [done|].
    cbn [fmap list_fmap] in *. by rewrite Hc, IHcs.
Qed.

(** One element: only [bin] can change, and only where it is present. *)
Lemma scan_bin_attrib_erase self attrib st :
  delete "bin" (scan_bin_attrib self attrib st).1 = delete "bin" attrib.
Proof.
  unfold scan_bin_attrib. destruct (attrib !! "bin") as [v|]; [|done].
  destruct (100 <? str_len v); [|done].
  destruct (compress_base64_image self v) as [[[new orig] comp] []]; [|done].
  cbn [fst]. apply delete_insert_eq.
Qed.

Lemma scan_bin_attrib_totals self attrib st :
  (scan_bin_attrib self attrib st).2 = payload_totals self st (attrib !! "bin").
Proof.
  unfold scan_bin_attrib, payload_totals. destruct (attrib !! "bin") as [v|]; [|done].
  destruct (100 <? str_len v); [|done].
  by destruct (compress_base64_image self v) as [[[new orig] comp] []].
Qed.

(** The first loop leaves everything but the values of [bin] as it was. *)
Lemma scan_bin_erase self (e : Element) st :
  erase_bin (scan_bin self e st).1 = erase_bin e.
Proof.
  revert st. induction e as [tag attrib text tail children IH] using Element_children_ind.
  intros st. rewrite scan_bin_Elem.
  pose proof (scan_bin_attrib_erase self attrib st) as Ha.
  destruct (scan_bin_attrib self attrib st) as [attrib' st1]. cbn [fst] in Ha.
  assert (erase_bin <$> (scan_bin_list self children st1).1 = erase_bin <$> children) as Hcs.
  { clear Ha. revert st1. induction IH as [|c cs Hc _ IHcs]; intros st1; [done|].
    cbn [scan_bin_list]. specialize (Hc st1).
    destruct (scan_bin self c st1) as [c' st2]. specialize (IHcs st2).
    destruct (scan_bin_list self cs st2) as [cs' st3].
    cbn [fst fmap list_fmap] in *. by rewrite Hc, IHcs. }
  destruct (scan_bin_list self children st1) as [children' st2].
  cbn [fst erase_bin] in *. by rewrite Ha, Hcs.
Qed.

(** The totals of the first loop are a fold over the [bin] values alone. *)
Lemma scan_bin_totals self (e : Element) st :
  (scan_bin self e st).2 = foldl (payload_totals self) st (attr_values "bin" e).
Proof.
  revert st. induction e as [tag attrib text tail children IH] using Element_children_ind.
  intros st. rewrite scan_bin_Elem, attr_values_Elem.
  pose proof (scan_bin_attrib_totals self attrib st) as Ha.
  destruct (scan_bin_attrib self attrib st) as [attrib' st1]. cbn [snd] in Ha.
  cbn [foldl]. rewrite <- Ha. clear Ha.
  assert ((scan_bin_list self children st1).2 =
          foldl (payload_totals self) st1 (concat (attr_values "bin" <$> children))) as Hcs.
  { revert st1. induction IH as [|c cs Hc _ IHcs]; intros st1; [done|].
    cbn [scan_bin_list fmap list_fmap concat]. specialize (Hc st1).
    destruct (scan_bin self c st1) as [c' st2]. specialize (IHcs st2).
    destruct (scan_bin_list self cs st2) as [cs' st3].
    cbn [snd] in *. by rewrite foldl_app, <- Hc, <- IHcs. }
  by destruct (scan_bin_list self children st1) as [children' st2].
Qed.

(** Erasing [bin] keeps the values of every other attribute. *)
Lemma attr_values_erase_bin key (e : Element) :
  key ≠ "bin" → attr_values key (erase_bin e) = attr_values key e.
Proof.
  intros Hkey. induction e as [tag attrib text tail children IH] using Element_children_ind.
  cbn [erase_bin]. rewrite !attr_values_Elem, lookup_delete_ne by done. f_equal.
  induction IH as [|c cs Hc _ IHcs]; [done|].
  cbn [fmap list_fmap concat] in *. by rewrite Hc, IHcs.
Qed.

Lemma scan_bin_attr_values self key (e : Element) st :
  key ≠ "bin" → attr_values key (scan_bin self e st).1 = attr_values key e.
Proof.
  intros Hkey. rewrite <- (attr_values_erase_bin key (scan_bin self e st).1) by done.
  rewrite scan_bin_erase. by apply attr_values_erase_bin.
Qed.
End scanner_facts.

Section document_facts.
Context `{Pillow, Base64, ElementTree}.
Implicit Types (self : HWPXImageCompressorAdvanced) (st : scan_totals).

Lemma compressed_payload_flag self v :
  compressed_payload self (Some v) =
    (100 <? str_len v) && (compress_base64_image self v).2.
Proof.
  unfold compressed_payload, over_budget. rewrite compress_base64_image_flag.
  cbn [mbind option_bind]. destruct (100 <? str_len v); [|done]. cbn [andb].
  destruct (b64decode v) as [data|]; [|done].
  destruct (target_size_bytes self <? len data); [|done].
  by destruct (compress_image self data).
Qed.

Lemma compressed_payload_over self v :
  compressed_payload self v = true → over_budget self v = true.
Proof. unfold compressed_payload. by intros [? _]%andb_true_iff. Qed.

Lemma payload_totals_kept self st v :
  compressed_payload self v = false → payload_totals self st v = st.
Proof.
  destruct v as [v|]; [|done]. rewrite compressed_payload_flag. unfold payload_totals.
  destruct (100 <? str_len v); [|done]. cbn [andb].
  by destruct (compress_base64_image self v) as [[[new orig] comp] flag]; cbn [snd]; intros ->.
Qed.

Lemma payload_totals_within self st v :
  over_budget self v = false → payload_totals self st v = st.
Proof.
  intros Hv. apply payload_totals_kept. unfold compressed_payload. by rewrite Hv.
Qed.

Lemma payload_totals_over self st v :
  compressed_payload self v = true →
  scan_count (payload_totals self st v) = scan_count st + 1
  ∧ scan_modified (payload_totals self st v) = true.
Proof.
  destruct v as [v|]; [|done]. rewrite compressed_payload_flag. unfold payload_totals.
  destruct (100 <? str_len v); [|done]. cbn [andb].
  by destruct (compress_base64_image self v) as [[[new orig] comp] flag]; cbn [snd]; intros ->.
Qed.

Lemma payload_totals_coherent self st v :
  totals_coherent st → totals_coherent (payload_totals self st v).
Proof.
  intros [Hpos Hiff]. destruct (compressed_payload self v) eqn:Hv.
  - unfold totals_coherent.
    destruct (payload_totals_over self st v Hv) as [-> ->]. split; [lia|]. split; [lia|done].
  - by rewrite payload_totals_kept.
Qed.

Lemma foldl_payload_totals_coherent self st vs :
  totals_coherent st → totals_coherent (foldl (payload_totals self) st vs).
Proof.
  revert st. induction vs as [|v vs IH]; intros st Hst; [done|].
  cbn [foldl]. by apply IH, payload_totals_coherent.
Qed.

Lemma foldl_payload_totals_kept self st vs :
  Forall (λ v, compressed_payload self v = false) vs →
  foldl (payload_totals self) st vs = st.
Proof.
  intros Hvs. revert st. induction Hvs as [|v vs Hv _ IH]; intros st; [done|].
  cbn [foldl]. by rewrite payload_totals_kept.
Qed.

Lemma foldl_payload_totals_within self st vs :
  Forall (λ v, over_budget self v = false) vs →
  foldl (payload_totals self) st vs = st.
Proof.
  intros Hvs. apply foldl_payload_totals_kept.
  eapply Forall_impl; [exact Hvs|]. intros v Hv. unfold compressed_payload. by rewrite Hv.
Qed.

Lemma scan_zero_coherent : totals_coherent scan_zero.
Proof. split; [done|]. split; [done|]. cbn. lia. Qed.

(** The namespace loop raises at its first event: the event name has eight
    characters, not two. *)
Lemma extract_namespaces_raises xml_content namespaces :
  ET_start_ns xml_content ≠ [] →
  extract_namespaces (ET_iterparse xml_content) namespaces = Raise ValueError.
Proof.
  unfold ET_iterparse. destruct (ET_start_ns xml_content) as [|ns l]; [done|].
  reflexivity.
Qed.

Lemma extract_namespaces_none xml_content :
  ET_start_ns xml_content = [] →
  extract_namespaces (ET_iterparse xml_content) ∅ = Ok ∅.
Proof. unfold ET_iterparse. by intros ->. Qed.

Lemma process_xml_images_unparsed self xml_content file_path :
  ET_fromstring xml_content = None →
  process_xml_images self xml_content file_path = (Str xml_content, 0, 0, 0).
Proof. intros Hparse. unfold process_xml_images. by rewrite Hparse. Qed.

Lemma process_xml_images_namespaced self xml_content file_path :
  ET_start_ns xml_content ≠ [] →
  process_xml_images self xml_content file_path = (Str xml_content, 0, 0, 0).
Proof.
  intros Hns. unfold process_xml_images.
  destruct (ET_fromstring xml_content) as [root|]; [|done].
  cbn [or_raise]. rewrite bind_Ok. by rewrite extract_namespaces_raises.
Qed.

Lemma process_xml_images_parsed self xml_content file_path root :
  ET_fromstring xml_content = Some root →
  ET_start_ns xml_content = [] →
  process_xml_images self xml_content file_path =
    let '(root, st) := scan_bin self root scan_zero in
    if scan_modified st
    then (Bytes (ET_tostring root), scan_count st, scan_original st, scan_compressed st)
    else (Str xml_content, 0, 0, 0).
Proof.
  intros Hparse Hns. unfold process_xml_images. rewrite Hparse.
  cbn [or_raise]. rewrite bind_Ok, extract_namespaces_none, bind_Ok by done.
  destruct (scan_bin self root scan_zero) as [root' st].
  rewrite scan_fillImagePath_id. by destruct (scan_modified st).
Qed.

(** Whatever the document, the answer is the text as given with zero
    figures, or the serialised scan with a positive count. *)
Lemma process_xml_images_cases self xml_content file_path :
  process_xml_images self xml_content file_path = (Str xml_content, 0, 0, 0)
  ∨ ∃ root st,
      ET_fromstring xml_content = Some root
      ∧ st = foldl (payload_totals self) scan_zero (attr_values "bin" root)
      ∧ 0 < scan_count st
      ∧ process_xml_images self xml_content file_path =
          (Bytes (ET_tostring (scan_bin self root scan_zero).1),
           scan_count st, scan_original st, scan_compressed st).
Proof.
  destruct (ET_fromstring xml_content) as [root|] eqn:Hparse;
    [|left; by apply process_xml_images_unparsed].
  destruct (ET_start_ns xml_content) as [|ns l] eqn:Hns;
    [|left; apply process_xml_images_namespaced; by rewrite Hns].
  rewrite (process_xml_images_parsed _ _ _ _ Hparse Hns).
  pose proof (scan_bin_totals self root scan_zero) as Htot.
  pose proof (foldl_payload_totals_coherent self scan_zero (attr_values "bin" root)
                scan_zero_coherent) as [_ Hmod].
  rewrite <- Htot in Hmod.
  destruct (scan_bin self root scan_zero) as [root' st] eqn:Hscan. cbn [fst snd] in *.
  destruct (scan_modified st); [right|by left].
  exists root, st. rewrite <- Htot, Hscan. split_and!; [done|done|by apply Hmod|done].
Qed.

(** No payload compressed: the document comes back as given. *)
Lemma process_xml_images_kept self xml_content file_path :
  (∀ root, ET_fromstring xml_content = Some root →
           Forall (λ v, compressed_payload self v = false) (attr_values "bin" root)) →
  process_xml_images self xml_content file_path = (Str xml_content, 0, 0, 0).
Proof.
  intros Hwithin.
  destruct (process_xml_images_cases self xml_content file_path)
    as [Hsame|(root & st & Hparse & -> & Hcount & _)]; [done|].
  rewrite foldl_payload_totals_kept in Hcount by auto. done.
Qed.

(** No payload over the budget: the document comes back as given. *)
Lemma process_xml_images_within self xml_content file_path :
  (∀ root, ET_fromstring xml_content = Some root →
           Forall (λ v, over_budget self v = false) (attr_values "bin" root)) →
  process_xml_images self xml_content file_path = (Str xml_content, 0, 0, 0).
Proof.
  intros Hwithin. apply process_xml_images_kept. intros root Hroot.
  eapply Forall_impl; [by apply Hwithin|].
  intros v Hv. unfold compressed_payload. by rewrite Hv.
Qed.
End document_facts.

(** ** Further facts on inline payloads *)

Section inline_further.
Context `{Pillow, Base64}.
Implicit Types (self : HWPXImageCompressorAdvanced) (st : scan_totals).

(** An inline payload over the budget that does not open as an image is
    answered as compressed: the flag is up, both sizes are the decoded
    size, and the new string is the re-encoding of the same bytes. *)
Theorem undecodable_inline_counted_compressed self base64_string data :
  b64decode base64_string = Some data →
  Image_open data = None →
  target_size_bytes self < len data →
  compress_base64_image self base64_string = (b64encode data, len data, len data, true).
Proof.
  intros Hdec Hopen Hgt.
  apply (compress_base64_image_large self _ _ _ "original" Hdec Hgt).
  unfold compress_image. by rewrite Hopen.
Qed.

Lemma payload_totals_over_sizes self st v :
  compressed_payload self v = true →
  scan_count (payload_totals self st v) = scan_count st + 1
  ∧ scan_original (payload_totals self st v) = scan_original st + decoded_size v
  ∧ scan_modified (payload_totals self st v) = true.
Proof.
  unfold compressed_payload, over_budget, payload_totals, decoded_size.
  destruct v as [v|]; [|done].
  destruct (100 <? str_len v); [|done]. cbn [andb mbind option_bind].
  destruct (b64decode v) as [data|] eqn:Hdec; [|done].
  destruct (Z.ltb_spec (target_size_bytes self) (len data)) as [Hgt|]; [|done].
  destruct (compress_image self data) as [[out tag]|e] eqn:Hc; [|done]. intros _.
  by rewrite (compress_base64_image_large self _ _ _ _ Hdec Hgt Hc).
Qed.

Lemma foldl_payload_totals_count self st vs :
  let counted := filter (λ v, compressed_payload self v = true) vs in
  scan_count (foldl (payload_totals self) st vs) = scan_count st + len counted
  ∧ scan_original (foldl (payload_totals self) st vs)
    = scan_original st + total (decoded_size <$> counted)
  ∧ (counted = [] → foldl (payload_totals self) st vs = st)
  ∧ (counted ≠ [] → scan_modified (foldl (payload_totals self) st vs) = true).
Proof.
  cbv zeta. revert st. induction vs as [|v vs IH]; intros st.
  - rewrite filter_nil. unfold len, total. cbn. split_and!; [lia|lia|done|done].
  - cbn [foldl]. destruct (IH (payload_totals self st v)) as (Hc & Ho & Hnil & Hcons).
    destruct (compressed_payload self v) eqn:Hv.
    + rewrite filter_cons_True by done.
      destruct (payload_totals_over_sizes self st v Hv) as (Hc1 & Ho1 & Hm1).
      cbn [fmap list_fmap total foldr].
      fold (total (decoded_size <$> filter (λ v, compressed_payload self v = true) vs)).
      unfold len in *. cbn [length]. split_and!; [lia|lia|done|].
      intros _. destruct (filter (λ v, compressed_payload self v = true) vs) eqn:Hf.
      * by rewrite Hnil.
      * by apply Hcons.
    + rewrite filter_cons_False by (by rewrite Hv).
      rewrite (payload_totals_kept self st v Hv) in *. done.
Qed.

(** What the first loop leaves in the [bin] attribute of one element. *)
Lemma scan_bin_attrib_payload self attrib st :
  (scan_bin_attrib self attrib st).1 !! "bin" = rewritten_payload self (attrib !! "bin").
Proof.
  unfold scan_bin_attrib, rewritten_payload, over_budget.
  destruct (attrib !! "bin") as [v|] eqn:Hv; [|done].
  destruct (100 <? str_len v); [|done]. cbn [andb mbind option_bind].
  destruct (b64decode v) as [data|] eqn:Hdec.
  - destruct (Z.ltb_spec (target_size_bytes self) (len data)) as [Hgt|Hle].
    + destruct (compress_image self data) as [[out tag]|e] eqn:Hc.
      * rewrite (compress_base64_image_large self _ _ _ _ Hdec Hgt Hc).
        cbn [fst]. by rewrite lookup_insert_eq.
      * by rewrite (compress_base64_image_failed self _ _ _ Hdec Hgt Hc).
    + by rewrite (compress_base64_image_small self _ _ Hdec Hle).
  - by rewrite compress_base64_image_undecodable.
Qed.

(** A payload that is not compressed stays as it is. *)
Lemma rewritten_payload_kept self v :
  compressed_payload self v = false → rewritten_payload self v = v.
Proof.
  unfold compressed_payload, rewritten_payload.
  destruct (over_budget self v); [|done]. cbn [andb].
  destruct (v ≫= b64decode) as [data|]; [|done].
  by destruct (compress_image self data).
Qed.
End inline_further.

Section document_further.
Context `{Pillow, Base64, ElementTree}.
Implicit Types (self : HWPXImageCompressorAdvanced) (st : scan_totals).

Lemma scan_bin_payloads self (root : Element) st :
  attr_values "bin" (scan_bin self root st).1
  = rewritten_payload self <$> attr_values "bin" root.
Proof.
  revert st. induction root as [tag attrib text tail children IH] using Element_children_ind.
  intros st. rewrite scan_bin_Elem.
  pose proof (scan_bin_attrib_payload self attrib st) as Ha.
  destruct (scan_bin_attrib self attrib st) as [attrib' st1]. cbn [fst] in Ha.
  assert (concat (attr_values "bin" <$> (scan_bin_list self children st1).1)
          = rewritten_payload self <$> concat (attr_values "bin" <$> children)) as Hcs.
  { clear Ha. revert st1. induction IH as [|c cs Hc _ IHcs]; intros st1; [done|].
    cbn [scan_bin_list]. specialize (Hc st1).
    destruct (scan_bin self c st1) as [c' st2]. specialize (IHcs st2).
    destruct (scan_bin_list self cs st2) as [cs' st3].
    cbn [fst fmap list_fmap concat] in *. by rewrite fmap_app, Hc, IHcs. }
  destruct (scan_bin_list self children st1) as [children' st2].
  cbn [fst] in *. rewrite !attr_values_Elem, fmap_cons. by rewrite Ha, Hcs.
Qed.

(** The first loop of the scan rewrites each [bin] value on its own: a
    value over the budget becomes the base64 encoding of what
    [compress_image] returns for its bytes, every other value stays. *)
Theorem scan_rewrites_each_payload self (root : Element) st :
  attr_values "bin" (scan_bin self root st).1
  = rewritten_payload self <$> attr_values "bin" root.
Proof. apply scan_bin_payloads. Qed.

Lemma process_xml_images_over self xml_content file_path root :
  ET_fromstring xml_content = Some root →
  ET_start_ns xml_content = [] →
  let counted := filter (λ v, compressed_payload self v = true) (attr_values "bin" root) in
  ∃ new_xml comp,
    process_xml_images self xml_content file_path
    = (new_xml, len counted, total (decoded_size <$> counted), comp)
    ∧ (counted = [] → new_xml = Str xml_content ∧ comp = 0)
    ∧ (counted ≠ [] → new_xml = Bytes (ET_tostring (scan_bin self root scan_zero).1)).
Proof.
  intros Hroot Hns. cbv zeta.
  rewrite (process_xml_images_parsed self _ file_path _ Hroot Hns).
  pose proof (scan_bin_totals self root scan_zero) as Hst.
  destruct (scan_bin self root scan_zero) as [root' st]. cbn [fst snd] in *.
  destruct (foldl_payload_totals_count self scan_zero (attr_values "bin" root))
    as (Hc & Ho & Hnil & Hcons).
  rewrite <- Hst in Hc, Ho, Hnil, Hcons. cbn [scan_zero scan_count scan_original] in Hc, Ho.
  destruct (filter (λ v, compressed_payload self v = true) (attr_values "bin" root))
    as [|v over] eqn:Hf.
  - rewrite Hnil by done. eexists _, _. split; [reflexivity|]. by split.
  - rewrite Hcons by done. rewrite Hc, Ho. eexists _, _. split; [reflexivity|]. by split.
Qed.

(** For a document that parses and declares no namespace, the count
    [process_xml_images] answers is the number of [bin] values over the
    budget on whose bytes [compress_image] returns, and the original size
    is the sum of their decoded sizes (a value on whose bytes
    [compress_image] raises is not counted); the text comes back as given
    when there is none, and the serialised tree otherwise. *)
Theorem inline_count_is_over_budget self xml_content file_path root :
  ET_fromstring xml_content = Some root →
  ET_start_ns xml_content = [] →
  let counted := filter (λ v, compressed_payload self v = true) (attr_values "bin" root) in
  ∃ new_xml comp,
    process_xml_images self xml_content file_path
    = (new_xml, len counted, total (decoded_size <$> counted), comp)
    ∧ (counted = [] → new_xml = Str xml_content ∧ comp = 0)
    ∧ (counted ≠ [] → new_xml = Bytes (ET_tostring (scan_bin self root scan_zero).1)).
Proof.
  intros Hroot Hns. exact (process_xml_images_over self _ file_path _ Hroot Hns).
Qed.
End document_further.

(** ** The scratch directory *)

Lemma lookup_node_ne (t : tree) (p : path) : p ≠ [] → lookup_node t p = t !! p.
Proof. by destruct p. Qed.

Lemma lookup_node_File (t : tree) (p : path) data :
  lookup_node t p = Some (File data) → p ≠ [] ∧ t !! p = Some (File data).
Proof. by destruct p. Qed.

Lemma child_name_spec (d p : path) (x : string) :
  child_name d p = Some x ↔ p = d ++ [x].
Proof.
  revert p. induction d as [|a d IH]; intros p.
  - destruct p as [|y [|z p]]; cbn; naive_solver.
  - destruct p as [|b p]; cbn; [naive_solver|].
    case_bool_decide as Hab; [subst b; rewrite IH|]; naive_solver.
Qed.

Lemma same_kinds_refl (t : tree) : same_kinds t t.
Proof. by intros p. Qed.

Lemma same_kinds_trans (t1 t2 t3 : tree) :
  same_kinds t1 t2 → same_kinds t2 t3 → same_kinds t1 t3.
Proof. intros H12 H23 p. by rewrite H12. Qed.

Lemma same_kinds_sym (t1 t2 : tree) : same_kinds t1 t2 → same_kinds t2 t1.
Proof. intros H12 p. by rewrite H12. Qed.

(** Overwriting a file with a file changes no kind. *)
Lemma same_kinds_overwrite (t : tree) (p : path) data data' :
  t !! p = Some (File data) → same_kinds t (<[p := File data']> t).
Proof.
  intros Hp q. destruct (decide (p = q)) as [<-|Hne].
  - by rewrite lookup_insert_eq, Hp.
  - by rewrite lookup_insert_ne.
Qed.

Lemma same_kinds_File (t t' : tree) (p : path) data :
  same_kinds t t' → t !! p = Some (File data) → ∃ data', t' !! p = Some (File data').
Proof.
  intros Hk Hp. specialize (Hk p). rewrite Hp in Hk.
  destruct (t' !! p) as [[data'|]|]; naive_solver.
Qed.

Lemma same_kinds_Dir (t t' : tree) (p : path) :
  same_kinds t t' → t !! p = Some Dir → t' !! p = Some Dir.
Proof.
  intros Hk Hp. specialize (Hk p). rewrite Hp in Hk.
  destruct (t' !! p) as [[data'|]|]; naive_solver.
Qed.

Lemma same_kinds_None (t t' : tree) (p : path) :
  same_kinds t t' → t !! p = None → t' !! p = None.
Proof.
  intros Hk Hp. specialize (Hk p). rewrite Hp in Hk.
  destruct (t' !! p) as [[data'|]|]; naive_solver.
Qed.

(** [os.listdir] answers the names of the entries right below [d], each
    once. *)
Lemma listdir_ok (t : tree) (d : path) (names : list string) :
  listdir t d = Ok names →
  NoDup names ∧ ∀ x, x ∈ names ↔ is_Some (t !! (d ++ [x])).
Proof.
  unfold listdir. destruct (lookup_node t d) as [[data|]|]; [done| |done].
  intros [= <-]. split.
  - pose proof (NoDup_fst_map_to_list t) as Hnd.
    induction Hnd as [|p ps Hp _ IH]; [constructor|].
    cbn [omap list_omap]. destruct (child_name d p) as [x|] eqn:Hx; [|done].
    constructor; [|done]. rewrite list_elem_of_omap. intros (q & Hq & Hqx).
    apply child_name_spec in Hx, Hqx. congruence.
  - intros x. rewrite list_elem_of_omap. split.
    + intros (p & Hp & ->%child_name_spec).
      apply list_elem_of_fmap in Hp as ([q n] & -> & Hqn).
      apply elem_of_map_to_list in Hqn. by exists n.
    + intros [n Hn]. exists (d ++ [x]). split; [|by apply child_name_spec].
      apply list_elem_of_fmap. exists (d ++ [x], n). split; [done|].
      by apply elem_of_map_to_list.
Qed.

Lemma listdir_Dir (t : tree) (d : path) :
  lookup_node t d = Some Dir → ∃ names, listdir t d = Ok names.
Proof. unfold listdir. intros ->. eauto. Qed.

Lemma listdir_File (t : tree) (d : path) data :
  lookup_node t d = Some (File data) → listdir t d = Raise NotADirectoryError.
Proof. unfold listdir. by intros ->. Qed.

(** The stable sort permutes. *)
Lemma insert_desc_perm {A} (x : A * Z) (l : list (A * Z)) : insert_desc x l ≡ₚ x :: l.
Proof.
  induction l as [|y l IH]; [done|]. cbn [insert_desc].
  destruct (x.2 <? y.2); [|done]. rewrite IH. apply Permutation_swap.
Qed.

Lemma sort_desc_perm {A} (l : list (A * Z)) : sort_desc l ≡ₚ l.
Proof.
  induction l as [|x l IH]; [done|]. cbn [sort_desc].
  by rewrite insert_desc_perm, IH.
Qed.

(** Pairing each item with its key keeps the items. *)
Lemma mapM_keyed {A} (key : A → result Z) (l : list A) (keyed : list (A * Z)) :
  mapM (λ x, k ← key x; Ok (x, k)) l = Ok keyed → keyed.*1 = l.
Proof.
  revert keyed. induction l as [|x l IH]; intros keyed; cbn [mapM].
  - by intros [= <-].
  - destruct (key x) as [k|e]; [|done]. rewrite !bind_Ok.
    destruct (mapM _ l) as [keyed'|e]; [|done]. rewrite bind_Ok.
    intros [= <-]. cbn. f_equal. by apply IH.
Qed.

Lemma mapM_keyed_ok {A} (key : A → result Z) (l : list A) :
  (∀ x, x ∈ l → ∃ k, key x = Ok k) →
  ∃ keyed, mapM (λ x, k ← key x; Ok (x, k)) l = Ok keyed.
Proof.
  induction l as [|x l IH]; intros Hkeys; cbn [mapM]; [by eexists|].
  destruct (Hkeys x) as [k ->]; [left|]. rewrite !bind_Ok.
  destruct IH as [keyed ->]; [intros y Hy; apply Hkeys; by right|].
  rewrite bind_Ok. by eexists.
Qed.

(** ** The binary-asset pass *)

Section asset_facts.
Context `{Pillow}.
Variable self : HWPXImageCompressorAdvanced.
Implicit Types (t : tree) (c : asset_totals) (p : path) (data : bytes).

(** One turn on a file: the file holds [asset_outcome], the counters moved
    by [asset_tally]; nothing else changed. *)
Lemma asset_step_File t c f p data :
  lookup_node t p = Some (File data) →
  asset_step self (t, c) (f, p) =
    Ok (<[p := File (asset_outcome self data)]> t, asset_tally self data c).
Proof.
  intros Hnode. destruct (lookup_node_File _ _ _ Hnode) as [Hp Ht].
  unfold asset_step, asset_outcome, asset_tally, read_file. cbn [snd].
  rewrite Hnode, bind_Ok. cbv zeta. cbn [compressed_count total_original_size
    total_compressed_size skipped_count].
  destruct (len data <=? target_size_bytes self).
  { by rewrite insert_id. }
  destruct (compress_image self data) as [[out tag]|e]; cbn [try_except fst].
  - rewrite bind_Ok. cbv zeta. destruct (len data =? 0).
    + rewrite bind_Raise. cbn [try_except]. by rewrite insert_id.
    + rewrite bind_Ok. unfold write_file. rewrite Hnode, bind_Ok. done.
  - rewrite bind_Raise. cbn [try_except]. by rewrite insert_id.
Qed.

(** A turn on anything else raises. *)
Lemma asset_step_Ok t c f p st :
  asset_step self (t, c) (f, p) = Ok st → ∃ data, lookup_node t p = Some (File data).
Proof.
  unfold asset_step, read_file. cbn [snd].
  destruct (lookup_node t p) as [[data|]|]; [eauto|done|done].
Qed.

Lemma asset_outcome_small data :
  len data ≤ target_size_bytes self → asset_outcome self data = data.
Proof.
  intros Hle. unfold asset_outcome.
  by destruct (Z.leb_spec (len data) (target_size_bytes self)); [|lia].
Qed.

Lemma asset_tally_small data c :
  len data ≤ target_size_bytes self →
  asset_tally self data c =
    {| compressed_count := compressed_count c;
       total_original_size := total_original_size c + len data;
       total_compressed_size := total_compressed_size c + len data;
       skipped_count := skipped_count c + 1 |}.
Proof.
  intros Hle. unfold asset_tally.
  by destruct (Z.leb_spec (len data) (target_size_bytes self)); [|lia].
Qed.

Lemma asset_outcome_large data out tag :
  0 ≤ target_size_bytes self →
  target_size_bytes self < len data →
  compress_image self data = Ok (out, tag) →
  asset_outcome self data = out
  ∧ ∀ c, asset_tally self data c =
      {| compressed_count := compressed_count c + 1;
         total_original_size := total_original_size c + len data;
         total_compressed_size := total_compressed_size c + len out;
         skipped_count := skipped_count c |}.
Proof.
  intros Hpos Hgt Hc. unfold asset_outcome, asset_tally. rewrite Hc.
  destruct (Z.leb_spec (len data) (target_size_bytes self)); [lia|].
  by destruct (Z.eqb_spec (len data) 0); [lia|].
Qed.

(** The loop, when it finishes: kinds are kept. *)
Lemma for_each_asset_kinds items t c t' c' :
  for_each (asset_step self) items (t, c) = Ok (t', c') → same_kinds t t'.
Proof.
  revert t c. induction items as [|[f p] items IH]; intros t c; cbn [for_each].
  - intros [= <- <-]. apply same_kinds_refl.
  - destruct (asset_step self (t, c) (f, p)) as [[t1 c1]|e] eqn:Hstep; [|done].
    rewrite bind_Ok. intros Hrest.
    destruct (asset_step_Ok _ _ _ _ _ Hstep) as [data Hnode].
    rewrite (asset_step_File _ _ _ _ _ Hnode) in Hstep. injection Hstep as <- <-.
    apply lookup_node_File in Hnode as [_ Ht].
    eapply same_kinds_trans; [by eapply same_kinds_overwrite|by eapply IH].
Qed.

(** Every item it met was a file of the tree it started from. *)
Lemma for_each_asset_files items t c r :
  for_each (asset_step self) items (t, c) = Ok r →
  ∀ f p, (f, p) ∈ items → ∃ data, t !! p = Some (File data).
Proof.
  revert t c. induction items as [|[f p] items IH]; intros t c; cbn [for_each].
  { intros _ f p Hin. by apply elem_of_nil in Hin. }
  destruct (asset_step self (t, c) (f, p)) as [[t1 c1]|e] eqn:Hstep; [|done].
  rewrite bind_Ok. intros Hrest f' p' Hin.
  destruct (asset_step_Ok _ _ _ _ _ Hstep) as [data Hnode].
  rewrite (asset_step_File _ _ _ _ _ Hnode) in Hstep. injection Hstep as <- <-.
  apply lookup_node_File in Hnode as [_ Ht].
  apply elem_of_cons in Hin as [[= -> ->]|Hin]; [eauto|].
  destruct (IH _ _ Hrest _ _ Hin) as [data' Hp'].
  eapply same_kinds_File; [|done].
  apply same_kinds_sym. by eapply same_kinds_overwrite.
Qed.

(** A file within the budget is the same file afterwards, wherever it is. *)
Lemma for_each_asset_small items t c t' c' p data :
  for_each (asset_step self) items (t, c) = Ok (t', c') →
  t !! p = Some (File data) →
  len data ≤ target_size_bytes self →
  t' !! p = Some (File data).
Proof.
  intros Hrun Hp Hle. revert t c Hrun Hp.
  induction items as [|[f q] items IH]; intros t c; cbn [for_each].
  { by intros [= <- <-]. }
  destruct (asset_step self (t, c) (f, q)) as [[t1 c1]|e] eqn:Hstep; [|done].
  rewrite bind_Ok. intros Hrest Hp.
  destruct (asset_step_Ok _ _ _ _ _ Hstep) as [dq Hnode].
  rewrite (asset_step_File _ _ _ _ _ Hnode) in Hstep. injection Hstep as <- <-.
  apply lookup_node_File in Hnode as [_ Ht].
  apply (IH _ _ Hrest). destruct (decide (q = p)) as [->|Hne].
  - rewrite lookup_insert_eq. rewrite Hp in Ht. injection Ht as <-.
    by rewrite asset_outcome_small.
  - by rewrite lookup_insert_ne.
Qed.

(** A path that is no item is left alone. *)
Lemma for_each_asset_frame items t c t' c' p :
  for_each (asset_step self) items (t, c) = Ok (t', c') →
  p ∉ items.*2 → t' !! p = t !! p.
Proof.
  revert t c. induction items as [|[f q] items IH]; intros t c; cbn [for_each].
  { by intros [= <- <-]. }
  destruct (asset_step self (t, c) (f, q)) as [[t1 c1]|e] eqn:Hstep; [|done].
  rewrite bind_Ok. intros Hrest Hnotin.
  destruct (asset_step_Ok _ _ _ _ _ Hstep) as [dq Hnode].
  rewrite (asset_step_File _ _ _ _ _ Hnode) in Hstep. injection Hstep as <- <-.
  cbn [fmap list_fmap snd] in Hnotin. apply not_elem_of_cons in Hnotin as [Hne Hnotin].
  rewrite (IH _ _ Hrest Hnotin). by rewrite lookup_insert_ne.
Qed.

(** With each path listed once, an item's file ends as its own turn left
    it. *)
Lemma for_each_asset_member items t c t' c' f p data :
  for_each (asset_step self) items (t, c) = Ok (t', c') →
  NoDup items.*2 →
  (f, p) ∈ items →
  t !! p = Some (File data) →
  t' !! p = Some (File (asset_outcome self data)).
Proof.
  revert t c. induction items as [|[g q] items IH]; intros t c; cbn [for_each].
  { intros _ _ Hin. by apply elem_of_nil in Hin. }
  destruct (asset_step self (t, c) (g, q)) as [[t1 c1]|e] eqn:Hstep; [|done].
  rewrite bind_Ok. intros Hrest Hnd Hin Hp.
  destruct (asset_step_Ok _ _ _ _ _ Hstep) as [dq Hnode].
  rewrite (asset_step_File _ _ _ _ _ Hnode) in Hstep. injection Hstep as <- <-.
  apply lookup_node_File in Hnode as [_ Ht].
  cbn [fmap list_fmap snd] in Hnd. apply NoDup_cons in Hnd as [Hq Hnd].
  apply elem_of_cons in Hin as [[= -> ->]|Hin].
  - rewrite (for_each_asset_frame _ _ _ _ _ _ Hrest Hq), lookup_insert_eq.
    congruence.
  - apply (IH _ _ Hrest Hnd Hin). rewrite lookup_insert_ne; [done|].
    intros ->. apply Hq. apply list_elem_of_fmap. by exists (f, p).
Qed.

(** The loop finishes when every item is a file. *)
Lemma for_each_asset_runs items t c :
  (∀ f p, (f, p) ∈ items → ∃ data, lookup_node t p = Some (File data)) →
  ∃ r, for_each (asset_step self) items (t, c) = Ok r.
Proof.
  revert t c. induction items as [|[f p] items IH]; intros t c Hfiles; cbn [for_each].
  { by eexists. }
  destruct (Hfiles f p) as [data Hnode]; [left|].
  rewrite (asset_step_File _ _ _ _ _ Hnode), bind_Ok.
  apply IH. intros g q Hin. destruct (Hfiles g q) as [dq Hq]; [by right|].
  apply lookup_node_File in Hq as [Hne Hq]. rewrite lookup_node_ne by done.
  destruct (decide (p = q)) as [->|Hpq].
  - rewrite lookup_insert_eq. eauto.
  - rewrite lookup_insert_ne by done. eauto.
Qed.

(** When every item is a file within the budget, the loop changes no file,
    compresses nothing and counts every item as skipped. *)
Lemma for_each_asset_all_small items t c :
  (∀ f p, (f, p) ∈ items →
     ∃ data, lookup_node t p = Some (File data) ∧ len data ≤ target_size_bytes self) →
  ∃ c', for_each (asset_step self) items (t, c) = Ok (t, c')
    ∧ compressed_count c' = compressed_count c
    ∧ skipped_count c' = skipped_count c + len items.
Proof.
  revert c. induction items as [|[f p] items IH]; intros c Hsmall; cbn [for_each].
  { exists c. unfold len. cbn. split_and!; [done|done|lia]. }
  destruct (Hsmall f p) as (data & Hnode & Hle); [left|].
  rewrite (asset_step_File _ _ _ _ _ Hnode), bind_Ok.
  rewrite asset_outcome_small, asset_tally_small by done.
  apply lookup_node_File in Hnode as [_ Ht]. rewrite insert_id by done.
  destruct (IH {| compressed_count := compressed_count c;
                  total_original_size := total_original_size c + len data;
                  total_compressed_size := total_compressed_size c + len data;
                  skipped_count := skipped_count c + 1 |}) as (c' & -> & Hcc & Hsk).
  { intros g q Hin. apply (Hsmall g q). by right. }
  exists c'. cbn in Hcc, Hsk. unfold len in *. cbn [length].
  split_and!; [done|done|lia].
Qed.
End asset_facts.

Section asset_pass.
Context `{Pillow}.
Variable self : HWPXImageCompressorAdvanced.
Implicit Types (t : tree) (c : asset_totals) (p : path) (data : bytes).

(** The items of the pass: the image-named entries of [BinData], each
    once. *)
Lemma image_info_ok t items :
  image_info t = Ok items →
  NoDup items.*2
  ∧ ∀ f p, (f, p) ∈ items ↔
      p = bindata_path ++ [f] ∧ is_image_name f = true ∧ is_Some (t !! p).
Proof.
  unfold image_info. intros (names & Hls & Hrest)%bind_Ok_inv.
  cbv zeta in Hrest. apply bind_Ok_inv in Hrest as (keyed & Hkeyed & [= <-]).
  apply mapM_keyed in Hkeyed. apply listdir_ok in Hls as [Hnd Hnames].
  pose proof (sort_desc_perm keyed) as Hperm.
  apply (fmap_Permutation fst) in Hperm. rewrite Hkeyed in Hperm. split.
  - rewrite Hperm, <- list_fmap_compose. apply NoDup_fmap_2_strong; [|by apply NoDup_filter].
    intros f g _ _ Heq. cbn in Heq. by simplify_list_eq.
  - intros f p. rewrite Hperm, list_elem_of_fmap. split.
    + intros (g & [= -> ->] & [Himg Hg]%list_elem_of_filter).
      split_and!; [done|by apply Is_true_true|by apply Hnames].
    + intros (-> & Himg & Hsome). exists f. split; [done|].
      apply list_elem_of_filter. split; [by apply Is_true_true|by apply Hnames].
Qed.

Lemma image_info_runs t :
  lookup_node t bindata_path = Some Dir → ∃ items, image_info t = Ok items.
Proof.
  intros Hdir. unfold image_info.
  destruct (listdir_Dir _ _ Hdir) as [names Hls]. rewrite Hls, bind_Ok. cbv zeta.
  apply listdir_ok in Hls as [_ Hnames].
  edestruct (mapM_keyed_ok (λ x : string * path, getsize t x.2)) as [keyed ->].
  { intros [f p] (g & [= -> ->] & [_ Hg]%list_elem_of_filter)%list_elem_of_fmap.
    apply Hnames in Hg as [n Hn]. unfold getsize, lookup_node.
    change (t !! (bindata_path ++ [g])) with (t !! ["BinData"; g]) in Hn.
    cbn [snd]. rewrite Hn.
    destruct n; eauto. }
  rewrite bind_Ok. eauto.
Qed.

(** The pass as its loop over the items (none when [BinData] is absent). *)
Lemma process_bindata_items t t' c :
  process_bindata self t = Ok (t', c) →
  ∃ items, for_each (asset_step self) items (t, asset_zero) = Ok (t', c)
    ∧ NoDup items.*2
    ∧ (∀ f p, (f, p) ∈ items →
         p = bindata_path ++ [f] ∧ is_image_name f = true)
    ∧ (is_Some (t !! bindata_path) →
       ∀ f, is_image_name f = true → is_Some (t !! (bindata_path ++ [f])) →
            (f, bindata_path ++ [f]) ∈ items).
Proof.
  unfold process_bindata, exists_. case_bool_decide as Hex.
  - intros (items & Hitems & Hrun)%bind_Ok_inv. exists items.
    apply image_info_ok in Hitems as [Hnd Hmem].
    split_and!; [done|done|..].
    + intros f p Hin. apply Hmem in Hin. tauto.
    + intros _ f Himg Hsome. by apply Hmem.
  - intros [= <- <-]. exists []. split_and!; [done|constructor|..].
    + intros f p Hin. by apply elem_of_nil in Hin.
    + intros Hbd. destruct Hex. by rewrite lookup_node_ne.
Qed.

Lemma process_bindata_kinds t t' c :
  process_bindata self t = Ok (t', c) → same_kinds t t'.
Proof.
  intros (items & Hrun & _)%process_bindata_items.
  by eapply for_each_asset_kinds.
Qed.

(** A file within the budget is left verbatim by the pass. *)
Lemma process_bindata_small t t' c p data :
  process_bindata self t = Ok (t', c) →
  t !! p = Some (File data) →
  len data ≤ target_size_bytes self →
  t' !! p = Some (File data).
Proof.
  intros (items & Hrun & _)%process_bindata_items.
  by eapply for_each_asset_small.
Qed.

(** An image file of [BinData] ends as its turn left it; every other entry
    is as before. *)
Lemma process_bindata_member t t' c f data :
  process_bindata self t = Ok (t', c) →
  is_Some (t !! bindata_path) →
  is_image_name f = true →
  t !! (bindata_path ++ [f]) = Some (File data) →
  t' !! (bindata_path ++ [f]) = Some (File (asset_outcome self data)).
Proof.
  intros (items & Hrun & Hnd & _ & Hmem)%process_bindata_items Hbd Himg Hf.
  eapply for_each_asset_member; [done|done| |done].
  apply Hmem; [done|done|by eexists].
Qed.

Lemma process_bindata_frame t t' c p :
  process_bindata self t = Ok (t', c) →
  (∀ f, is_image_name f = true → p ≠ bindata_path ++ [f]) →
  t' !! p = t !! p.
Proof.
  intros (items & Hrun & _ & Hshape & _)%process_bindata_items Hp.
  eapply for_each_asset_frame; [done|].
  intros ([f q] & -> & Hin)%list_elem_of_fmap.
  apply Hshape in Hin as [-> Himg]. by eapply Hp.
Qed.

(** The pass finishes exactly on the trees that are [bindata_ok]. *)
Lemma process_bindata_ok t r :
  process_bindata self t = Ok r → bindata_ok t.
Proof.
  destruct r as [t' c]. intros Hrun. split.
  - intros data Hbd. unfold process_bindata, exists_ in Hrun.
    rewrite bool_decide_eq_true_2 in Hrun by (rewrite lookup_node_ne; [by eexists|done]).
    unfold image_info in Hrun.
    rewrite (listdir_File _ _ data) in Hrun by (by rewrite lookup_node_ne).
    done.
  - intros Hbd f Himg Hdir.
    apply process_bindata_items in Hrun as (items & Hrun & _ & _ & Hmem).
    destruct (for_each_asset_files _ _ _ _ _ Hrun f (bindata_path ++ [f])) as [d Hd].
    { apply Hmem; [done|done|by eexists]. }
    congruence.
Qed.

Lemma process_bindata_runs t :
  bindata_ok t → ∃ r, process_bindata self t = Ok r.
Proof.
  intros [Hnofile Hnodir]. unfold process_bindata, exists_.
  case_bool_decide as Hex; [|by eexists].
  rewrite lookup_node_ne in Hex by done. destruct Hex as [[data|] Hbd].
  { by destruct (Hnofile data). }
  destruct (image_info_runs t) as [items Hitems]; [done|].
  rewrite Hitems, bind_Ok. apply image_info_ok in Hitems as [_ Hmem].
  apply for_each_asset_runs. intros f p (-> & Himg & [[data|] Hn])%Hmem.
  - exists data. by rewrite lookup_node_ne.
  - destruct (Hnodir (ltac:(by eexists)) f Himg Hn).
Qed.

(** When every image file of [BinData] is within the budget, the pass
    changes nothing, compresses nothing and counts each of them skipped. *)
Lemma process_bindata_all_small t :
  bindata_ok t →
  (∀ f data, is_image_name f = true → t !! (bindata_path ++ [f]) = Some (File data) →
             len data ≤ target_size_bytes self) →
  ∃ c items,
    process_bindata self t = Ok (t, c)
    ∧ compressed_count c = 0
    ∧ skipped_count c = len items
    ∧ NoDup items
    ∧ ∀ p, p ∈ items ↔
        is_Some (t !! bindata_path)
        ∧ ∃ f data, p = bindata_path ++ [f] ∧ is_image_name f = true
                    ∧ t !! p = Some (File data).
Proof.
  intros [Hnofile Hnodir] Hsmall. unfold process_bindata, exists_.
  case_bool_decide as Hex.
  - rewrite lookup_node_ne in Hex by done. destruct Hex as [[data|] Hbd].
    { by destruct (Hnofile data). }
    destruct (image_info_runs t) as [items Hitems]; [done|].
    rewrite Hitems, bind_Ok. apply image_info_ok in Hitems as [Hnd Hmem].
    assert (∀ f p, (f, p) ∈ items → ∃ data, t !! p = Some (File data)
              ∧ p = bindata_path ++ [f] ∧ is_image_name f = true) as Hfiles.
    { intros f p (-> & Himg & [[data|] Hn])%Hmem; [by eauto|].
      destruct (Hnodir (ltac:(by eexists)) f Himg Hn). }
    destruct (for_each_asset_all_small self items t asset_zero) as (c & -> & Hcc & Hsk).
    { intros f p Hin. destruct (Hfiles f p Hin) as (data & Hn & -> & Himg).
      exists data. split; [by rewrite lookup_node_ne|by eapply Hsmall]. }
    exists c, items.*2. split_and!; [done|done| |done|].
    + rewrite Hsk. unfold len. by rewrite length_fmap.
    + intros p. rewrite list_elem_of_fmap. split.
      * intros ([f q] & -> & Hin). destruct (Hfiles f q Hin) as (data & Hn & -> & Himg).
        split; [by eexists|]. by exists f, data.
      * intros (_ & f & data & -> & Himg & Hn). exists (f, bindata_path ++ [f]).
        split; [done|]. apply Hmem. split_and!; [done|done|by eexists].
  - exists asset_zero, []. split_and!; [done|done|done|constructor|].
    intros p. split; [by intros Hin%elem_of_nil|].
    intros [Hbd _]. destruct Hex. by rewrite lookup_node_ne.
Qed.
End asset_pass.

(** ** Further facts on the binary-asset pass *)

Lemma file_size_insert_ne (t : tree) (p q : path) (n : node) :
  p ≠ q → file_size (<[p := n]> t) q = file_size t q.
Proof. intros Hne. unfold file_size. by rewrite lookup_insert_ne. Qed.

Lemma total_file_size_insert (t : tree) (p : path) (n : node) (ps : list path) :
  p ∉ ps → total (file_size (<[p := n]> t) <$> ps) = total (file_size t <$> ps).
Proof.
  induction ps as [|q ps IH]; [done|]. intros [Hne Hnotin]%not_elem_of_cons.
  cbn [fmap list_fmap total foldr]. rewrite file_size_insert_ne by done.
  f_equal. by apply IH.
Qed.

Lemma filter_file_size_insert (t : tree) (p : path) (n : node) (ps : list path)
    (P : Z → Prop) `{!∀ z, Decision (P z)} :
  p ∉ ps →
  filter (λ q, P (file_size (<[p := n]> t) q)) ps = filter (λ q, P (file_size t q)) ps.
Proof.
  induction ps as [|q ps IH]; [done|]. intros [Hne Hnotin]%not_elem_of_cons.
  destruct (decide (P (file_size t q))) as [Hq|Hq].
  - rewrite !filter_cons_True by (by rewrite ?file_size_insert_ne). by rewrite IH.
  - rewrite !filter_cons_False by (by rewrite ?file_size_insert_ne). by apply IH.
Qed.

Lemma compressed_asset_insert_ne `{Pillow} (self : HWPXImageCompressorAdvanced) (t : tree) (p q : path) (n : node) :
  p ≠ q → compressed_asset self (<[p := n]> t) q = compressed_asset self t q.
Proof. intros Hne. unfold compressed_asset. by rewrite lookup_insert_ne. Qed.

Lemma filter_compressed_asset_insert `{Pillow} (self : HWPXImageCompressorAdvanced)
    (t : tree) (p : path) (n : node) (ps : list path) :
  p ∉ ps →
  filter (λ q, compressed_asset self (<[p := n]> t) q = true) ps
  = filter (λ q, compressed_asset self t q = true) ps.
Proof.
  induction ps as [|q ps IH]; [done|]. intros [Hne Hnotin]%not_elem_of_cons.
  destruct (compressed_asset self t q) eqn:Hq.
  - rewrite !filter_cons_True by (by rewrite ?compressed_asset_insert_ne). by rewrite IH.
  - rewrite !filter_cons_False by (by rewrite ?compressed_asset_insert_ne, ?Hq).
    by apply IH.
Qed.

(** The sort puts larger keys first. *)
Lemma insert_desc_sorted {A} (x : A * Z) (l : list (A * Z)) :
  StronglySorted (λ a b, b.2 ≤ a.2) l →
  StronglySorted (λ a b, b.2 ≤ a.2) (insert_desc x l).
Proof.
  induction 1 as [|y l Hl IH Hy]; cbn [insert_desc]; [repeat constructor|].
  destruct (Z.ltb_spec x.2 y.2) as [Hlt|Hge].
  - constructor; [done|]. rewrite insert_desc_perm. constructor; [lia|done].
  - constructor; [by constructor|]. constructor; [done|].
    eapply Forall_impl; [exact Hy|]. intros z Hz. cbn in Hz. lia.
Qed.

Lemma sort_desc_sorted {A} (l : list (A * Z)) :
  StronglySorted (λ a b, b.2 ≤ a.2) (sort_desc l).
Proof.
  induction l as [|x l IH]; cbn [sort_desc]; [constructor|].
  by apply insert_desc_sorted.
Qed.

(** Each item carries the key computed for it. *)
Lemma mapM_keyed_keys {A} (key : A → result Z) (l : list A) (keyed : list (A * Z)) :
  mapM (λ x, k ← key x; Ok (x, k)) l = Ok keyed →
  Forall (λ xk, key xk.1 = Ok xk.2) keyed.
Proof.
  revert keyed. induction l as [|x l IH]; intros keyed; cbn [mapM].
  - intros [= <-]. constructor.
  - destruct (key x) as [k|e] eqn:Hk; [|done]. rewrite !bind_Ok.
    destruct (mapM _ l) as [keyed'|e]; [|done]. rewrite bind_Ok.
    intros [= <-]. constructor; [done|]. by apply IH.
Qed.

Section asset_further.
Context `{Pillow}.
Variable self : HWPXImageCompressorAdvanced.
Implicit Types (t : tree) (c : asset_totals) (p : path) (data : bytes).

(** What one turn adds to each counter. *)
Lemma asset_tally_sizes data c :
  total_original_size (asset_tally self data c) = total_original_size c + len data
  ∧ total_compressed_size (asset_tally self data c)
    = total_compressed_size c + len (asset_outcome self data).
Proof.
  unfold asset_tally, asset_outcome.
  destruct (len data <=? target_size_bytes self); [done|].
  destruct (compress_image self data) as [r|e]; [|done].
  by destruct (len data =? 0).
Qed.

Lemma asset_tally_counts data c :
  (len data ≤ target_size_bytes self
   ∧ skipped_count (asset_tally self data c) = skipped_count c + 1
   ∧ compressed_count (asset_tally self data c) = compressed_count c)
  ∨ (target_size_bytes self < len data
     ∧ negb (len data =? 0) && is_returned (compress_image self data) = true
     ∧ skipped_count (asset_tally self data c) = skipped_count c
     ∧ compressed_count (asset_tally self data c) = compressed_count c + 1)
  ∨ (target_size_bytes self < len data
     ∧ negb (len data =? 0) && is_returned (compress_image self data) = false
     ∧ skipped_count (asset_tally self data c) = skipped_count c
     ∧ compressed_count (asset_tally self data c) = compressed_count c).
Proof.
  unfold asset_tally.
  destruct (Z.leb_spec (len data) (target_size_bytes self)) as [Hle|Hgt]; [by left|].
  right. destruct (compress_image self data) as [r|e]; cbn [is_returned].
  - destruct (len data =? 0); [by right|by left].
  - right. by rewrite andb_false_r.
Qed.

Lemma compressed_asset_File t p data :
  t !! p = Some (File data) →
  compressed_asset self t p =
    (target_size_bytes self <? len data) && negb (len data =? 0)
    && is_returned (compress_image self data).
Proof. intros Hp. unfold compressed_asset. by rewrite Hp. Qed.

Lemma for_each_asset_totals items t c t' c' :
  for_each (asset_step self) items (t, c) = Ok (t', c') →
  NoDup items.*2 →
  skipped_count c' = skipped_count c
    + len (filter (λ p, file_size t p ≤ target_size_bytes self) items.*2)
  ∧ compressed_count c' = compressed_count c
    + len (filter (λ p, compressed_asset self t p = true) items.*2)
  ∧ total_original_size c' = total_original_size c + total (file_size t <$> items.*2)
  ∧ total_compressed_size c' = total_compressed_size c + total (file_size t' <$> items.*2).
Proof.
  revert t c. induction items as [|[f q] items IH]; intros t c; cbn [for_each].
  { intros [= <- <-] _. cbn [fmap list_fmap]. rewrite !filter_nil. unfold len, total. cbn.
    split_and!; lia. }
  destruct (asset_step self (t, c) (f, q)) as [[t1 c1]|e] eqn:Hstep; [|done].
  rewrite bind_Ok. intros Hrest Hnd.
  destruct (asset_step_Ok _ _ _ _ _ _ Hstep) as [data Hnode].
  rewrite (asset_step_File _ _ _ _ _ _ Hnode) in Hstep. injection Hstep as <- <-.
  apply lookup_node_File in Hnode as [_ Ht].
  cbn [fmap list_fmap snd] in Hnd |- *. apply NoDup_cons in Hnd as [Hq Hnd].
  destruct (IH _ _ Hrest Hnd) as (Hsk & Hcc & Hor & Hco).
  pose proof (filter_file_size_insert t q (File (asset_outcome self data)) items.*2
                (λ z, z ≤ target_size_bytes self) Hq) as Hf1.
  cbv beta in Hf1. rewrite Hf1 in Hsk. clear Hf1.
  rewrite filter_compressed_asset_insert in Hcc by done.
  rewrite total_file_size_insert in Hor by done.
  destruct (asset_tally_sizes data c) as [Ho1 Hc1].
  assert (file_size t q = len data) as Hsize by (unfold file_size; by rewrite Ht).
  assert (file_size t' q = len (asset_outcome self data)) as Hsize'.
  { unfold file_size.
    by rewrite (for_each_asset_frame _ _ _ _ _ _ _ Hrest Hq), lookup_insert_eq. }
  cbn [total foldr].
  fold (total (file_size t <$> items.*2)). fold (total (file_size t' <$> items.*2)).
  rewrite Hsize'.
  pose proof (compressed_asset_File t q data Ht) as Hca.
  destruct (asset_tally_counts data c)
    as [(Hle & Hs1 & Hk1)|[(Hgt & Hok & Hs1 & Hk1)|(Hgt & Hok & Hs1 & Hk1)]].
  - rewrite filter_cons_True by lia. rewrite filter_cons_False.
    2:{ rewrite Hca. destruct (Z.ltb_spec (target_size_bytes self) (len data)); [lia|done]. }
    unfold len in *. cbn [length]. split_and!; lia.
  - rewrite filter_cons_False by lia. rewrite filter_cons_True.
    2:{ rewrite Hca, <- andb_assoc, Hok.
        by destruct (Z.ltb_spec (target_size_bytes self) (len data)); [|lia]. }
    unfold len in *. cbn [length]. split_and!; lia.
  - rewrite filter_cons_False by lia. rewrite filter_cons_False.
    2:{ rewrite Hca, <- andb_assoc, Hok. by rewrite andb_false_r. }
    unfold len in *. cbn [length]. split_and!; lia.
Qed.

(** A file counted as compressed is over the budget. *)
Lemma compressed_asset_over t p :
  compressed_asset self t p = true → target_size_bytes self < file_size t p.
Proof.
  unfold compressed_asset, file_size. destruct (t !! p) as [[data|]|]; [|done|done].
  intros [[Hgt%Z.ltb_lt _]%andb_true_iff _]%andb_true_iff. done.
Qed.

Lemma asset_counts_partition t (ps : list path) :
  len (filter (λ p, file_size t p ≤ target_size_bytes self) ps)
  + len (filter (λ p, compressed_asset self t p = true) ps)
  + len (filter (λ p, target_size_bytes self < file_size t p
                      ∧ compressed_asset self t p = false) ps)
  = len ps.
Proof.
  induction ps as [|p ps IH]; [by rewrite !filter_nil|].
  destruct (decide (file_size t p ≤ target_size_bytes self)) as [Hle|Hgt].
  - rewrite filter_cons_True by done.
    rewrite filter_cons_False by (intros Hc%compressed_asset_over; lia).
    rewrite filter_cons_False by (intros [? _]; lia).
    unfold len in *. cbn [length]. lia.
  - rewrite filter_cons_False by done.
    destruct (compressed_asset self t p) eqn:Hc.
    + rewrite filter_cons_True by done.
      rewrite filter_cons_False by (intros [_ ?]; congruence).
      unfold len in *. cbn [length]. lia.
    + rewrite filter_cons_False by congruence.
      rewrite filter_cons_True by (split; [lia|done]).
      unfold len in *. cbn [length]. lia.
Qed.

(** After the asset pass the counters agree with the files: every
    image-named entry of [BinData] is met once; it is counted as skipped
    when it is within the budget, as compressed when it is over the budget
    and its turn gets to its end, and as neither when its turn raises
    ([compress_image] raising, or an empty file under a negative budget);
    the original total is the sum of the sizes before the pass, the
    compressed total the sum of the sizes after it. *)
Theorem asset_totals_match_files t t' c :
  process_bindata self t = Ok (t', c) →
  ∃ assets : list path,
    NoDup assets
    ∧ (∀ p, p ∈ assets ↔
         is_Some (t !! bindata_path)
         ∧ ∃ f, p = bindata_path ++ [f] ∧ is_image_name f = true ∧ is_Some (t !! p))
    ∧ skipped_count c = len (filter (λ p, file_size t p ≤ target_size_bytes self) assets)
    ∧ compressed_count c = len (filter (λ p, compressed_asset self t p = true) assets)
    ∧ compressed_count c + skipped_count c
      + len (filter (λ p, target_size_bytes self < file_size t p
                          ∧ compressed_asset self t p = false) assets)
      = len assets
    ∧ total_original_size c = total (file_size t <$> assets)
    ∧ total_compressed_size c = total (file_size t' <$> assets).
Proof.
  intros Hrun.
  assert (∃ items, for_each (asset_step self) items (t, asset_zero) = Ok (t', c)
            ∧ NoDup items.*2
            ∧ ∀ p, p ∈ items.*2 ↔
                is_Some (t !! bindata_path)
                ∧ ∃ f, p = bindata_path ++ [f] ∧ is_image_name f = true ∧ is_Some (t !! p))
    as (items & Hloop & Hnd & Hmem).
  { revert Hrun. unfold process_bindata, exists_. case_bool_decide as Hex.
    - rewrite lookup_node_ne in Hex by done.
      intros (items & Hitems & Hloop)%bind_Ok_inv. exists items.
      apply image_info_ok in Hitems as [Hnd Hmem]. split_and!; [done|done|].
      intros p. rewrite list_elem_of_fmap. split.
      + intros ([f q] & -> & (-> & Himg & Hsome)%Hmem). split; [done|]. by exists f.
      + intros (_ & f & -> & Himg & Hsome). exists (f, bindata_path ++ [f]).
        split; [done|]. by apply Hmem.
    - intros [= <- <-]. exists []. split_and!; [done|constructor|].
      intros p. split; [by intros Hin%elem_of_nil|].
      intros [Hbd _]. destruct Hex. by rewrite lookup_node_ne. }
  destruct (for_each_asset_totals _ _ _ _ _ Hloop Hnd) as (Hsk & Hcc & Hor & Hco).
  cbn [asset_zero skipped_count compressed_count total_original_size total_compressed_size]
    in Hsk, Hcc, Hor, Hco.
  exists items.*2. split_and!; [done|done|lia|lia| |lia|lia].
  pose proof (asset_counts_partition t items.*2). lia.
Qed.
End asset_further.

Lemma sorted_by_getsize (t : tree) (l : list (string * path * Z)) :
  Forall (λ xk, getsize t xk.1.2 = Ok xk.2) l →
  StronglySorted (λ a b, b.2 ≤ a.2) l →
  StronglySorted
    (λ x y : string * path,
       ∃ kx ky, getsize t x.2 = Ok kx ∧ getsize t y.2 = Ok ky ∧ ky ≤ kx) l.*1.
Proof.
  intros Hsizes Hsorted. induction Hsorted as [|xk l Hl IH Hx]; [constructor|].
  apply Forall_cons in Hsizes as [Hxk Hsizes].
  cbn [fmap list_fmap]. constructor; [by apply IH|].
  apply Forall_fmap, Forall_forall. intros yk Hyk. cbn.
  exists xk.2, yk.2. split_and!; [done| |].
  - by apply (proj1 (Forall_forall _ _) Hsizes).
  - by apply (proj1 (Forall_forall _ _) Hx).
Qed.

(** The assets are taken in the order of their sizes, largest first: the
    items of the pass are the image-named entries of [BinData], each once,
    and [os.path.getsize] of an item is never larger than that of an item
    before it. *)
Theorem assets_taken_largest_first (t : tree) (items : list (string * path)) :
  image_info t = Ok items →
  StronglySorted
    (λ x y, ∃ kx ky, getsize t x.2 = Ok kx ∧ getsize t y.2 = Ok ky ∧ ky ≤ kx) items
  ∧ NoDup items
  ∧ ∀ f p, (f, p) ∈ items ↔
      p = bindata_path ++ [f] ∧ is_image_name f = true ∧ is_Some (t !! p).
Proof.
  intros Hitems. destruct (image_info_ok _ _ Hitems) as [Hnd Hmem].
  split_and!; [|by eapply NoDup_fmap_1|done].
  revert Hitems. unfold image_info. intros (names & Hls & Hrest)%bind_Ok_inv.
  cbv zeta in Hrest. apply bind_Ok_inv in Hrest as (keyed & Hkeyed & [= <-]).
  pose proof (mapM_keyed_keys _ _ _ Hkeyed) as Hkeys.
  apply sorted_by_getsize; [|apply sort_desc_sorted].
  by rewrite sort_desc_perm.
Qed.

(** With a negative budget even an empty asset is over the budget; the
    reduction percentage then divides by its size, zero.  The exception is
    caught: the file stays, and the asset is counted neither as compressed
    nor as skipped. *)
Theorem empty_asset_negative_budget `{Pillow} (self : HWPXImageCompressorAdvanced)
    (t : tree) (c : asset_totals) (f : string) (p : path) :
  target_size_bytes self < 0 →
  lookup_node t p = Some (File []) →
  ∃ c', asset_step self (t, c) (f, p) = Ok (t, c')
    ∧ compressed_count c' = compressed_count c
    ∧ skipped_count c' = skipped_count c
    ∧ total_original_size c' = total_original_size c
    ∧ total_compressed_size c' = total_compressed_size c.
Proof.
  intros Hneg Hnode. rewrite (asset_step_File self _ _ _ _ _ Hnode).
  apply lookup_node_File in Hnode as [_ Ht].
  unfold asset_outcome, asset_tally. change (len []) with 0.
  destruct (Z.leb_spec 0 (target_size_bytes self)); [lia|].
  rewrite insert_id by (by destruct (compress_image self [])).
  destruct (compress_image self []) as [r|e]; cbn [Z.eqb];
    (eexists; split; [done|]; cbn; split_and!; lia).
Qed.

(** ** The XML pass *)

Section xml_facts.
Context `{Pillow, Base64, ElementTree, TextIO}.
Variable self : HWPXImageCompressorAdvanced.
Implicit Types (t : tree) (c : xml_totals) (p : path) (data : bytes).

Lemma write_file_File t p data data' :
  lookup_node t p = Some (File data) → write_file t p data' = Ok (<[p := File data']> t).
Proof. intros Hnode. unfold write_file. by rewrite Hnode. Qed.

(** One turn either changes nothing or overwrites the document it read. *)
Lemma xml_step_shape t c p t' c' :
  xml_step self (t, c) p = (t', c') →
  (t' = t ∧ c' = c)
  ∨ ∃ data data', lookup_node t p = Some (File data) ∧ t' = <[p := File data']> t.
Proof.
  unfold xml_step, read_file.
  destruct (lookup_node t p) as [[data|]|] eqn:Hnode;
    [|intros [= <- <-]; by left..].
  rewrite bind_Ok. destruct (read_text data) as [text|]; [|intros [= <- <-]; by left].
  cbn [or_raise]. rewrite bind_Ok.
  destruct (process_xml_images self text _) as [[[new_xml comp_count] orig] comp].
  destruct (0 <? comp_count); [|intros [= <- <-]; by left].
  rewrite (write_file_File _ _ _ _ Hnode), bind_Ok.
  assert (∀ data', write_file (<[p := File []]> t) p data' = Ok (<[p := File data']> t))
    as Hwrite.
  { intros data'. apply lookup_node_File in Hnode as [Hp _].
    rewrite (write_file_File _ _ []), insert_insert_eq; [done|].
    by rewrite lookup_node_ne, lookup_insert_eq. }
  destruct new_xml as [s|b].
  - rewrite Hwrite, bind_Ok. intros [= <- <-]. right. eauto.
  - destruct (decode_utf8 b) as [s|].
    + rewrite Hwrite, bind_Ok. intros [= <- <-]. right. eauto.
    + intros [= <- <-]. right. eauto.
Qed.

Lemma xml_step_kinds t c p t' c' :
  xml_step self (t, c) p = (t', c') → same_kinds t t'.
Proof.
  intros [[-> _]|(data & data' & [_ Hp]%lookup_node_File & ->)]%xml_step_shape.
  - apply same_kinds_refl.
  - by eapply same_kinds_overwrite.
Qed.

Lemma xml_step_frame t c p t' c' q :
  xml_step self (t, c) p = (t', c') → q ≠ p → t' !! q = t !! q.
Proof.
  intros [[-> _]|(data & data' & _ & ->)]%xml_step_shape Hne; [done|].
  by rewrite lookup_insert_ne.
Qed.

(** A turn whose document yields no compressed image changes nothing. *)
Lemma xml_step_unchanged t c p :
  (∀ data text, lookup_node t p = Some (File data) → read_text data = Some text →
     ∃ new_xml orig comp,
       process_xml_images self text (default "" (last p)) = (new_xml, 0, orig, comp)) →
  xml_step self (t, c) p = (t, c).
Proof.
  intros Hzero. unfold xml_step, read_file.
  destruct (lookup_node t p) as [[data|]|] eqn:Hnode; [|done..].
  rewrite bind_Ok. destruct (read_text data) as [text|] eqn:Htext; [|done].
  cbn [or_raise]. rewrite bind_Ok.
  destruct (Hzero data text) as (new_xml & orig & comp & ->); done.
Qed.

(** A document that does not parse is skipped: the turn changes neither the
    tree nor the counters. *)
Lemma xml_step_malformed t c p data :
  lookup_node t p = Some (File data) → malformed data →
  xml_step self (t, c) p = (t, c).
Proof.
  intros Hnode (text & Htext & Hparse). apply xml_step_unchanged.
  intros data' text' Hnode' Htext'. rewrite Hnode in Hnode'. injection Hnode' as <-.
  rewrite Htext in Htext'. injection Htext' as <-.
  rewrite process_xml_images_unparsed by done. eauto.
Qed.

Lemma xml_step_within t c p :
  (∀ data, lookup_node t p = Some (File data) → document_within self data) →
  xml_step self (t, c) p = (t, c).
Proof.
  intros Hwithin. apply xml_step_unchanged. intros data text Hnode Htext.
  rewrite process_xml_images_within; [eauto|].
  intros root Hroot. by eapply Hwithin.
Qed.

Lemma foldl_xml_kinds files t c :
  same_kinds t (foldl (xml_step self) (t, c) files).1.
Proof.
  revert t c. induction files as [|p files IH]; intros t c; [apply same_kinds_refl|].
  cbn [foldl]. destruct (xml_step self (t, c) p) as [t1 c1] eqn:Hstep.
  eapply same_kinds_trans; [by eapply xml_step_kinds|apply IH].
Qed.

(** A malformed document stays as it is through the whole loop. *)
Lemma foldl_xml_keeps_malformed files t c p data :
  lookup_node t p = Some (File data) → malformed data →
  lookup_node (foldl (xml_step self) (t, c) files).1 p = Some (File data).
Proof.
  intros Hnode Hbad. revert t c Hnode.
  induction files as [|q files IH]; intros t c Hnode; [done|].
  cbn [foldl]. destruct (xml_step self (t, c) q) as [t1 c1] eqn:Hstep.
  apply IH. destruct (decide (q = p)) as [->|Hne].
  - rewrite (xml_step_malformed _ _ _ _ Hnode Hbad) in Hstep. by injection Hstep as <- <-.
  - apply lookup_node_File in Hnode as [Hp Ht]. rewrite lookup_node_ne by done.
    by rewrite (xml_step_frame _ _ _ _ _ p Hstep).
Qed.

(** The loop with a malformed document among the others is the loop
    without it. *)
Lemma foldl_xml_skips_malformed before after t c p data :
  lookup_node t p = Some (File data) → malformed data →
  foldl (xml_step self) (t, c) (before ++ p :: after) =
  foldl (xml_step self) (t, c) (before ++ after).
Proof.
  intros Hnode Hbad. rewrite !foldl_app. cbn [foldl].
  pose proof (foldl_xml_keeps_malformed before t c p data Hnode Hbad) as Hstill.
  destruct (foldl (xml_step self) (t, c) before) as [t1 c1]. cbn [fst] in Hstill.
  by rewrite (xml_step_malformed _ _ _ _ Hstill Hbad).
Qed.

(** A turn on a settled document changes nothing. *)
Lemma xml_step_settled t c p :
  (∀ data, lookup_node t p = Some (File data) → document_settled self data) →
  xml_step self (t, c) p = (t, c).
Proof.
  intros Hsettled. apply xml_step_unchanged. intros data text Hnode Htext.
  specialize (Hsettled data Hnode text (default "" (last p)) Htext).
  destruct (process_xml_images self text _) as [[[new_xml count] orig] comp].
  cbn [fst snd] in Hsettled. subst count. eauto.
Qed.

Lemma document_within_settled data :
  document_within self data → document_settled self data.
Proof.
  intros Hwithin text file_path Htext.
  rewrite process_xml_images_within; [done|]. intros root Hroot. by eapply Hwithin.
Qed.

(** With every document settled, the loop changes nothing. *)
Lemma foldl_xml_settled files t c :
  (∀ p data, p ∈ files → lookup_node t p = Some (File data) → document_settled self data) →
  foldl (xml_step self) (t, c) files = (t, c).
Proof.
  induction files as [|p files IH]; intros Hsettled; [done|].
  cbn [foldl]. rewrite xml_step_settled.
  - apply IH. intros q data Hq. apply Hsettled. by right.
  - intros data. apply Hsettled. by left.
Qed.

(** With every document within the budget, the loop changes nothing. *)
Lemma foldl_xml_within files t c :
  (∀ p data, p ∈ files → lookup_node t p = Some (File data) → document_within self data) →
  foldl (xml_step self) (t, c) files = (t, c).
Proof.
  induction files as [|p files IH]; intros Hwithin; [done|].
  cbn [foldl]. rewrite xml_step_within.
  - apply IH. intros q data Hq. apply Hwithin. by right.
  - intros data. apply Hwithin. by left.
Qed.

(** The documents of the pass: the [.xml] entries of [Contents]. *)
Lemma xml_files_ok t files :
  xml_files t = Ok files →
  ∀ p, p ∈ files → ∃ f, p = contents_path ++ [f] ∧ endswith f ".xml" = true.
Proof.
  unfold xml_files. destruct (exists_ t contents_path).
  - intros (names & Hls & [= <-])%bind_Ok_inv p.
    intros (f & -> & [Hxml _]%list_elem_of_filter)%list_elem_of_fmap.
    exists f. split; [done|by apply Is_true_true].
  - intros [= <-] p Hp. by apply elem_of_nil in Hp.
Qed.

Lemma process_contents_ok t r :
  process_contents self t = Ok r → contents_ok t.
Proof.
  intros Hrun data Hc. unfold process_contents, xml_files, exists_ in Hrun.
  rewrite bool_decide_eq_true_2 in Hrun by (rewrite lookup_node_ne; [by eexists|done]).
  by rewrite (listdir_File _ _ data) in Hrun by (by rewrite lookup_node_ne).
Qed.

Lemma process_contents_runs t :
  contents_ok t →
  ∃ files, xml_files t = Ok files
    ∧ process_contents self t = Ok (foldl (xml_step self) (t, xml_zero) files).
Proof.
  intros Hok. unfold process_contents, xml_files, exists_.
  case_bool_decide as Hex.
  - rewrite lookup_node_ne in Hex by done. destruct Hex as [[data|] Hc].
    { by destruct (Hok data). }
    destruct (listdir_Dir t contents_path) as [names ->]; [by rewrite lookup_node_ne|].
    rewrite !bind_Ok. eauto.
  - rewrite bind_Ok. eauto.
Qed.

Lemma process_contents_inv t t' c :
  process_contents self t = Ok (t', c) →
  ∃ files, xml_files t = Ok files ∧ foldl (xml_step self) (t, xml_zero) files = (t', c).
Proof.
  intros Hrun. destruct (process_contents_runs t) as (files & Hfiles & Heq).
  { by eapply process_contents_ok. }
  rewrite Heq in Hrun. injection Hrun as Hrun. eauto.
Qed.

Lemma process_contents_kinds t t' c :
  process_contents self t = Ok (t', c) → same_kinds t t'.
Proof.
  intros (files & _ & Hfold)%process_contents_inv.
  pose proof (foldl_xml_kinds files t xml_zero) as Hk. by rewrite Hfold in Hk.
Qed.
End xml_facts.

(** ** Unpacking and repacking *)

Lemma dirname_snoc (p : path) (x : string) : dirname (p ++ [x]) = p.
Proof.
  unfold dirname. rewrite length_app. cbn [length].
  replace (length p + 1 - 1)%nat with (length p) by lia. by rewrite take_app_length.
Qed.

Lemma sanitize_idemp (p : path) : sanitize (sanitize p) = sanitize p.
Proof.
  unfold sanitize. induction p as [|x p IH]; [done|].
  rewrite filter_cons. case_decide as Hx; [|done].
  rewrite filter_cons. case_decide; [|done]. by rewrite IH.
Qed.

Lemma sanitize_app (p q : path) : sanitize (p ++ q) = sanitize p ++ sanitize q.
Proof. apply filter_app. Qed.

Lemma sanitize_prefix (p q : path) : sanitize (p ++ q) = p ++ q → sanitize p = p.
Proof.
  rewrite sanitize_app. intros Heq.
  assert (length (sanitize p) ≤ length p)%nat by apply length_filter.
  assert (length (sanitize q) ≤ length q)%nat by apply length_filter.
  apply (f_equal length) in Heq as Hlen. rewrite !length_app in Hlen.
  apply app_inj_1 in Heq as [Hp _]; [done|lia].
Qed.

(** In a well-formed tree every ancestor of an entry is a directory. *)
Lemma wf_tree_ancestor (t : tree) (q k : path) (n : node) :
  wf_tree t → q ≠ [] → k ≠ [] → t !! (q ++ k) = Some n → t !! q = Some Dir.
Proof.
  intros Hwf Hq. revert n. induction k as [|x k IH] using rev_ind; [done|].
  intros n _ Hn. destruct (Hwf _ _ Hn) as (_ & _ & Hparent).
  rewrite app_assoc, dirname_snoc in Hparent.
  rewrite lookup_node_ne in Hparent by (by destruct q).
  destruct k as [|y k]; [by rewrite app_nil_r in Hparent|].
  by eapply IH.
Qed.

(** Kinds are all that well-formedness looks at. *)
Lemma wf_tree_kinds (t t' : tree) : same_kinds t t' → wf_tree t → wf_tree t'.
Proof.
  intros Hk Hwf p n Hn.
  assert (∃ n0, t !! p = Some n0) as [n0 Hn0].
  { specialize (Hk p). rewrite Hn in Hk. destruct (t !! p); naive_solver. }
  destruct (Hwf _ _ Hn0) as (Hp & Hs & Hparent). split_and!; [done|done|].
  destruct (dirname p) as [|x d] eqn:Hd; [done|].
  rewrite lookup_node_ne in Hparent |- * by done. by eapply same_kinds_Dir.
Qed.

Lemma wf_tree_empty : wf_tree ∅.
Proof. intros p n Hn. by rewrite lookup_empty in Hn. Qed.

(** The files [os.walk] reports are the file entries, each once. *)
Lemma walk_files_spec (t : tree) (p : path) (data : bytes) :
  (p, data) ∈ walk_files t ↔ t !! p = Some (File data).
Proof.
  unfold walk_files. rewrite list_elem_of_omap. split.
  - intros ([q [d|]] & Hin & Heq); cbn in Heq; [|done].
    injection Heq as -> ->. by apply elem_of_map_to_list.
  - intros Hn. exists (p, File data). split; [by apply elem_of_map_to_list|done].
Qed.

Lemma walk_files_NoDup (t : tree) : NoDup (walk_files t).*1.
Proof.
  unfold walk_files. pose proof (NoDup_fst_map_to_list t) as Hnd.
  induction (map_to_list t) as [|[q [d|]] l IH]; cbn [omap list_omap snd fst];
    [constructor|..].
  - cbn [fmap list_fmap fst] in *. apply NoDup_cons in Hnd as [Hq Hnd].
    constructor; [|by apply IH]. intros ([q' d'] & -> & Hin)%list_elem_of_fmap.
    apply list_elem_of_omap in Hin as ([q'' [d''|]] & Hin & Heq); cbn in Heq; [|done].
    injection Heq as -> ->. apply Hq. apply list_elem_of_fmap. by exists (q', File d').
  - cbn [fmap list_fmap fst] in *. apply NoDup_cons in Hnd as [_ Hnd]. by apply IH.
Qed.

Lemma repack_spec (t : tree) (m : ZipInfo) :
  m ∈ repack t ↔
  ∃ p data, m = {| filename := p; is_dir := false; content := data |}
            ∧ t !! p = Some (File data).
Proof.
  unfold repack. rewrite list_elem_of_fmap. split.
  - intros ([p data] & -> & Hin%walk_files_spec). by exists p, data.
  - intros (p & data & -> & Hn). exists (p, data). split; [done|by apply walk_files_spec].
Qed.

Lemma repack_filenames (t : tree) : filename <$> repack t = (walk_files t).*1.
Proof. unfold repack. rewrite <- list_fmap_compose. by apply list_fmap_ext. Qed.

Section extraction.
Implicit Types (t : tree) (p : path) (m : ZipInfo).

(** Creating directories: only directories are added, only where nothing
    was, and the whole chain exists afterwards. *)
Lemma ensure_dirs_ok t done todo t' :
  ensure_dirs t done todo = Ok t' →
  t ⊆ t'
  ∧ (∀ p, t' !! p = t !! p ∨ (t !! p = None ∧ t' !! p = Some Dir
                              ∧ ∃ pre, pre ≠ [] ∧ pre `prefix_of` todo ∧ p = done ++ pre))
  ∧ (∀ pre, pre ≠ [] → pre `prefix_of` todo → t' !! (done ++ pre) = Some Dir).
Proof.
  revert t done. induction todo as [|x todo IH]; intros t done; cbn [ensure_dirs].
  { intros [= <-]. split_and!; [done|by left|].
    intros pre Hpre [k Hk]. by destruct pre. }
  set (d := done ++ [x]).
  assert (∀ t0, t0 !! d = Some Dir ∨ t0 !! d = None →
      ensure_dirs (<[d := Dir]> t0) d todo = Ok t' →
      <[d := Dir]> t0 ⊆ t' →
      (∀ p, t' !! p = <[d := Dir]> t0 !! p
            ∨ (<[d := Dir]> t0 !! p = None ∧ t' !! p = Some Dir
               ∧ ∃ pre, pre ≠ [] ∧ pre `prefix_of` todo ∧ p = d ++ pre)) →
      (∀ pre, pre ≠ [] → pre `prefix_of` todo → t' !! (d ++ pre) = Some Dir) →
      t0 ⊆ t'
      ∧ (∀ p, t' !! p = t0 !! p ∨ (t0 !! p = None ∧ t' !! p = Some Dir
             ∧ ∃ pre, pre ≠ [] ∧ pre `prefix_of` x :: todo ∧ p = done ++ pre))
      ∧ (∀ pre, pre ≠ [] → pre `prefix_of` x :: todo → t' !! (done ++ pre) = Some Dir))
    as Hcase.
  { intros t0 Hd _ Hsub Hchg Hchain. split_and!.
    - etrans; [|done]. destruct Hd as [Hd|Hd].
      + by rewrite insert_id.
      + by apply insert_subseteq.
    - intros p. destruct (Hchg p) as [Hsame|(Hnone & Hdir & pre & Hpre & Hpfx & ->)].
      + destruct (decide (p = d)) as [->|Hne].
        * rewrite lookup_insert_eq in Hsame. destruct Hd as [Hd|Hd].
          { left. congruence. }
          right. split_and!; [done|done|]. exists [x]. split_and!; [done| |done].
          by apply prefix_cons, prefix_nil.
        * rewrite lookup_insert_ne in Hsame by done. by left.
      + right. assert (d ++ pre ≠ d) as Hne.
        { intros Heq. apply (f_equal length) in Heq. rewrite length_app in Heq.
          destruct pre; [done|]. cbn in Heq. lia. }
        rewrite lookup_insert_ne in Hnone by done. split_and!; [done|done|].
        exists (x :: pre). split_and!; [done|by apply prefix_cons|].
        unfold d. by rewrite <- app_assoc.
    - intros pre Hpre Hpfx. destruct pre as [|y pre]; [done|].
      destruct Hpfx as [k Hk]. injection Hk as <- ->.
      destruct pre as [|z pre].
      + eapply lookup_weaken; [|done]. by rewrite lookup_insert_eq.
      + replace (done ++ x :: z :: pre) with (d ++ z :: pre)
          by (unfold d; by rewrite <- app_assoc).
        apply Hchain; [done|]. by eexists. }
  destruct (t !! d) as [[data|]|] eqn:Hd; [done|..]; intros Hrun.
  - destruct (IH _ _ Hrun) as (Hsub & Hchg & Hchain).
    rewrite <- (insert_id t d Dir) in Hrun, Hsub, Hchg by done.
    apply (Hcase t); auto.
  - destruct (IH _ _ Hrun) as (Hsub & Hchg & Hchain). apply (Hcase t); auto.
Qed.

(** It succeeds inside any tree that has directories along the chain. *)
Lemma ensure_dirs_runs t t1 done todo :
  t ⊆ t1 →
  (∀ pre, pre ≠ [] → pre `prefix_of` todo → t1 !! (done ++ pre) = Some Dir) →
  ∃ t', ensure_dirs t done todo = Ok t' ∧ t' ⊆ t1.
Proof.
  revert t done. induction todo as [|x todo IH]; intros t done Hsub Hchain;
    cbn [ensure_dirs]; [by eauto|].
  assert (t1 !! (done ++ [x]) = Some Dir) as Hd.
  { apply Hchain; [done|]. by apply prefix_cons, prefix_nil. }
  assert (∀ pre, pre ≠ [] → pre `prefix_of` todo →
            t1 !! ((done ++ [x]) ++ pre) = Some Dir) as Hchain'.
  { intros pre Hpre Hpfx. rewrite <- app_assoc. apply Hchain; [done|].
    by apply prefix_cons. }
  destruct (t !! (done ++ [x])) as [n|] eqn:Hn.
  - rewrite (lookup_weaken _ _ _ _ Hn Hsub) in Hd. injection Hd as ->. by apply IH.
  - apply IH; [|done]. by apply insert_subseteq_l.
Qed.

Lemma dirname_prefix (p pre : path) :
  pre ≠ [] → pre `prefix_of` dirname p → ∃ k, k ≠ [] ∧ p = pre ++ k.
Proof.
  intros Hpre [k Hk]. destruct p as [|x p] using rev_ind.
  { by destruct pre. }
  rewrite dirname_snoc in Hk. subst p. exists (k ++ [x]).
  split; [by destruct k|by rewrite app_assoc].
Qed.

Lemma dirname_ne (p : path) : p ≠ [] → dirname p ≠ p.
Proof.
  intros Hp Heq. apply (f_equal length) in Heq. unfold dirname in Heq.
  rewrite length_take in Heq. destruct p; [done|]. cbn [length] in Heq. lia.
Qed.

(** One member, as far as files go: the files afterwards are the files
    before and, for a file member, its sanitised name. *)
Lemma extract_member_files t m t' p :
  extract_member t m = Ok t' →
  (∃ data, t' !! p = Some (File data)) ↔
  (∃ data, t !! p = Some (File data))
  ∨ (is_dir m = false ∧ p = sanitize (filename m)).
Proof.
  unfold extract_member. intros (t1 & Hdirs & Hput)%bind_Ok_inv.
  apply ensure_dirs_ok in Hdirs as (_ & Hchg & _).
  assert ((∃ data, t1 !! p = Some (File data)) ↔ (∃ data, t !! p = Some (File data)))
    as Hsame.
  { destruct (Hchg p) as [->|(Hnone & Hdir & _)]; [done|].
    rewrite Hnone, Hdir. naive_solver. }
  rewrite <- Hsame. clear Hsame Hchg.
  set (target := sanitize (filename m)) in *.
  destruct (is_dir m).
  - destruct (lookup_node t1 target) as [[data|]|] eqn:Hnode; [done|..];
      injection Hput as <-; [naive_solver|].
    destruct (decide (target = p)) as [<-|Hne].
    + rewrite lookup_insert_eq. assert (target ≠ []) by (by destruct target).
      rewrite lookup_node_ne in Hnode by done. rewrite Hnode. naive_solver.
    + rewrite lookup_insert_ne by done. naive_solver.
  - assert (t' = <[target := File (content m)]> t1) as ->.
    { by destruct (lookup_node t1 target) as [[data|]|]; simplify_eq. }
    destruct (decide (target = p)) as [<-|Hne].
    + rewrite lookup_insert_eq. naive_solver.
    + rewrite lookup_insert_ne by done. naive_solver.
Qed.

Lemma extractall_files members t t' p :
  extractall members t = Ok t' →
  (∃ data, t' !! p = Some (File data)) ↔
  (∃ data, t !! p = Some (File data))
  ∨ (∃ m, m ∈ members ∧ is_dir m = false ∧ p = sanitize (filename m)).
Proof.
  revert t. induction members as [|m members IH]; intros t; cbn [extractall].
  { intros [= <-]. split; [by left|]. intros [?|(m & Hin%elem_of_nil & _)]; done. }
  intros (t1 & Hm & Hrest)%bind_Ok_inv.
  rewrite (IH _ Hrest), (extract_member_files _ _ _ p Hm). split.
  - intros [[Hf|[Hd Hp]]|(m' & Hin & Hd & Hp)]; [by left|right..].
    + exists m. split_and!; [left|done|done].
    + exists m'. split_and!; [by right|done|done].
  - intros [Hf|(m' & [->|Hin]%elem_of_cons & Hd & Hp)]; [by left; left|by left; right|].
    right. by exists m'.
Qed.

(** One member keeps the tree well formed. *)
Lemma extract_member_wf t m t' :
  wf_tree t → extract_member t m = Ok t' → wf_tree t'.
Proof.
  intros Hwf. unfold extract_member. intros (t1 & Hdirs & Hput)%bind_Ok_inv.
  set (target := sanitize (filename m)) in *.
  apply ensure_dirs_ok in Hdirs as (Hsub & Hchg & Hchain).
  assert (wf_tree t1) as Hwf1.
  { intros p n Hn. destruct (Hchg p) as [Hsame|(_ & _ & pre & Hpre & Hpfx & ->)].
    - rewrite Hsame in Hn. destruct (Hwf _ _ Hn) as (Hp & Hs & Hparent).
      split_and!; [done|done|].
      destruct (dirname p) as [|x d] eqn:Hd; [done|].
      rewrite lookup_node_ne in Hparent |- * by done. by eapply lookup_weaken.
    - cbn [app] in *. destruct (dirname_prefix _ _ Hpre Hpfx) as (k & _ & Hk).
      split_and!; [done| |].
      + eapply (sanitize_prefix pre k). rewrite <- Hk. apply sanitize_idemp.
      + destruct pre as [|x pre] using rev_ind; [done|]. rewrite dirname_snoc.
        destruct pre as [|y pre]; [done|]. rewrite lookup_node_ne by done.
        apply (Hchain (y :: pre)); [done|]. etrans; [|done]. by apply prefix_app_r. }
  assert (target ≠ [] → lookup_node t1 (dirname target) = Some Dir) as Hparent.
  { intros Hne. destruct (dirname target) as [|x d] eqn:Hd; [done|].
    rewrite lookup_node_ne by done. by apply (Hchain (x :: d)). }
  assert (∀ n, target ≠ [] → lookup_node t1 target ≠ Some Dir ∨ n = Dir →
               wf_tree (<[target := n]> t1)) as Hinsert.
  { intros n Hne Hnode p n' Hn'. destruct (decide (target = p)) as [<-|Hp].
    - split_and!; [done|apply sanitize_idemp|].
      destruct (dirname target) as [|x d] eqn:Hd; [done|].
      assert (target ≠ x :: d) by (rewrite <- Hd; by apply not_eq_sym, dirname_ne).
      rewrite lookup_node_ne, lookup_insert_ne by done.
      rewrite <- (lookup_node_ne t1 (x :: d)) by done. auto.
    - rewrite lookup_insert_ne in Hn' by done.
      destruct (Hwf1 _ _ Hn') as (Hp1 & Hs1 & Hpar1). split_and!; [done|done|].
      destruct (dirname p) as [|x d] eqn:Hd; [done|].
      rewrite lookup_node_ne in Hpar1 |- * by done.
      destruct (decide (target = x :: d)) as [Heq|Hneq].
      + rewrite Heq, lookup_insert_eq. rewrite Heq, lookup_node_ne in Hnode by done.
        destruct Hnode as [Hnode| ->]; [done|done].
      + by rewrite lookup_insert_ne. }
  destruct (is_dir m).
  - destruct (lookup_node t1 target) as [[data|]|] eqn:Hnode; [done|..];
      injection Hput as <-; [done|].
    apply Hinsert; [by destruct target|by right].
  - destruct (lookup_node t1 target) as [[data|]|] eqn:Hnode; [|done|];
      injection Hput as <-; (apply Hinsert; [by destruct target|left; congruence]).
Qed.

Lemma extractall_wf members t t' :
  wf_tree t → extractall members t = Ok t' → wf_tree t'.
Proof.
  revert t. induction members as [|m members IH]; intros t Hwf; cbn [extractall].
  { by intros [= <-]. }
  intros (t1 & Hm & Hrest)%bind_Ok_inv. eapply IH; [|done].
  by eapply extract_member_wf.
Qed.
End extraction.

(** ** Unpacking what was repacked *)

Section reextraction.
Implicit Types (t : tree) (p : path) (m : ZipInfo).

(** A file of a well-formed tree [t1] unpacks into any part of [t1], and
    the result is still a part of [t1]. *)
Lemma extract_file_inside t t1 p data :
  wf_tree t1 → t ⊆ t1 → t1 !! p = Some (File data) →
  ∃ t', extract_member t {| filename := p; is_dir := false; content := data |} = Ok t'
    ∧ t ⊆ t' ∧ t' ⊆ t1 ∧ t' !! p = Some (File data).
Proof.
  intros Hwf Hsub Hp. destruct (Hwf _ _ Hp) as (Hne & Hs & _).
  unfold extract_member. cbn [filename is_dir content]. rewrite Hs.
  destruct (ensure_dirs_runs t t1 [] (dirname p)) as (t2 & Hdirs & Hsub2); [done|..].
  { intros pre Hpre Hpfx. destruct (dirname_prefix _ _ Hpre Hpfx) as (k & Hk & Heq).
    cbn [app]. eapply (wf_tree_ancestor t1 pre k); [done|done|done|]. by rewrite <- Heq. }
  rewrite Hdirs, bind_Ok. apply ensure_dirs_ok in Hdirs as (Hsub1 & _ & _).
  rewrite lookup_node_ne by done.
  assert (t2 !! p = None ∨ t2 !! p = Some (File data)) as Hcur.
  { destruct (t2 !! p) as [n|] eqn:Hn; [right|by left].
    by rewrite <- (lookup_weaken _ _ _ _ Hn Hsub2). }
  exists (<[p := File data]> t2). split_and!.
  - by destruct Hcur as [-> | ->].
  - etrans; [done|]. destruct Hcur as [Hn|Hn];
      [by apply insert_subseteq|by rewrite insert_id].
  - by apply insert_subseteq_l.
  - by rewrite lookup_insert_eq.
Qed.

Lemma extractall_inside members t t1 :
  wf_tree t1 → t ⊆ t1 →
  (∀ m, m ∈ members → is_dir m = false ∧ t1 !! filename m = Some (File (content m))) →
  ∃ t', extractall members t = Ok t' ∧ t ⊆ t' ∧ t' ⊆ t1
    ∧ ∀ m, m ∈ members → t' !! filename m = Some (File (content m)).
Proof.
  intros Hwf. revert t. induction members as [|m members IH]; intros t Hsub Hall;
    cbn [extractall].
  { exists t. split_and!; [done|done|done|]. intros m Hin. by apply elem_of_nil in Hin. }
  destruct (Hall m) as [Hdir Hm]; [left|]. destruct m as [p d data]. cbn in Hdir, Hm. subst d.
  destruct (extract_file_inside t t1 p data) as (t2 & -> & Hsub1 & Hsub2 & Hp); [done..|].
  rewrite bind_Ok. destruct (IH t2) as (t' & -> & Hsub3 & Hsub4 & Hfiles); [done|..].
  { intros m Hin. apply Hall. by right. }
  exists t'. split_and!; [done|by etrans|done|].
  intros m [->|Hin]%elem_of_cons; [|by apply Hfiles]. cbn.
  by eapply lookup_weaken.
Qed.

(** Unpacking the archive repacked from a well-formed tree succeeds, and
    gives a part of that tree with all its files. *)
Lemma extractall_repack t1 :
  wf_tree t1 →
  ∃ t2, extractall (repack t1) ∅ = Ok t2
    ∧ t2 ⊆ t1 ∧ wf_tree t2
    ∧ ∀ p data, t1 !! p = Some (File data) → t2 !! p = Some (File data).
Proof.
  intros Hwf. destruct (extractall_inside (repack t1) ∅ t1) as (t2 & Hrun & _ & Hsub & Hall).
  - done.
  - apply map_empty_subseteq.
  - intros m (p & data & -> & Hp)%repack_spec. done.
  - exists t2. split_and!; [done|done|by eapply extractall_wf, Hrun; apply wf_tree_empty|].
    intros p data Hp.
    apply (Hall {| filename := p; is_dir := false; content := data |}).
    apply repack_spec. eauto.
Qed.
End reextraction.

(** ** The orchestrator *)

Lemma chars_app (s1 s2 : string) : chars (s1 +:+ s2) = chars s1 ++ chars s2.
Proof. induction s1 as [|a s1 IH]; [done|]. cbn. by rewrite <- IH. Qed.

Lemma endswith_app (s suf : string) : endswith (s +:+ suf) suf = true.
Proof.
  unfold endswith. apply bool_decide_eq_true. rewrite chars_app.
  by apply suffix_app_r.
Qed.

(** The default output path is an [.hwpx] path again. *)
Lemma resolve_output_default hwpx_path :
  endswith (resolve_output hwpx_path None) ".hwpx" = true.
Proof.
  unfold resolve_output. cbn [default].
  unfold endswith. apply bool_decide_eq_true. rewrite chars_app.
  apply suffix_app_r. by exists (chars "_compressed").
Qed.

Lemma prepare_scratch_ok (o o' : occupant) :
  prepare_scratch o = Ok o' →
  o' = Directory ∅ ∧ (o = Absent ∨ ∃ t, o = Directory t).
Proof.
  unfold prepare_scratch. destruct o as [|data|t]; cbn; [|done|].
  - intros [= <-]. eauto.
  - intros [= <-]. eauto.
Qed.

Lemma prepare_scratch_runs (o : occupant) :
  (o = Absent ∨ ∃ t, o = Directory t) → prepare_scratch o = Ok (Directory ∅).
Proof. by intros [->|[t ->]]. Qed.

(** The archives outside the scratch directory. *)
Lemma outside_scratch_Some (w : world) (p : string) (members : archive) :
  outside_scratch w !! p = Some members ↔
  zips w !! p = Some members ∧ under_scratch w p = false.
Proof. unfold outside_scratch. by rewrite map_lookup_filter_Some. Qed.

Lemma outside_scratch_None (w : world) (p : string) :
  outside_scratch w !! p = None ↔ zips w !! p = None ∨ under_scratch w p = true.
Proof.
  unfold outside_scratch. rewrite map_lookup_filter_None. cbn [fst]. split.
  - intros [?|Hno]; [by left|]. destruct (zips w !! p) as [members|]; [|by left].
    right. specialize (Hno members eq_refl). by destruct (under_scratch w p).
  - intros [?|Hunder]; [by left|]. right. intros members _. by rewrite Hunder.
Qed.

Section orchestrator_facts.
Context `{Pillow, Base64, ElementTree, TextIO}.
Variable self : HWPXImageCompressorAdvanced.

Lemma run_stages_inv members t T A X :
  run_stages self members t = Ok (T, A, X) →
  ∃ t0 ta, extractall members t = Ok t0
    ∧ process_bindata self t0 = Ok (ta, A)
    ∧ process_contents self ta = Ok (T, X).
Proof.
  unfold run_stages. intros (t0 & Hex & Hrest)%bind_Ok_inv.
  apply bind_Ok_inv in Hrest as ([ta a] & Hbin & Hrest).
  apply bind_Ok_inv in Hrest as ([tx x] & Hxml & Heq).
  cbn [fst snd] in *. injection Heq as <- <- <-. eauto.
Qed.

Lemma run_stages_runs members t t0 ta a tx x :
  extractall members t = Ok t0 →
  process_bindata self t0 = Ok (ta, a) →
  process_contents self ta = Ok (tx, x) →
  run_stages self members t = Ok (tx, a, x).
Proof.
  intros Hex Hbin Hxml. unfold run_stages.
  rewrite Hex, bind_Ok, Hbin, bind_Ok. cbn [fst snd]. by rewrite Hxml, bind_Ok.
Qed.

(** The run once the scratch directory is made afresh. *)
Lemma process_hwpx_prepared hwpx_path output_path w :
  endswith hwpx_path ".hwpx" = true →
  (temp_dir w = Absent ∨ ∃ t, temp_dir w = Directory t) →
  process_hwpx self hwpx_path output_path w =
    let output_path := resolve_output hwpx_path output_path in
    let archives := outside_scratch w in
    match (members ← or_raise FileNotFoundError (archives !! hwpx_path);
           run_stages self members ∅) with
    | Ok (t, a, x) =>
        if under_scratch w output_path then (w, Raise OutsideModel)
        else
          match write_error w output_path with
          | None =>
              (scratch_removed w (<[output_path := repack t]> archives),
               Ok (Success (statistics a x output_path)))
          | Some e => (scratch_removed w archives, Ok (Failure (ErrorOccurred e)))
          end
    | Raise e => (scratch_removed w archives, Ok (Failure (ErrorOccurred e)))
    end.
Proof.
  intros Hext Hocc. unfold process_hwpx. rewrite Hext. cbn [negb]. cbv zeta.
  by rewrite prepare_scratch_runs.
Qed.

(** A run that reports success went through every stage. *)
Lemma process_hwpx_Success hwpx_path output_path w w' stats :
  process_hwpx self hwpx_path output_path w = (w', Ok (Success stats)) →
  endswith hwpx_path ".hwpx" = true
  ∧ (temp_dir w = Absent ∨ ∃ t, temp_dir w = Directory t)
  ∧ ∃ members tx a x,
      zips w !! hwpx_path = Some members
      ∧ under_scratch w hwpx_path = false
      ∧ run_stages self members ∅ = Ok (tx, a, x)
      ∧ under_scratch w (resolve_output hwpx_path output_path) = false
      ∧ write_error w (resolve_output hwpx_path output_path) = None
      ∧ w' = scratch_removed w
               (<[resolve_output hwpx_path output_path := repack tx]> (outside_scratch w))
      ∧ stats = statistics a x (resolve_output hwpx_path output_path).
Proof.
  unfold process_hwpx. destruct (endswith hwpx_path ".hwpx"); [|done]. cbn [negb].
  cbv zeta. destruct (prepare_scratch (temp_dir w)) as [o|e] eqn:Hprep; [|done].
  apply prepare_scratch_ok in Hprep as [-> Hocc].
  destruct (outside_scratch w !! hwpx_path) as [members|] eqn:Hzip; [|done].
  apply outside_scratch_Some in Hzip as [Hzip Hout]. cbn [or_raise].
  rewrite bind_Ok. destruct (run_stages self members ∅) as [[[tx a] x]|e] eqn:Hrun; [|done].
  destruct (under_scratch w (resolve_output hwpx_path output_path)) eqn:Hunder; [done|].
  destruct (write_error w (resolve_output hwpx_path output_path)) eqn:Hwrite; [done|].
  intros [= <- <-]. split_and!; [done|done|]. by exists members, tx, a, x.
Qed.

Lemma process_hwpx_runs hwpx_path output_path w members tx a x :
  endswith hwpx_path ".hwpx" = true →
  (temp_dir w = Absent ∨ ∃ t, temp_dir w = Directory t) →
  zips w !! hwpx_path = Some members →
  under_scratch w hwpx_path = false →
  run_stages self members ∅ = Ok (tx, a, x) →
  under_scratch w (resolve_output hwpx_path output_path) = false →
  write_error w (resolve_output hwpx_path output_path) = None →
  process_hwpx self hwpx_path output_path w =
    (scratch_removed w
       (<[resolve_output hwpx_path output_path := repack tx]> (outside_scratch w)),
     Ok (Success (statistics a x (resolve_output hwpx_path output_path)))).
Proof.
  intros Hext Hocc Hzip Hout Hrun Hunder Hwrite.
  rewrite process_hwpx_prepared by done. cbv zeta.
  rewrite (proj2 (outside_scratch_Some w hwpx_path members)) by done. cbn [or_raise].
  by rewrite bind_Ok, Hrun, Hunder, Hwrite.
Qed.

(** A run whose stages raise answers the failure, and removes the scratch
    directory. *)
Lemma process_hwpx_fails hwpx_path output_path w e :
  endswith hwpx_path ".hwpx" = true →
  (temp_dir w = Absent ∨ ∃ t, temp_dir w = Directory t) →
  (members ← or_raise FileNotFoundError (outside_scratch w !! hwpx_path);
   run_stages self members ∅) = Raise e →
  process_hwpx self hwpx_path output_path w =
    (scratch_removed w (outside_scratch w), Ok (Failure (ErrorOccurred e))).
Proof.
  intros Hext Hocc Hrun. rewrite process_hwpx_prepared by done. cbv zeta.
  by rewrite Hrun.
Qed.

(** With the output outside the scratch directory a run returns, and the
    scratch path is free afterwards. *)
Lemma process_hwpx_returns_outside hwpx_path output_path w :
  endswith hwpx_path ".hwpx" = true →
  (temp_dir w = Absent ∨ ∃ t, temp_dir w = Directory t) →
  under_scratch w (resolve_output hwpx_path output_path) = false →
  ∃ w' r, process_hwpx self hwpx_path output_path w = (w', Ok r)
    ∧ temp_dir w' = Absent
    ∧ ((∃ stats, r = Success stats) ∨ (∃ e, r = Failure (ErrorOccurred e))).
Proof.
  intros Hext Hocc Hunder. rewrite process_hwpx_prepared by done. cbv zeta.
  destruct (_ ≫= _) as [[[tx a] x]|e].
  - rewrite Hunder. destruct (write_error w _) as [e|].
    + eexists _, _. split_and!; [done|done|right; by eexists].
    + eexists _, _. split_and!; [done|done|left; by eexists].
  - eexists _, _. split_and!; [done|done|right; by eexists].
Qed.
End orchestrator_facts.

(** ** Statements about a whole run *)

Lemma same_kinds_dom (t t' : tree) : same_kinds t t' → dom t' = dom t.
Proof.
  intros Hk. apply set_eq. intros p. rewrite !elem_of_dom. specialize (Hk p).
  destruct (t !! p), (t' !! p); naive_solver.
Qed.

Lemma bindata_ok_kinds (t t' : tree) : same_kinds t t' → bindata_ok t → bindata_ok t'.
Proof.
  intros Hk [Hnofile Hnodir]. apply same_kinds_sym in Hk. split.
  - intros data Hbd. destruct (same_kinds_File _ _ _ _ Hk Hbd) as [data' Hbd'].
    by destruct (Hnofile data').
  - intros [n Hbd] f Himg Hdir. apply (Hnodir (ltac:(
      specialize (Hk bindata_path); rewrite Hbd in Hk;
      destruct (t !! bindata_path); naive_solver)) f Himg).
    by eapply same_kinds_Dir.
Qed.

Lemma contents_ok_kinds (t t' : tree) : same_kinds t t' → contents_ok t → contents_ok t'.
Proof.
  intros Hk Hok data Hc. apply same_kinds_sym in Hk.
  destruct (same_kinds_File _ _ _ _ Hk Hc) as [data' Hc']. by destruct (Hok data').
Qed.

Lemma bindata_ok_sub (t t' : tree) : t' ⊆ t → bindata_ok t → bindata_ok t'.
Proof.
  intros Hsub [Hnofile Hnodir]. split.
  - intros data Hbd. destruct (Hnofile data). by eapply lookup_weaken.
  - intros [n Hbd] f Himg Hdir. apply (Hnodir (ltac:(
      exists n; by eapply lookup_weaken)) f Himg). by eapply lookup_weaken.
Qed.

Lemma contents_ok_sub (t t' : tree) : t' ⊆ t → contents_ok t → contents_ok t'.
Proof. intros Hsub Hok data Hc. destruct (Hok data). by eapply lookup_weaken. Qed.

Lemma is_image_member_asset (f : string) (data : bytes) :
  is_image_name f = true →
  is_image_member {| filename := bindata_path ++ [f]; is_dir := false; content := data |}
  = true.
Proof.
  intros Himg. unfold is_image_member. cbn [is_dir filename negb andb bindata_path app].
  by rewrite bool_decide_eq_true_2.
Qed.

Lemma is_image_member_inv (m : ZipInfo) :
  is_image_member m = true →
  ∃ f, is_dir m = false ∧ filename m = bindata_path ++ [f] ∧ is_image_name f = true.
Proof.
  unfold is_image_member. destruct m as [[|d [|f [|? ?]]] [] data];
    cbn [is_dir filename negb andb]; try done.
  intros [->%bool_decide_eq_true Himg]%andb_true_iff. by exists f.
Qed.

Lemma is_document_member_doc (f : string) (data : bytes) :
  endswith f ".xml" = true →
  is_document_member
    {| filename := contents_path ++ [f]; is_dir := false; content := data |} = true.
Proof.
  intros Hxml. unfold is_document_member. cbn [is_dir filename negb andb contents_path app].
  by rewrite bool_decide_eq_true_2.
Qed.

(** ** What the first run leaves for the second *)

Section settling.
Context `{Pillow, Base64, ElementTree, TextIO}.
Variable self : HWPXImageCompressorAdvanced.
Implicit Types (t : tree) (c : xml_totals) (p : path) (data : bytes).

(** The libraries read back what they wrote. *)
Hypothesis text_round_trip : ∀ s s', read_text (write_text s) = Some s' → s' = s.
Hypothesis base64_round_trip : ∀ out d, b64decode (b64encode out) = Some d → d = out.
Hypothesis tostring_decodes : ∀ root, is_Some (decode_utf8 (ET_tostring root)).
Hypothesis parse_round_trip : ∀ root s root',
  decode_utf8 (ET_tostring root) = Some s → ET_fromstring s = Some root' →
  attr_values "bin" root' = attr_values "bin" root.

(** An asset the first run settles is within the budget afterwards. *)
Lemma asset_outcome_settled data :
  asset_settles self data → len (asset_outcome self data) ≤ target_size_bytes self.
Proof using Type.
  intros Hsettles. unfold asset_outcome.
  destruct (Z.leb_spec (len data) (target_size_bytes self)) as [Hle|Hgt]; [done|].
  destruct (Hsettles Hgt) as (out & tag & -> & Hle).
  destruct (Z.eqb_spec (len data) 0) as [Hz|_]; [|done].
  unfold len in *. lia.
Qed.

(** A payload the first run settles is not over the budget afterwards. *)
Lemma rewritten_payload_settled v :
  payload_settles self v → over_budget self (rewritten_payload self v) = false.
Proof using base64_round_trip.
  intros Hsettles. unfold rewritten_payload.
  destruct (over_budget self v) eqn:Hv; [|done].
  destruct (Hsettles Hv) as (d & out & tag & -> & -> & Hle). cbn [fst].
  unfold over_budget. destruct (100 <? str_len (b64encode out)); [|done]. cbn [andb].
  destruct (b64decode (b64encode out)) as [d'|] eqn:Hd; [|done].
  apply base64_round_trip in Hd as ->. apply Z.ltb_ge. lia.
Qed.

(** After its turn, a document the first run settles is settled. *)
Lemma xml_step_settles t c p data :
  lookup_node t p = Some (File data) →
  document_settles self data →
  ∃ data', lookup_node (xml_step self (t, c) p).1 p = Some (File data')
    ∧ document_settled self data'.
Proof using All.
  intros Hnode Hdoc. unfold xml_step, read_file. rewrite Hnode, bind_Ok.
  destruct (read_text data) as [text|] eqn:Htext; cbn [or_raise].
  2:{ rewrite bind_Raise. cbn [try_except fst]. exists data. split; [done|].
      intros text fp Ht. congruence. }
  rewrite bind_Ok.
  destruct (process_xml_images_cases self text (default "" (last p)))
    as [Hsame|(root & st & Hparse & Hst & Hcount & Hres)].
  - rewrite Hsame. cbn [try_except fst Z.ltb Z.compare]. exists data. split; [done|].
    intros text' fp Ht'. rewrite Htext in Ht'. injection Ht' as <-.
    change (process_xml_images self text fp)
      with (process_xml_images self text (default "" (last p))).
    by rewrite Hsame.
  - rewrite Hres. rewrite (proj2 (Z.ltb_lt _ _) Hcount).
    rewrite (write_file_File _ _ _ _ Hnode), bind_Ok.
    destruct (tostring_decodes (scan_bin self root scan_zero).1) as [s Hs]. rewrite Hs.
    destruct (lookup_node_File _ _ _ Hnode) as [Hp Ht].
    rewrite (write_file_File _ p [] (write_text s))
      by (rewrite lookup_node_ne by done; apply lookup_insert_eq).
    rewrite bind_Ok. cbn [try_except fst]. exists (write_text s). split.
    { rewrite lookup_node_ne by done. apply lookup_insert_eq. }
    intros text' fp Ht'. apply text_round_trip in Ht' as ->.
    rewrite process_xml_images_within; [done|]. intros root' Hroot'.
    rewrite (parse_round_trip _ _ _ Hs Hroot'), scan_bin_payloads.
    apply Forall_fmap.
    assert (ET_start_ns text = []) as Hns.
    { destruct (ET_start_ns text) as [|ns l] eqn:Hns; [done|].
      rewrite process_xml_images_namespaced in Hres by (by rewrite Hns).
      injection Hres as _ Hzero _ _. lia. }
    eapply Forall_impl; [by apply (Hdoc text root)|].
    intros v Hv. by apply rewritten_payload_settled.
Qed.

Lemma foldl_xml_frame files t c p :
  p ∉ files → (foldl (xml_step self) (t, c) files).1 !! p = t !! p.
Proof using Type.
  revert t c. induction files as [|q files IH]; intros t c Hnotin; [done|].
  apply not_elem_of_cons in Hnotin as [Hne Hnotin]. cbn [foldl].
  destruct (xml_step self (t, c) q) as [t1 c1] eqn:Hstep.
  rewrite IH by done. by eapply xml_step_frame.
Qed.

(** After the loop, every document it met is settled. *)
Lemma foldl_xml_settles files t c :
  NoDup files →
  (∀ p data, p ∈ files → lookup_node t p = Some (File data) → document_settles self data) →
  ∀ p data', p ∈ files →
    lookup_node (foldl (xml_step self) (t, c) files).1 p = Some (File data') →
    document_settled self data'.
Proof using All.
  revert t c. induction files as [|q files IH]; intros t c Hnd Hdocs p data' Hin.
  { by apply elem_of_nil in Hin. }
  apply NoDup_cons in Hnd as [Hq Hnd]. cbn [foldl].
  destruct (xml_step self (t, c) q) as [t1 c1] eqn:Hstep.
  apply elem_of_cons in Hin as [->|Hin].
  - intros [Hp Hfile]%lookup_node_File. rewrite foldl_xml_frame in Hfile by done.
    destruct (same_kinds_File t1 t q data') as [data0 Hq0]; [|done|].
    { by eapply same_kinds_sym, xml_step_kinds. }
    destruct (xml_step_settles t c q data0) as (d & Hd & Hsettled).
    { by rewrite lookup_node_ne. }
    { apply (Hdocs q); [left|by rewrite lookup_node_ne]. }
    rewrite Hstep in Hd. cbn [fst] in Hd. rewrite lookup_node_ne in Hd by done.
    rewrite Hfile in Hd. by injection Hd as <-.
  - apply (IH t1 c1 Hnd); [|done].
    intros p' data Hp' [Hne Hfile]%lookup_node_File.
    apply (Hdocs p'); [by right|]. rewrite lookup_node_ne by done.
    rewrite <- Hfile. symmetry. eapply xml_step_frame; [done|]. by intros ->.
Qed.
End settling.

(** The documents of the pass, each once. *)
Lemma xml_files_mem (t : tree) (files : list path) :
  xml_files t = Ok files →
  NoDup files
  ∧ ∀ p, p ∈ files ↔
      is_Some (t !! contents_path)
      ∧ ∃ f, p = contents_path ++ [f] ∧ endswith f ".xml" = true ∧ is_Some (t !! p).
Proof.
  unfold xml_files, exists_. case_bool_decide as Hex.
  - rewrite lookup_node_ne in Hex by done.
    intros (names & Hls & [= <-])%bind_Ok_inv.
    apply listdir_ok in Hls as [Hnd Hnames]. split.
    + apply NoDup_fmap_2_strong; [|by apply NoDup_filter].
      intros f g _ _ Heq. by simplify_list_eq.
    + intros p. rewrite list_elem_of_fmap. split.
      * intros (f & -> & [Hxml Hf]%list_elem_of_filter). split; [done|].
        exists f. split_and!; [done|by apply Is_true_true|by apply Hnames].
      * intros (_ & f & -> & Hxml & Hsome). exists f. split; [done|].
        apply list_elem_of_filter. split; [by apply Is_true_true|by apply Hnames].
  - intros [= <-]. split; [constructor|]. intros p. split; [by intros Hin%elem_of_nil|].
    intros [Hc _]. destruct Hex. by rewrite lookup_node_ne.
Qed.

Section run_claims.
Context `{Pillow, Base64, ElementTree, TextIO}.
Implicit Types (self : HWPXImageCompressorAdvanced) (w : world).

(** The stages of a successful run, with what they keep. *)
Lemma run_stages_ok self members tx a x :
  run_stages self members ∅ = Ok (tx, a, x) →
  ∃ t0, extractall members ∅ = Ok t0
    ∧ same_kinds t0 tx ∧ wf_tree tx ∧ bindata_ok tx ∧ contents_ok tx.
Proof.
  intros (t0 & ta & Hex & Hbin & Hxml)%run_stages_inv. exists t0.
  pose proof (process_bindata_kinds _ _ _ _ Hbin) as Hk1.
  pose proof (process_contents_kinds _ _ _ _ Hxml) as Hk2.
  assert (same_kinds t0 tx) as Hk by (by eapply same_kinds_trans).
  split_and!; [done|done|..].
  - apply (wf_tree_kinds t0); [done|]. eapply extractall_wf; [apply wf_tree_empty|done].
  - apply (bindata_ok_kinds t0); [done|]. by eapply process_bindata_ok.
  - apply (contents_ok_kinds ta); [done|]. by eapply process_contents_ok.
Qed.

(** C9, as amended.  On an [.hwpx] path: with a regular file at the scratch
    path the run raises before its [try] and leaves everything as it was.
    Otherwise a fresh, empty directory is put at the scratch path (whatever
    directory was there is gone before anything is unpacked); when a stage
    raises, the run answers the failure with the scratch directory removed
    and no archive written; and with the output outside the scratch
    directory the run returns, on success and on failure alike with
    nothing left at the scratch path, and does what it would have done had
    the scratch path been free. *)
Theorem scratch_fresh_then_removed self hwpx_path output_path w :
  endswith hwpx_path ".hwpx" = true →
  (∀ data, temp_dir w = RegularFile data →
     process_hwpx self hwpx_path output_path w = (w, Raise NotADirectoryError))
  ∧ (temp_dir w = Absent ∨ (∃ t, temp_dir w = Directory t) →
     prepare_scratch (temp_dir w) = Ok (Directory ∅)
     ∧ (∀ e, (members ← or_raise FileNotFoundError (outside_scratch w !! hwpx_path);
              run_stages self members ∅) = Raise e →
          process_hwpx self hwpx_path output_path w
          = (scratch_removed w (outside_scratch w), Ok (Failure (ErrorOccurred e))))
     ∧ (under_scratch w (resolve_output hwpx_path output_path) = false →
        (∃ w' r, process_hwpx self hwpx_path output_path w = (w', Ok r)
           ∧ temp_dir w' = Absent
           ∧ ((∃ stats, r = Success stats) ∨ (∃ e, r = Failure (ErrorOccurred e))))
        ∧ process_hwpx self hwpx_path output_path (scratch_removed w (zips w))
          = process_hwpx self hwpx_path output_path w)).
Proof.
  intros Hext. split.
  - intros data Hfile. unfold process_hwpx. by rewrite Hext, Hfile.
  - intros Hocc. split_and!.
    + by apply prepare_scratch_runs.
    + intros e. by apply process_hwpx_fails.
    + intros Hunder. split; [by apply process_hwpx_returns_outside|].
      rewrite !process_hwpx_prepared by (done || by left). cbv zeta.
      change (outside_scratch (scratch_removed w (zips w))) with (outside_scratch w).
      change (under_scratch (scratch_removed w (zips w))) with (under_scratch w).
      rewrite Hunder. by destruct (_ ≫= _) as [[[tx a] x]|e].
Qed.

(** C4, as amended. The archive a successful run writes has exactly one
    member per file of the unpacked input: its names are the names of the
    input's file members (as [zipfile] unpacks them, without empty, "." and
    ".." components), each once, and none of them is a directory entry.
    Directory entries of the input are not written. *)
Theorem repack_keeps_file_members self hwpx_path output_path w w' stats members :
  process_hwpx self hwpx_path output_path w = (w', Ok (Success stats)) →
  zips w !! hwpx_path = Some members →
  ∃ out, zips w' !! stat_output_path stats = Some out
    ∧ Forall (λ m, is_dir m = false) out
    ∧ NoDup (filename <$> out)
    ∧ list_to_set (filename <$> out) =@{gset path}
        list_to_set (sanitize ∘ filename <$> filter (λ m, is_dir m = false) members).
Proof.
  intros (_ & _ & members' & tx & a & x & Hzip & _ & Hrun & _ & _ & -> & ->)%process_hwpx_Success
    Hmem.
  rewrite Hzip in Hmem. injection Hmem as ->.
  destruct (run_stages_ok _ _ _ _ _ Hrun) as (t0 & Hex & Hk & _).
  exists (repack tx). cbn [zips scratch_removed stat_output_path statistics]. split_and!.
  - apply lookup_insert_eq.
  - apply Forall_forall. by intros m (p & data & -> & _)%repack_spec.
  - rewrite repack_filenames. apply walk_files_NoDup.
  - apply set_eq. intros p. rewrite !elem_of_list_to_set, repack_filenames.
    rewrite !list_elem_of_fmap. split.
    + intros ([q data] & -> & Hin%walk_files_spec). cbn [fst].
      destruct (same_kinds_File _ _ _ _ (same_kinds_sym _ _ Hk) Hin) as [data0 Hin0].
      destruct (proj1 (extractall_files _ _ _ q Hex)) as [[? Hnone]|(m & Hm & Hd & ->)];
        [by eexists|by rewrite lookup_empty in Hnone|].
      exists m. split; [done|]. by apply list_elem_of_filter.
    + intros (m & -> & [Hd Hm]%list_elem_of_filter). cbn [compose].
      destruct (proj2 (extractall_files _ _ _ (sanitize (filename m)) Hex)) as [data0 Hin0].
      { right. by exists m. }
      destruct (same_kinds_File _ _ _ _ Hk Hin0) as [data Hin].
      exists (sanitize (filename m), data). split; [done|by apply walk_files_spec].
Qed.

(** What a run that settles its input leaves in the scratch directory:
    every image asset within the budget, every document settled. *)
Lemma run_stages_settled self members t0 tx a x :
  (∀ s s', read_text (write_text s) = Some s' → s' = s) →
  (∀ out d, b64decode (b64encode out) = Some d → d = out) →
  (∀ root, is_Some (decode_utf8 (ET_tostring root))) →
  (∀ root s root', decode_utf8 (ET_tostring root) = Some s →
     ET_fromstring s = Some root' → attr_values "bin" root' = attr_values "bin" root) →
  extractall members ∅ = Ok t0 →
  run_stages self members ∅ = Ok (tx, a, x) →
  (∀ f data, is_image_name f = true → t0 !! (bindata_path ++ [f]) = Some (File data) →
             asset_settles self data) →
  (∀ f data, endswith f ".xml" = true → t0 !! (contents_path ++ [f]) = Some (File data) →
             document_settles self data) →
  (∀ f data, is_image_name f = true → tx !! (bindata_path ++ [f]) = Some (File data) →
             len data ≤ target_size_bytes self)
  ∧ (∀ f data, endswith f ".xml" = true → tx !! (contents_path ++ [f]) = Some (File data) →
               document_settled self data).
Proof.
  intros Htext Hb64 Hdec Hparse Hex (t0' & ta & Hex' & Hbin & Hxml)%run_stages_inv
    Hassets Hdocs.
  rewrite Hex in Hex'. injection Hex' as <-.
  assert (wf_tree t0) as Hwf0 by (eapply extractall_wf; [apply wf_tree_empty|done]).
  pose proof (process_bindata_kinds _ _ _ _ Hbin) as Hk1.
  pose proof (process_contents_kinds _ _ _ _ Hxml) as Hk2.
  assert (wf_tree ta) as Hwfa by (by eapply wf_tree_kinds).
  apply process_contents_inv in Hxml as (files & Hfiles & Hloop).
  destruct (xml_files_mem _ _ Hfiles) as [Hnd Hmem].
  assert (∀ p, p ∈ files → ∃ f, p = contents_path ++ [f] ∧ endswith f ".xml" = true)
    as Hshape.
  { intros p (_ & f & -> & Hxmlname & _)%Hmem. eauto. }
  split.
  - intros f data Himg Hf.
    assert (ta !! (bindata_path ++ [f]) = Some (File data)) as Hfa.
    { rewrite <- Hf.
      pose proof (foldl_xml_frame self files ta xml_zero (bindata_path ++ [f])) as Hfr.
      rewrite Hloop in Hfr. symmetry. apply Hfr.
      by intros (g & [=] & _)%Hshape. }
    destruct (same_kinds_File _ _ _ _ (same_kinds_sym _ _ Hk1) Hfa) as [data0 Hf0].
    destruct (Hwf0 _ _ Hf0) as (_ & _ & Hparent).
    assert (t0 !! bindata_path = Some Dir) as Hdir by exact Hparent.
    pose proof (process_bindata_member self _ _ _ f data0 Hbin) as Hm.
    rewrite Hm in Hfa; [|by eexists|done|done].
    injection Hfa as <-. apply asset_outcome_settled. by eapply Hassets.
  - intros f data Hxmlname Hf.
    destruct (same_kinds_File _ _ _ _ (same_kinds_sym _ _ Hk2) Hf) as [data1 Hf1].
    destruct (Hwfa _ _ Hf1) as (_ & _ & Hparent).
    assert (ta !! contents_path = Some Dir) as Hdir by exact Hparent.
    assert (contents_path ++ [f] ∈ files) as Hin.
    { apply Hmem. split; [by eexists|]. exists f. split_and!; [done|done|by eexists]. }
    apply (foldl_xml_settles self Htext Hb64 Hdec Hparse files ta xml_zero Hnd)
      with (p := contents_path ++ [f]); [|done|by rewrite Hloop].
    intros p d (g & -> & Hg)%Hshape [_ Hd]%lookup_node_File.
    apply (Hdocs g); [done|]. rewrite <- Hd. symmetry.
    eapply process_bindata_frame; [done|]. by intros g' _ [=].
Qed.

(** A run on an archive repacked from a scratch tree whose image assets are
    within the budget and whose documents are settled: it compresses
    nothing, counts every image asset as skipped and repacks the same
    members. *)
Lemma run_stages_on_settled self tx :
  wf_tree tx → bindata_ok tx → contents_ok tx →
  (∀ f data, is_image_name f = true → tx !! (bindata_path ++ [f]) = Some (File data) →
             len data ≤ target_size_bytes self) →
  (∀ f data, endswith f ".xml" = true → tx !! (contents_path ++ [f]) = Some (File data) →
             document_settled self data) →
  ∃ t2 c2,
    run_stages self (repack tx) ∅ = Ok (t2, c2, xml_zero)
    ∧ compressed_count c2 = 0
    ∧ skipped_count c2 = len (filter (λ m, is_image_member m = true) (repack tx))
    ∧ ∀ m, m ∈ repack t2 ↔ m ∈ repack tx.
Proof.
  intros Hwf Hbd Hct Himages Hdocs.
  destruct (extractall_repack tx Hwf) as (t2 & Hex2 & Hsub & Hwf2 & Hfiles).
  (* the asset pass *)
  destruct (process_bindata_all_small self t2)
    as (c2 & items & Hbin2 & Hcc & Hsk & Hnd & Hitems).
  { by eapply bindata_ok_sub. }
  { intros f data Himg Hf. apply (Himages f); [done|]. by eapply lookup_weaken. }
  (* the XML pass *)
  destruct (process_contents_runs self t2) as (files & Hfiles2 & Hxml2).
  { by eapply contents_ok_sub. }
  rewrite foldl_xml_settled in Hxml2.
  2:{ intros p data Hp [_ Hnode]%lookup_node_File.
      destruct (xml_files_ok _ _ Hfiles2 p Hp) as (f & -> & Hxml).
      apply (Hdocs f); [done|]. by eapply lookup_weaken. }
  pose proof (run_stages_runs self _ _ _ _ _ _ _ Hex2 Hbin2 Hxml2) as Hrun2.
  exists t2, c2. split_and!; [done|done| |].
  - (* the items of the pass are the image members of the archive *)
    rewrite Hsk. unfold len. f_equal.
    rewrite <- (length_fmap filename (filter _ (repack tx))).
    apply Permutation_length, NoDup_Permutation; [done|..].
    { eapply sublist_NoDup; [|apply fmap_sublist, sublist_filter].
      rewrite repack_filenames. apply walk_files_NoDup. }
    intros p. rewrite Hitems, list_elem_of_fmap. split.
    + intros (_ & f & data & -> & Himg & Hf).
      exists {| filename := bindata_path ++ [f]; is_dir := false; content := data |}.
      split; [done|]. apply list_elem_of_filter. split.
      * by apply is_image_member_asset.
      * apply repack_spec. eexists _, _. split; [done|]. by eapply lookup_weaken.
    + intros (m & -> & [Himg (q & data & -> & Hq)%repack_spec]%list_elem_of_filter).
      apply is_image_member_inv in Himg as (f & _ & Hname & Himg).
      cbn [filename] in *. subst q.
      pose proof (Hfiles _ _ Hq) as Hq2. destruct (Hwf2 _ _ Hq2) as (_ & _ & Hparent).
      split; [by eexists|]. by exists f, data.
  - intros m. rewrite !repack_spec. split.
    + intros (p & data & -> & Hp). exists p, data. split; [done|by eapply lookup_weaken].
    + intros (p & data & -> & Hp). exists p, data. split; [done|by apply Hfiles].
Qed.

(** C5, as amended. When the first run succeeds and settles its input (what
    [compress_image] returns for every image asset over the budget, and for
    every inline payload over the budget in a document that is scanned, is
    within the budget), the libraries read back what they wrote, the output
    path of the first run ends in [.hwpx] and the output of the second can
    be written, then the second run, on the output of the first, succeeds,
    compresses nothing, counts every image asset as skipped and writes the
    same members again. *)
Theorem second_run_skips_everything self hwpx_path output_path output_path'
    w w1 stats1 members t0 :
  (∀ s s', read_text (write_text s) = Some s' → s' = s) →
  (∀ out d, b64decode (b64encode out) = Some d → d = out) →
  (∀ root, is_Some (decode_utf8 (ET_tostring root))) →
  (∀ root s root', decode_utf8 (ET_tostring root) = Some s →
     ET_fromstring s = Some root' → attr_values "bin" root' = attr_values "bin" root) →
  process_hwpx self hwpx_path output_path w = (w1, Ok (Success stats1)) →
  zips w !! hwpx_path = Some members →
  extractall members ∅ = Ok t0 →
  (∀ f data, is_image_name f = true → t0 !! (bindata_path ++ [f]) = Some (File data) →
             asset_settles self data) →
  (∀ f data, endswith f ".xml" = true → t0 !! (contents_path ++ [f]) = Some (File data) →
             document_settles self data) →
  endswith (stat_output_path stats1) ".hwpx" = true →
  under_scratch w (resolve_output (stat_output_path stats1) output_path') = false →
  write_error w (resolve_output (stat_output_path stats1) output_path') = None →
  ∃ out w2 stats2 out2,
    zips w1 !! stat_output_path stats1 = Some out
    ∧ process_hwpx self (stat_output_path stats1) output_path' w1 = (w2, Ok (Success stats2))
    ∧ stat_compressed stats2 = 0
    ∧ stat_xml_compressed stats2 = 0
    ∧ total_all_compressed stats2 = 0
    ∧ stat_skipped stats2 = len (filter (λ m, is_image_member m = true) out)
    ∧ zips w2 !! stat_output_path stats2 = Some out2
    ∧ ∀ m, m ∈ out2 ↔ m ∈ out.
Proof.
  intros Htext Hb64 Hdec Hparse
    (_ & _ & members' & tx & a & x & Hzip & _ & Hrun & Hunder & _ & -> & ->)%process_hwpx_Success
    Hmem Hex Hassets Hdocs.
  rewrite Hzip in Hmem. injection Hmem as ->.
  cbn [zips scratch_removed stat_output_path statistics]. set (o1 := resolve_output _ _) in *.
  intros Hext Hunder2 Hwrite2.
  destruct (run_stages_ok _ _ _ _ _ Hrun) as (_ & _ & _ & Hwf & Hbd & Hct).
  destruct (run_stages_settled self members t0 tx a x Htext Hb64 Hdec Hparse Hex Hrun
              Hassets Hdocs) as [Himages Hsettled].
  destruct (run_stages_on_settled self tx Hwf Hbd Hct Himages Hsettled)
    as (t2 & c2 & Hrun2 & Hcc & Hsk & Hsame).
  exists (repack tx). eexists _, _, _. split; [apply lookup_insert_eq|]. split.
  { eapply process_hwpx_runs; [done|by left| |done|done|done|done].
    cbn [zips scratch_removed]. apply lookup_insert_eq. }
  cbn [stat_compressed stat_xml_compressed total_all_compressed stat_skipped
       stat_output_path statistics xml_compressed_count xml_zero zips scratch_removed].
  rewrite lookup_insert_eq, Hcc, Hsk. done.
Qed.
End run_claims.

(** ** Statements about the two passes *)

Section pass_claims.
Context `{Pillow, Base64, ElementTree, TextIO}.
Implicit Types (self : HWPXImageCompressorAdvanced) (t : tree).

(** C2. An image within the budget never reaches the codec: as a binary
    asset its turn leaves the tree as it is and counts it skipped, the whole
    asset pass leaves its file verbatim, and as an inline payload
    [compress_base64_image] returns the string it was given with the flag
    down; all this whatever the Pillow implementation. *)
Theorem within_budget_left_verbatim self t c f p data base64_string :
  lookup_node t p = Some (File data) →
  b64decode base64_string = Some data →
  len data ≤ target_size_bytes self →
  asset_step self (t, c) (f, p) =
    Ok (t, {| compressed_count := compressed_count c;
              total_original_size := total_original_size c + len data;
              total_compressed_size := total_compressed_size c + len data;
              skipped_count := skipped_count c + 1 |})
  ∧ (∀ t' c', process_bindata self t = Ok (t', c') → t' !! p = Some (File data))
  ∧ compress_base64_image self base64_string = (base64_string, len data, len data, false)
  ∧ ∀ other : Pillow,
      @asset_step other self (t, c) (f, p) = asset_step self (t, c) (f, p)
      ∧ @compress_base64_image other _ self base64_string
        = compress_base64_image self base64_string.
Proof.
  intros Hnode Hdec Hle.
  assert (∀ P : Pillow, @asset_step P self (t, c) (f, p) =
            Ok (t, {| compressed_count := compressed_count c;
                      total_original_size := total_original_size c + len data;
                      total_compressed_size := total_compressed_size c + len data;
                      skipped_count := skipped_count c + 1 |})) as Hstep.
  { intros P. rewrite (asset_step_File _ _ _ _ _ _ Hnode).
    rewrite asset_outcome_small, asset_tally_small by done.
    apply lookup_node_File in Hnode as [_ Hp]. by rewrite insert_id. }
  assert (∀ P : Pillow, @compress_base64_image P _ self base64_string =
            (base64_string, len data, len data, false)) as Hinline.
  { intros P. by apply compress_base64_image_small. }
  split_and!; [done| |done|].
  - intros t' c' Hpass. apply lookup_node_File in Hnode as [_ Hp].
    by eapply process_bindata_small.
  - intros other. by rewrite !Hstep, !Hinline.
Qed.

(** C6. A document that does not parse comes back from the scanner as it
    was given, with zero figures; the XML pass still returns, its result is
    the one of the pass over the other documents, and the document is left
    as it was. *)
Theorem malformed_document_skipped self t xml_content file_path before p after data :
  lookup_node t p = Some (File data) →
  read_text data = Some xml_content →
  ET_fromstring xml_content = None →
  xml_files t = Ok (before ++ p :: after) →
  process_xml_images self xml_content file_path = (Str xml_content, 0, 0, 0)
  ∧ ∃ t' c, process_contents self t = Ok (t', c)
      ∧ (t', c) = foldl (xml_step self) (t, xml_zero) (before ++ after)
      ∧ lookup_node t' p = Some (File data).
Proof.
  intros Hnode Htext Hparse Hfiles.
  split; [by apply process_xml_images_unparsed|].
  assert (malformed data) as Hbad by (by exists xml_content).
  pose proof (foldl_xml_skips_malformed self before after t xml_zero p data Hnode Hbad)
    as Hskip.
  pose proof (foldl_xml_keeps_malformed self (before ++ p :: after) t xml_zero p data
                Hnode Hbad) as Hkeep.
  unfold process_contents. rewrite Hfiles, bind_Ok.
  destruct (foldl (xml_step self) (t, xml_zero) (before ++ p :: after)) as [t' c].
  exists t', c. by rewrite Hskip.
Qed.

(** C8. The scan of a parsed document leaves every [fillImagePath] value
    as it is: the loop over that key changes nothing, the loop over [bin]
    changes nothing but values of [bin], the figures are a fold over the
    [bin] values alone, and what is returned is the text as given or the
    serialisation of that tree. *)
Theorem external_reference_untouched self xml_content file_path root :
  ET_fromstring xml_content = Some root →
  let scanned := scan_bin self root scan_zero in
  scan_fillImagePath scanned.1 = scanned.1
  ∧ erase_bin scanned.1 = erase_bin root
  ∧ attr_values "fillImagePath" scanned.1 = attr_values "fillImagePath" root
  ∧ scanned.2 = foldl (payload_totals self) scan_zero (attr_values "bin" root)
  ∧ (process_xml_images self xml_content file_path = (Str xml_content, 0, 0, 0)
     ∨ process_xml_images self xml_content file_path =
         (Bytes (ET_tostring scanned.1),
          scan_count scanned.2, scan_original scanned.2, scan_compressed scanned.2)).
Proof.
  intros Hparse scanned. split_and!.
  - apply scan_fillImagePath_id.
  - apply scan_bin_erase.
  - by apply scan_bin_attr_values.
  - apply scan_bin_totals.
  - destruct (process_xml_images_cases self xml_content file_path)
      as [Hsame|(root' & st & Hparse' & Hst & _ & Hres)]; [by left|right].
    rewrite Hparse in Hparse'. injection Hparse' as <-.
    unfold scanned. by rewrite scan_bin_totals, <- Hst.
Qed.

(** C10. An image asset over the budget that opens as an image and that
    [compress_image] returns on is replaced, under its own path, by JPEG
    bytes: what [compress_image] returns is tagged as a JPEG and is an
    output of the encoder, the asset pass writes it to the file the asset
    was read from, whatever its extension, and adds or removes no entry.
    (When [compress_image] raises, the file stays as it was.) *)
Theorem jpeg_written_under_original_name self t t' c f data img0 :
  0 ≤ target_size_bytes self →
  is_Some (t !! bindata_path) →
  is_image_name f = true →
  t !! (bindata_path ++ [f]) = Some (File data) →
  Image_open data = Some img0 →
  target_size_bytes self < len data →
  process_bindata self t = Ok (t', c) →
  match compress_image self data with
  | Ok (out, tag) =>
      tag = "jpg"
      ∧ (∃ img quality, save_jpeg img quality = Ok out)
      ∧ t' !! (bindata_path ++ [f]) = Some (File out)
  | Raise _ => t' !! (bindata_path ++ [f]) = Some (File data)
  end
  ∧ dom t' = dom t.
Proof.
  intros Hpos Hbd Himg Hf Hopen Hgt Hpass. split.
  - rewrite (process_bindata_member _ _ _ _ _ _ Hpass Hbd Himg Hf).
    destruct (compress_image self data) as [[out tag]|e] eqn:Hc.
    + destruct (compress_image_is_jpeg _ _ _ _ _ Hopen Hc) as [-> Hjpeg].
      split_and!; [done|done|].
      by destruct (asset_outcome_large self data _ _ Hpos Hgt Hc) as [-> _].
    + unfold asset_outcome. rewrite Hc. by destruct (_ <=? _).
  - apply same_kinds_dom. by eapply process_bindata_kinds.
Qed.

(** C7, as amended.  Bytes that [Image.open] rejects come back unchanged
    with the tag ['original'], nothing is raised, and only such bytes come
    back under that tag.  Bytes that open make [compress_image] raise when a
    later call into Pillow does (pixel data that does not decode); the
    payload is not altered then either: [compress_base64_image] answers the
    string it was given with the flag down, and the turn of the asset loop
    leaves the file as it is and counts nothing as compressed. *)
Theorem compress_image_undecodable self data :
  (Image_open data = None → compress_image self data = Ok (data, "original"))
  ∧ (∀ out, compress_image self data = Ok (out, "original") →
       Image_open data = None ∧ out = data)
  ∧ (∀ e, compress_image self data = Raise e →
       (∃ img0, Image_open data = Some img0)
       ∧ (∀ base64_string, b64decode base64_string = Some data →
            (compress_base64_image self base64_string).1.1.1 = base64_string
            ∧ (compress_base64_image self base64_string).2 = false)
       ∧ (∀ t c f p, lookup_node t p = Some (File data) →
            ∃ c', asset_step self (t, c) (f, p) = Ok (t, c')
              ∧ compressed_count c' = compressed_count c)).
Proof.
  split_and!.
  - intros Hopen. unfold compress_image. by rewrite Hopen.
  - intros out Hrun. destruct (Image_open data) as [img0|] eqn:Hopen.
    + by destruct (compress_image_is_jpeg _ _ _ _ _ Hopen Hrun) as [? _].
    + unfold compress_image in Hrun. rewrite Hopen in Hrun. by injection Hrun as <-.
  - intros e Hrun. split_and!.
    + destruct (Image_open data) as [img0|] eqn:Hopen; [by eexists|].
      unfold compress_image in Hrun. by rewrite Hopen in Hrun.
    + intros base64_string Hdec.
      assert ((compress_base64_image self base64_string).2 = false) as Hflag.
      { rewrite compress_base64_image_flag, Hdec, Hrun. apply andb_false_r. }
      split; [by apply compress_base64_image_kept|done].
    + intros t c f p Hnode. rewrite (asset_step_File _ _ _ _ _ _ Hnode).
      apply lookup_node_File in Hnode as [_ Hp].
      assert (asset_outcome self data = data) as ->.
      { unfold asset_outcome. rewrite Hrun. by destruct (_ <=? _). }
      rewrite insert_id by done. eexists. split; [reflexivity|].
      unfold asset_tally. rewrite Hrun. by destruct (_ <=? _).
Qed.
End pass_claims.

(** ** Further facts of the code *)

Section further_facts.
Context `{Pillow, Base64, ElementTree, TextIO}.
Implicit Types (self : HWPXImageCompressorAdvanced) (t : tree).

(** A document that declares a namespace is never scanned: the namespace
    loop unpacks the event name ['start-ns'] into two variables, which
    raises [ValueError]; the handler of [process_xml_images] returns the text
    as given with zero figures, and the turn of the XML pass changes
    nothing. *)
Theorem namespace_declaration_stops_scan self t c p data text :
  lookup_node t p = Some (File data) →
  read_text data = Some text →
  ET_start_ns text ≠ [] →
  extract_namespaces (ET_iterparse text) ∅ = Raise ValueError
  ∧ process_xml_images self text (default "" (last p)) = (Str text, 0, 0, 0)
  ∧ xml_step self (t, c) p = (t, c).
Proof.
  intros Hnode Htext Hns.
  pose proof (process_xml_images_namespaced self text (default "" (last p)) Hns) as Hsame.
  split_and!; [by apply extract_namespaces_raises|done|].
  apply xml_step_unchanged. intros data' text' Hnode' Htext'.
  rewrite Hnode in Hnode'. injection Hnode' as <-.
  rewrite Htext in Htext'. injection Htext' as <-. rewrite Hsame. eauto.
Qed.

(** An asset over the budget that does not open as an image is written back
    with its own bytes and counted as compressed. *)
Theorem undecodable_asset_counted_compressed self t c f p data :
  0 ≤ target_size_bytes self →
  lookup_node t p = Some (File data) →
  Image_open data = None →
  target_size_bytes self < len data →
  asset_step self (t, c) (f, p) =
    Ok (t, {| compressed_count := compressed_count c + 1;
              total_original_size := total_original_size c + len data;
              total_compressed_size := total_compressed_size c + len data;
              skipped_count := skipped_count c |}).
Proof.
  intros Hpos Hnode Hopen Hgt.
  assert (compress_image self data = Ok (data, "original")) as Hc.
  { unfold compress_image. by rewrite Hopen. }
  rewrite (asset_step_File _ _ _ _ _ _ Hnode).
  destruct (asset_outcome_large self data _ _ Hpos Hgt Hc) as [-> ->].
  apply lookup_node_File in Hnode as [_ Hp]. by rewrite insert_id.
Qed.
End further_facts.

Section rewrite_further.
Context `{Pillow, Base64, ElementTree, TextIO}.
Implicit Types (self : HWPXImageCompressorAdvanced) (t : tree) (c : xml_totals).

(** A document with an inline payload that is compressed (one over the
    budget on whose bytes [compress_image] returns) is rewritten: when it
    reads as text, parses, declares no namespace and the serialised tree
    decodes as UTF-8, the file ends up holding the serialised tree with
    those payloads compressed, and the counters move by their number and by
    the sum of their decoded sizes.  With no such payload the turn changes
    nothing. *)
Theorem oversized_inline_document_rewritten self t c p data text root s :
  lookup_node t p = Some (File data) →
  read_text data = Some text →
  ET_fromstring text = Some root →
  ET_start_ns text = [] →
  let counted := filter (λ v, compressed_payload self v = true) (attr_values "bin" root) in
  decode_utf8 (ET_tostring (scan_bin self root scan_zero).1) = Some s →
  (counted ≠ [] →
   ∃ comp,
     xml_step self (t, c) p
     = (<[p := File (write_text s)]> t,
        {| xml_compressed_count := xml_compressed_count c + len counted;
           xml_total_original := xml_total_original c + total (decoded_size <$> counted);
           xml_total_compressed := xml_total_compressed c + comp |}))
  ∧ (counted = [] → xml_step self (t, c) p = (t, c)).
Proof.
  intros Hnode Htext Hroot Hns. cbv zeta. intros Hdec.
  destruct (process_xml_images_over self text (default "" (last p)) root Hroot Hns)
    as (new_xml & comp & Hscan & Hstr & Hbytes).
  split.
  - intros Hover. specialize (Hbytes Hover). subst new_xml. exists comp.
    unfold xml_step, read_file. rewrite Hnode, bind_Ok, Htext. cbn [or_raise].
    rewrite bind_Ok, Hscan.
    assert ((0 <? len (filter (λ v, compressed_payload self v = true)
                         (attr_values "bin" root))) = true) as ->.
    { apply Z.ltb_lt. unfold len.
      destruct (filter (λ v, compressed_payload self v = true) (attr_values "bin" root));
        [done|].
      cbn [length]. lia. }
    rewrite (write_file_File _ _ _ _ Hnode), bind_Ok, Hdec.
    destruct (lookup_node_File _ _ _ Hnode) as [Hp Ht].
    rewrite (write_file_File _ p [] (write_text s)), bind_Ok.
    + cbn [try_except]. by rewrite insert_insert_eq.
    + rewrite lookup_node_ne by done. apply lookup_insert_eq.
  - intros Hnone. apply xml_step_unchanged. intros data' text' Hnode' Htext'.
    rewrite Hnode in Hnode'. injection Hnode' as <-.
    rewrite Htext in Htext'. injection Htext' as <-.
    rewrite Hscan, Hnone. eauto.
Qed.
End rewrite_further.

(** ** Further facts on unpacking *)

Section extraction_further.
Implicit Types (t : tree) (p : path) (m : ZipInfo).

(** A member leaves the files at other paths as they are. *)
Lemma extract_member_keeps t m t' p data :
  extract_member t m = Ok t' →
  t !! p = Some (File data) →
  is_dir m = true ∨ p ≠ sanitize (filename m) →
  t' !! p = Some (File data).
Proof.
  unfold extract_member. intros (t1 & Hdirs & Hput)%bind_Ok_inv Hp Hother.
  apply ensure_dirs_ok in Hdirs as (Hsub & _).
  assert (t1 !! p = Some (File data)) as Hp1 by (by eapply lookup_weaken).
  set (target := sanitize (filename m)) in *.
  destruct (is_dir m).
  - destruct (lookup_node t1 target) as [[data'|]|] eqn:Hnode; [done|..];
      injection Hput as <-; [done|].
    rewrite lookup_insert_ne; [done|]. intros ->.
    destruct p; [done|]. rewrite lookup_node_ne in Hnode by done. congruence.
  - destruct Hother as [?|Hne]; [done|].
    assert (t' = <[target := File (content m)]> t1) as ->.
    { by destruct (lookup_node t1 target) as [[data'|]|]; simplify_eq. }
    by rewrite lookup_insert_ne.
Qed.

(** A file member is written under its sanitised name. *)
Lemma extract_member_puts t m t' :
  extract_member t m = Ok t' → is_dir m = false →
  t' !! sanitize (filename m) = Some (File (content m)).
Proof.
  unfold extract_member. intros (t1 & Hdirs & Hput)%bind_Ok_inv Hd.
  rewrite Hd in Hput.
  destruct (lookup_node t1 (sanitize (filename m))) as [[data'|]|];
    simplify_eq; by rewrite lookup_insert_eq.
Qed.

(** Unpacking leaves the data of a file member at its sanitised name,
    provided no other file member of that name carries other data. *)
Lemma extractall_content members t t' m :
  extractall members t = Ok t' →
  (m ∈ members ∧ is_dir m = false)
  ∨ t !! sanitize (filename m) = Some (File (content m)) →
  (∀ m', m' ∈ members → is_dir m' = false →
         sanitize (filename m') = sanitize (filename m) → content m' = content m) →
  t' !! sanitize (filename m) = Some (File (content m)).
Proof.
  revert t. induction members as [|m0 members IH]; intros t; cbn [extractall].
  { intros [= <-] [[Hin%elem_of_nil _]|Hp] _; done. }
  intros (t1 & Hm0 & Hrest)%bind_Ok_inv Hcase Huniq.
  apply (IH _ Hrest); [|intros m' Hm'; apply Huniq; by right].
  destruct (is_dir m0) eqn:Hd0.
  - destruct Hcase as [[[->|Hin]%elem_of_cons Hd]|Hp]; [congruence|by left|].
    right. eapply extract_member_keeps; [done|done|by left].
  - destruct (decide (sanitize (filename m0) = sanitize (filename m))) as [Heq|Hne].
    + right. rewrite <- Heq, <- (Huniq m0) by (done || left).
      by apply (extract_member_puts t m0 t1).
    + destruct Hcase as [[[->|Hin]%elem_of_cons Hd]|Hp]; [done|by left|].
      right. eapply extract_member_keeps; [done|done|by right].
Qed.
End extraction_further.

(** ** Further facts on the run *)

Lemma outside_scratch_keep (w : world) (p : string) :
  under_scratch w p = false → outside_scratch w !! p = zips w !! p.
Proof.
  intros Hp. destruct (zips w !! p) as [members|] eqn:Hzip.
  - by apply outside_scratch_Some.
  - apply outside_scratch_None. by left.
Qed.

Lemma outside_scratch_gone (w : world) (p : string) :
  under_scratch w p = true → outside_scratch w !! p = None.
Proof. intros Hp. apply outside_scratch_None. by right. Qed.

Section run_further.
Context `{Pillow, Base64, ElementTree, TextIO}.
Implicit Types (self : HWPXImageCompressorAdvanced) (w : world) (t : tree).

(** A file whose document has no payload over the budget, or that is no
    document of the pass, comes out of the XML loop as it went in. *)
Lemma foldl_xml_keeps self files t c p data :
  lookup_node t p = Some (File data) →
  (p ∈ files → document_within self data) →
  lookup_node (foldl (xml_step self) (t, c) files).1 p = Some (File data).
Proof.
  revert t c. induction files as [|q files IH]; intros t c Hnode Hwithin; [done|].
  cbn [foldl]. destruct (xml_step self (t, c) q) as [t1 c1] eqn:Hstep.
  apply IH; [|intros Hin; apply Hwithin; by right].
  destruct (decide (q = p)) as [->|Hne].
  - rewrite xml_step_within in Hstep; [by injection Hstep as <- <-|].
    intros data' Hnode'. rewrite Hnode in Hnode'. injection Hnode' as <-.
    apply Hwithin. left.
  - apply lookup_node_File in Hnode as [Hp Ht]. rewrite lookup_node_ne by done.
    by rewrite (xml_step_frame _ _ _ _ _ _ p Hstep).
Qed.

(** Whatever needs no compression passes through a successful run byte for
    byte: a file member of the input comes out under its (sanitised) name
    with its data, unless it is an image asset over the budget or an XML
    document with an inline payload over the budget.  (When several file
    members share the name, they must carry the same data.) *)
Theorem other_members_pass_through self hwpx_path output_path w w' stats members m :
  process_hwpx self hwpx_path output_path w = (w', Ok (Success stats)) →
  zips w !! hwpx_path = Some members →
  m ∈ members →
  is_dir m = false →
  (∀ m', m' ∈ members → is_dir m' = false →
         sanitize (filename m') = sanitize (filename m) → content m' = content m) →
  (∀ f, sanitize (filename m) = bindata_path ++ [f] → is_image_name f = true →
        len (content m) ≤ target_size_bytes self) →
  (∀ f, sanitize (filename m) = contents_path ++ [f] → endswith f ".xml" = true →
        document_within self (content m)) →
  ∃ out, zips w' !! stat_output_path stats = Some out
    ∧ {| filename := sanitize (filename m); is_dir := false; content := content m |} ∈ out.
Proof.
  intros (_ & _ & members' & tx & a & x & Hzip & _ & Hrun & _ & _ & -> & ->)%process_hwpx_Success
    Hmem.
  rewrite Hzip in Hmem. injection Hmem as ->.
  intros Hin Hfile Huniq Hasset Hdoc.
  apply run_stages_inv in Hrun as (t0 & ta & Hex & Hbin & Hxml).
  exists (repack tx). cbn [zips scratch_removed stat_output_path statistics].
  split; [apply lookup_insert_eq|]. apply repack_spec. eexists _, _. split; [done|].
  set (p := sanitize (filename m)) in *.
  assert (t0 !! p = Some (File (content m))) as Hp0.
  { eapply extractall_content; [done|by left|done]. }
  assert (ta !! p = Some (File (content m))) as Hpa.
  { destruct (decide (len (content m) ≤ target_size_bytes self)) as [Hle|Hgt].
    - by eapply process_bindata_small.
    - rewrite (process_bindata_frame _ _ _ _ p Hbin); [done|].
      intros f Himg Hpf. apply Hgt. by eapply Hasset. }
  apply process_contents_inv in Hxml as (files & Hfiles & Hloop).
  destruct (extractall_wf _ _ _ wf_tree_empty Hex _ _ Hp0) as (Hne & _).
  pose proof (foldl_xml_keeps self files ta xml_zero p (content m)) as Hkeep.
  rewrite Hloop, !lookup_node_ne in Hkeep by done. apply Hkeep; [done|].
  intros (f & Hpf & Hxmlname)%(xml_files_ok _ _ Hfiles). by eapply Hdoc.
Qed.

(** With no archive at the input path once the scratch directory is made
    afresh (there never was one, or it lay under the scratch directory),
    the run fails with the error of [zipfile.ZipFile]: no archive is
    written, the archives outside the scratch directory are as they were,
    and the scratch directory, with whatever an earlier run left in it, is
    gone. *)
Theorem missing_archive_fails self hwpx_path output_path w :
  endswith hwpx_path ".hwpx" = true →
  (temp_dir w = Absent ∨ ∃ t, temp_dir w = Directory t) →
  zips w !! hwpx_path = None ∨ under_scratch w hwpx_path = true →
  process_hwpx self hwpx_path output_path w
  = (scratch_removed w (outside_scratch w), Ok (Failure (ErrorOccurred FileNotFoundError)))
  ∧ ∀ p, under_scratch w p = false →
         zips (scratch_removed w (outside_scratch w)) !! p = zips w !! p.
Proof.
  intros Hext Hscratch Hzip. split.
  - apply process_hwpx_fails; [done|done|].
    by rewrite (proj2 (outside_scratch_None w hwpx_path)).
  - intros p Hp. by apply outside_scratch_keep.
Qed.

(** When a run succeeds: once the archive unpacks, and with the output
    outside the scratch directory, the run succeeds exactly when [BinData]
    is no file and holds no image-named directory, [Contents] is no file,
    and the output archive can be written; otherwise it answers a failure,
    writes no archive and removes the scratch directory. *)
Theorem run_succeeds_iff self hwpx_path output_path w members t0 :
  endswith hwpx_path ".hwpx" = true →
  (temp_dir w = Absent ∨ ∃ t, temp_dir w = Directory t) →
  zips w !! hwpx_path = Some members →
  under_scratch w hwpx_path = false →
  under_scratch w (resolve_output hwpx_path output_path) = false →
  extractall members ∅ = Ok t0 →
  let ok := bindata_ok t0 ∧ contents_ok t0
            ∧ write_error w (resolve_output hwpx_path output_path) = None in
  (ok ∧ ∃ w' stats, process_hwpx self hwpx_path output_path w = (w', Ok (Success stats)))
  ∨ (¬ ok ∧
     ∃ e, process_hwpx self hwpx_path output_path w
          = (scratch_removed w (outside_scratch w), Ok (Failure (ErrorOccurred e)))).
Proof.
  intros Hext Hscratch Hzip Hin Hout Hex. cbv zeta.
  assert (outside_scratch w !! hwpx_path = Some members) as Hzip'
    by (by apply outside_scratch_Some).
  destruct (run_stages self members ∅) as [[[tx a] x]|e] eqn:Hrun.
  - pose proof Hrun as (t0' & ta & Hex' & Hbin & Hxml)%run_stages_inv.
    rewrite Hex in Hex'. injection Hex' as <-.
    assert (bindata_ok t0) as Hbd by (by eapply process_bindata_ok).
    assert (contents_ok t0) as Hct.
    { apply (contents_ok_kinds ta).
      - by eapply same_kinds_sym, process_bindata_kinds.
      - by eapply process_contents_ok. }
    destruct (write_error w (resolve_output hwpx_path output_path)) as [e|] eqn:Hwrite.
    + right. split; [by intros (_ & _ & ?)|]. exists e.
      rewrite process_hwpx_prepared by done. cbv zeta.
      rewrite Hzip'. cbn [or_raise]. by rewrite bind_Ok, Hrun, Hout, Hwrite.
    + left. split; [done|]. eexists _, _. by eapply process_hwpx_runs.
  - right. split.
    + intros (Hbin & Hxml & _).
      destruct (process_bindata_runs self t0 Hbin) as [[ta a] Hta].
      assert (contents_ok ta) as Hxml'.
      { apply (contents_ok_kinds t0); [|done]. by eapply process_bindata_kinds. }
      destruct (process_contents_runs self ta Hxml') as (files & _ & Htx).
      destruct (foldl (xml_step self) (ta, xml_zero) files) as [tx x] eqn:Hloop.
      by rewrite (run_stages_runs self _ _ _ _ _ _ _ Hex Hta Htx) in Hrun.
    + exists e. apply process_hwpx_fails; [done|done|].
      rewrite Hzip'. cbn [or_raise]. by rewrite bind_Ok.
Qed.
End run_further.

(** ** Further facts on the output path *)

Lemma rfind_from_notin (c : Ascii.ascii) (cs : list Ascii.ascii) (i found : Z) :
  c ∉ cs → rfind_from c cs i found = found.
Proof.
  revert i found. induction cs as [|d cs IH]; intros i found Hnotin; [done|].
  apply not_elem_of_cons in Hnotin as [Hne Hnotin]. cbn [rfind_from].
  rewrite bool_decide_eq_false_2 by congruence. by apply IH.
Qed.

Lemma rfind_from_app_notin (c : Ascii.ascii) (l1 l2 : list Ascii.ascii) (i found : Z) :
  c ∉ l2 → rfind_from c (l1 ++ l2) i found = rfind_from c l1 i found.
Proof.
  intros Hnotin. revert i found. induction l1 as [|d l1 IH]; intros i found.
  - by apply rfind_from_notin.
  - cbn [app rfind_from]. apply IH.
Qed.

Lemma rfind_from_snoc (c : Ascii.ascii) (l : list Ascii.ascii) (i found : Z) :
  rfind_from c (l ++ [c]) i found = i + len l.
Proof.
  revert i found. induction l as [|d l IH]; intros i found.
  - cbn. rewrite bool_decide_eq_true_2 by done. unfold len. cbn. lia.
  - cbn [app rfind_from]. rewrite IH. unfold len. cbn [length]. lia.
Qed.

(** The last dot of a path that ends in ".hwpx" is the dot of ".hwpx". *)
Lemma rfind_dot_hwpx (cs : list Ascii.ascii) :
  rfind "." (cs ++ chars ".hwpx") = len cs.
Proof.
  unfold rfind. change (chars ".hwpx") with (["."%char] ++ chars "hwpx").
  rewrite app_assoc, rfind_from_app_notin.
  - rewrite rfind_from_snoc. lia.
  - intros Hin. cbn in Hin. set_solver.
Qed.

Lemma slice_prefix {A} (l1 l2 : list A) : slice (l1 ++ l2) 0 (len l1) = l1.
Proof.
  unfold slice, len. rewrite Z.sub_0_r, Nat2Z.id.
  change (Z.to_nat 0) with 0%nat. by rewrite drop_0, take_app_length.
Qed.

Lemma slice_middle {A} (l1 l2 l3 : list A) :
  slice (l1 ++ l2 ++ l3) (len l1) (len l1 + len l2) = l2.
Proof.
  unfold slice, len. rewrite Nat2Z.id, drop_app_length.
  replace (Z.of_nat (length l1) + Z.of_nat (length l2) - Z.of_nat (length l1))
    with (Z.of_nat (length l2)) by lia.
  by rewrite Nat2Z.id, take_app_length.
Qed.

Lemma append_assoc (s1 s2 s3 : string) : (s1 +:+ s2) +:+ s3 = s1 +:+ s2 +:+ s3.
Proof.
  induction s1 as [|a s1 IH]; [done|].
  change (String a ((s1 +:+ s2) +:+ s3) = String a (s1 +:+ s2 +:+ s3)). by rewrite IH.
Qed.

Lemma string_of_chars_app (s1 s2 : string) :
  String.string_of_list_ascii (chars s1 ++ chars s2) = s1 +:+ s2.
Proof.
  rewrite <- chars_app. apply String.string_of_list_ascii_of_string.
Qed.

(** Where the output goes when no output path is given: beside the input,
    with "_compressed" put before the extension.  When the file name is
    nothing but dots before ".hwpx", [os.path.splitext] finds no extension,
    and "_compressed.hwpx" is put after the whole name. *)
Theorem default_output_name (dir name : string) :
  dir = "" ∨ endswith dir "/" = true →
  "/"%char ∉ chars name →
  resolve_output (dir +:+ name +:+ ".hwpx") None =
    if existsb (λ c, bool_decide (c ≠ "."%char)) (chars name)
    then dir +:+ name +:+ "_compressed.hwpx"
    else dir +:+ name +:+ ".hwpx" +:+ "_compressed.hwpx".
Proof.
  intros Hdir Hname. unfold resolve_output, splitext_root. cbn [default]. cbv zeta.
  rewrite !chars_app.
  assert (rfind "." (chars dir ++ chars name ++ chars ".hwpx") = len (chars dir ++ chars name))
    as ->.
  { rewrite app_assoc. apply rfind_dot_hwpx. }
  assert (rfind "/" (chars dir ++ chars name ++ chars ".hwpx") + 1 = len (chars dir)) as Hsep.
  { unfold rfind. rewrite rfind_from_app_notin.
    - destruct Hdir as [->|Hslash]; [done|].
      apply bool_decide_eq_true in Hslash as [pre Hpre].
      change (chars "/") with (["/"%char]) in Hpre. rewrite Hpre, rfind_from_snoc.
      unfold len. rewrite length_app. cbn [length]. lia.
    - intros [Hin|Hin]%elem_of_app; [done|]. cbn in Hin. set_solver. }
  rewrite Hsep.
  assert (len (chars dir ++ chars name) = len (chars dir) + len (chars name)) as Hlen.
  { unfold len. rewrite length_app. lia. }
  replace (rfind "/" (chars dir ++ chars name ++ chars ".hwpx")
           <? len (chars dir ++ chars name)) with true
    by (symmetry; apply Z.ltb_lt; unfold len in *; lia).
  cbn [andb]. rewrite Hlen at 1. rewrite slice_middle.
  destruct (existsb _ (chars name)).
  - rewrite app_assoc, slice_prefix, string_of_chars_app.
    by rewrite append_assoc.
  - by rewrite !append_assoc.
Qed.

(** The default output path is never the input path. *)
Lemma resolve_output_fresh (hwpx_path : string) :
  endswith hwpx_path ".hwpx" = true → resolve_output hwpx_path None ≠ hwpx_path.
Proof.
  intros [pre Hpre]%bool_decide_eq_true Heq.
  apply (f_equal (λ s, length (chars s))) in Heq. revert Heq.
  unfold resolve_output, splitext_root. cbn [default]. cbv zeta.
  rewrite Hpre, rfind_dot_hwpx, slice_prefix.
  destruct (_ && _); rewrite chars_app, ?String.list_ascii_of_string_of_list_ascii,
    ?Hpre, !length_app; cbn [length chars String.list_ascii_of_string]; lia.
Qed.

(** The directory of a path *)

Lemma dir_prefix_notin (cs : list Ascii.ascii) : "/"%char ∉ cs → dir_prefix cs = [].
Proof.
  induction cs as [|c cs IH]; [done|]. intros [Hne Hnotin]%not_elem_of_cons.
  cbn [dir_prefix]. rewrite IH by done.
  rewrite bool_decide_eq_false_2 by congruence.
  by rewrite bool_decide_eq_false_2 by (intros Hx; by apply Hx).
Qed.

Lemma dir_prefix_app_notin (cs rest : list Ascii.ascii) :
  "/"%char ∉ rest → dir_prefix (cs ++ rest) = dir_prefix cs.
Proof.
  intros Hnotin. induction cs as [|c cs IH].
  - by apply dir_prefix_notin.
  - cbn [app dir_prefix]. by rewrite IH.
Qed.

Lemma rfind_from_lower (c : Ascii.ascii) (cs : list Ascii.ascii) (i found : Z) :
  found < i → found ≤ rfind_from c cs i found.
Proof.
  revert i found. induction cs as [|d cs IH]; intros i found Hlt; [done|].
  cbn [rfind_from]. case_bool_decide.
  - etrans; [|apply IH]; lia.
  - apply IH. lia.
Qed.

(** No occurrence lies after the index [rfind] answers. *)
Lemma rfind_from_index (c : Ascii.ascii) (cs : list Ascii.ascii) (i found : Z) (k : nat) :
  cs !! k = Some c → found < i → i + Z.of_nat k ≤ rfind_from c cs i found.
Proof.
  revert i found k. induction cs as [|d cs IH]; intros i found k Hk Hlt; [done|].
  cbn [rfind_from]. destruct k as [|k].
  - injection Hk as ->. rewrite bool_decide_eq_true_2 by done.
    etrans; [|apply rfind_from_lower]; lia.
  - cbn in Hk. etrans; [|apply (IH _ _ k Hk)]; [lia|]. case_bool_decide; lia.
Qed.

Lemma rfind_drop (c : Ascii.ascii) (cs : list Ascii.ascii) (n : nat) :
  rfind c cs < Z.of_nat n → c ∉ drop n cs.
Proof.
  intros Hlt [k Hk]%list_elem_of_lookup. rewrite lookup_drop in Hk.
  apply (rfind_from_index c cs 0 (-1)) in Hk; [|lia]. unfold rfind in Hlt. lia.
Qed.

(** The default output lies in the directory of the input. *)
Lemma directory_resolve_output (hwpx_path : string) :
  directory (resolve_output hwpx_path None) = directory hwpx_path.
Proof.
  unfold directory, resolve_output, splitext_root. cbn [default]. cbv zeta. f_equal.
  assert ("/"%char ∉ chars "_compressed.hwpx") as Hsuffix.
  { intros Hin. cbn in Hin. set_solver. }
  destruct (_ && _) eqn:Hcond.
  - apply andb_true_iff in Hcond as [Hlt%Z.ltb_lt _].
    rewrite chars_app. unfold chars at 1.
    rewrite String.list_ascii_of_string_of_list_ascii, dir_prefix_app_notin by done.
    pose proof (rfind_from_lower "/" (chars hwpx_path) 0 (-1)) as Hsep.
    fold (rfind "/" (chars hwpx_path)) in Hsep.
    unfold slice. rewrite Z.sub_0_r. change (Z.to_nat 0) with 0%nat. rewrite drop_0.
    set (n := Z.to_nat (rfind "." (chars hwpx_path))).
    rewrite <- (dir_prefix_app_notin (take n (chars hwpx_path)) (drop n (chars hwpx_path))).
    + by rewrite take_drop.
    + apply rfind_drop. lia.
  - rewrite chars_app. by apply dir_prefix_app_notin.
Qed.

Section output_further.
Context `{Pillow, Base64, ElementTree, TextIO}.

(** A run without an output path never overwrites its input: whether it
    succeeds, fails or raises, an input outside the scratch directory and
    every other archive outside it, the default output apart, are left as
    they were.  (What lies under the scratch directory is gone once the
    scratch directory is made afresh.) *)
Theorem default_output_spares_input (self : HWPXImageCompressorAdvanced)
    (hwpx_path : string) (w : world) :
  under_scratch w hwpx_path = false →
  let w' := (process_hwpx self hwpx_path None w).1 in
  zips w' !! hwpx_path = zips w !! hwpx_path
  ∧ (∀ p, p ≠ resolve_output hwpx_path None → under_scratch w p = false →
          zips w' !! p = zips w !! p)
  ∧ (∀ p, under_scratch w p = true → zips w' !! p = zips w !! p ∨ zips w' !! p = None).
Proof.
  intros Hin. cbv zeta. unfold process_hwpx.
  destruct (endswith hwpx_path ".hwpx") eqn:Hext; cbn [negb];
    [|split_and!; [done|done|by left]].
  destruct (prepare_scratch (temp_dir w)) as [[|data|t]|e];
    [split_and!; [done|done|by left]..| |split_and!; [done|done|by left]].
  assert (under_scratch w (resolve_output hwpx_path None) = false) as Hout.
  { unfold under_scratch. by rewrite directory_resolve_output. }
  rewrite Hout.
  assert (∀ archives : gmap string archive,
            (∀ p, p ≠ resolve_output hwpx_path None → archives !! p = outside_scratch w !! p) →
            zips (scratch_removed w archives) !! hwpx_path = zips w !! hwpx_path
            ∧ (∀ p, p ≠ resolve_output hwpx_path None → under_scratch w p = false →
                    zips (scratch_removed w archives) !! p = zips w !! p)
            ∧ (∀ p, under_scratch w p = true →
                    zips (scratch_removed w archives) !! p = zips w !! p
                    ∨ zips (scratch_removed w archives) !! p = None)) as Hkeep.
  { intros archives Hsame. cbn [zips scratch_removed]. split_and!.
    - rewrite Hsame by (apply not_eq_sym; by apply resolve_output_fresh).
      by apply outside_scratch_keep.
    - intros p Hp Hpout. rewrite Hsame by done. by apply outside_scratch_keep.
    - intros p Hp. right. rewrite Hsame; [by apply outside_scratch_gone|].
      intros ->. congruence. }
  destruct (_ ≫= _) as [[[tx a] x]|e]; [|by apply Hkeep].
  destruct (write_error w _); cbn [fst]; apply Hkeep; [done|].
  intros p Hp. by rewrite lookup_insert_ne.
Qed.
End output_further.

(** ** The front end *)

Lemma filter_all {A} (P : A → Prop) `{!∀ x, Decision (P x)} (l : list A) :
  Forall P l → filter P l = l.
Proof.
  induction 1 as [|x l Hx _ IH]; [done|]. by rewrite filter_cons_True, IH.
Qed.

Lemma lstrip_head (cs remove : list Ascii.ascii) (c : Ascii.ascii) :
  head (lstrip cs remove) = Some c → c ∉ remove.
Proof.
  induction cs as [|d cs IH]; [done|]. cbn [lstrip]. case_bool_decide as Hd; [done|].
  by intros [= <-].
Qed.

Lemma lstrip_suffix (cs remove : list Ascii.ascii) : lstrip cs remove `suffix_of` cs.
Proof.
  induction cs as [|d cs IH]; [done|]. cbn [lstrip]. case_bool_decide; [|done].
  by apply suffix_cons_r.
Qed.

Lemma lstrip_last (cs remove : list Ascii.ascii) (c : Ascii.ascii) :
  last cs = Some c → c ∉ remove → last (lstrip cs remove) = Some c.
Proof.
  intros Hlast Hc. induction cs as [|d cs IH]; [done|]. cbn [lstrip].
  case_bool_decide as Hd; [|done]. apply IH.
  destruct cs as [|e cs]; [|done]. cbn in Hlast. by simplify_eq.
Qed.

Lemma strip_ends (cs remove : list Ascii.ascii) (c : Ascii.ascii) :
  let stripped := reverse (lstrip (reverse (lstrip cs remove)) remove) in
  head stripped = Some c ∨ last stripped = Some c → c ∉ remove.
Proof.
  cbv zeta. rewrite head_reverse, last_reverse. intros [Hlast|Hhead].
  - destruct (lstrip_suffix (reverse (lstrip cs remove)) remove) as [k Hk].
    apply (lstrip_head cs remove).
    by rewrite <- last_reverse, Hk, last_app, Hlast.
  - by eapply lstrip_head.
Qed.

(** Every size the radio buttons offer gives a positive budget. *)
Lemma sizes_budget_positive (kb : Z) :
  kb ∈ sizes → 0 < target_size_bytes (new_compressor kb).
Proof.
  unfold sizes. intros Hin.
  repeat (apply elem_of_cons in Hin as [->|Hin]; [done|]). by apply elem_of_nil in Hin.
Qed.

Section front_end_facts.
Context `{Pillow, Base64, ElementTree, TextIO, Desktop}.
Implicit Types (gui : HWPXCompressorGUI) (w : world) (files : list string).

(** A path ending in something other than ".hwpx" is refused at once, and
    nothing is touched. *)
Lemma process_hwpx_refuses self hwpx_path output_path w :
  endswith hwpx_path ".hwpx" = false →
  process_hwpx self hwpx_path output_path w = (w, Ok (Failure NotHwpx)).
Proof. intros Hext. unfold process_hwpx. by rewrite Hext. Qed.

(** With no regular file at the scratch path, a run without an output path
    returns, and leaves the scratch path free or everything as it was. *)
Lemma process_hwpx_returns self hwpx_path w :
  temp_dir w = Absent ∨ (∃ t, temp_dir w = Directory t) →
  ∃ w' r, process_hwpx self hwpx_path None w = (w', Ok r)
    ∧ (temp_dir w' = Absent ∨ w' = w).
Proof.
  intros Hscratch.
  destruct (endswith hwpx_path ".hwpx") eqn:Hext.
  2:{ exists w, (Failure NotHwpx). unfold process_hwpx. rewrite Hext. by split; [|right]. }
  destruct (outside_scratch w !! hwpx_path) as [members|] eqn:Hzip.
  - apply outside_scratch_Some in Hzip as [_ Hin].
    destruct (process_hwpx_returns_outside self hwpx_path None w) as (w' & r & -> & Hw' & _);
      [done|done| |by eauto].
    unfold under_scratch. by rewrite directory_resolve_output.
  - rewrite (process_hwpx_fails self hwpx_path None w FileNotFoundError);
      [by eauto|done|done|by rewrite Hzip].
Qed.

Lemma process_each_refused self files w success :
  Forall (λ f, endswith f ".hwpx" = false) files →
  process_each self files w success = (w, Ok success).
Proof.
  induction 1 as [|f files Hf _ IH]; [done|]. cbn [process_each].
  by rewrite process_hwpx_refuses.
Qed.

Lemma process_each_returns self files w success :
  temp_dir w = Absent ∨ (∃ t, temp_dir w = Directory t) →
  ∃ w' success', process_each self files w success = (w', Ok success')
    ∧ success ≤ success' ≤ success + len files
    ∧ (temp_dir w' = Absent ∨ temp_dir w' = temp_dir w).
Proof.
  revert w success. induction files as [|f files IH]; intros w success Hscratch.
  { exists w, success. unfold len. cbn. split_and!; [done|lia|lia|by right]. }
  cbn [process_each].
  destruct (process_hwpx_returns self f w Hscratch) as (w1 & r & -> & Hw1).
  assert (temp_dir w1 = Absent ∨ (∃ t, temp_dir w1 = Directory t)) as Hscratch1.
  { destruct Hw1 as [->| ->]; [by left|done]. }
  assert (temp_dir w1 = Absent ∨ temp_dir w1 = temp_dir w) as Hw1'.
  { destruct Hw1 as [?| ->]; [by left|by right]. }
  destruct r as [stats|msg].
  - destruct (IH w1 (success + 1) Hscratch1) as (w' & success' & -> & Hle & Hw').
    exists w', success'. unfold len in *. cbn [length]. split_and!; [done|lia|lia|].
    destruct Hw' as [?|Hw']; [by left|]. by rewrite Hw'.
  - destruct (IH w1 success Hscratch1) as (w' & success' & -> & Hle & Hw').
    exists w', success'. unfold len in *. cbn [length]. split_and!; [done|lia|lia|].
    destruct Hw' as [?|Hw']; [by left|]. by rewrite Hw'.
Qed.

(** The front end takes a dropped file for an HWPX file whatever the case
    of its extension, the compressor only when the extension is in lower
    case: dropped files named [X.HWPX] are handed to the thread, each is
    refused by [process_hwpx], nothing is read or written, and the status
    line reports 0 successes. *)
Theorem unlowered_extension_accepted_then_refused gui w data files :
  is_processing gui = false →
  parse_drop_files w data = files →
  files ≠ [] →
  Forall (λ f, endswith (lower f) ".hwpx" = true ∧ endswith f ".hwpx" = false) files →
  on_drop gui w data = (gui, Some files)
  ∧ process_files gui files w
    = ({| is_processing := false; size_var := size_var gui;
          status_label := (PartlyCompleted 0 (len files), "#f39c12") |},
       w, Ok ()).
Proof.
  intros Hidle Hparse Hne Hfiles. split.
  - unfold on_drop. rewrite Hidle, Hparse.
    rewrite (filter_all (λ f, endswith (lower f) ".hwpx" = true)).
    + by rewrite bool_decide_eq_false_2.
    + eapply Forall_impl; [done|]. by intros f [? _].
  - unfold process_files. cbv zeta. rewrite process_each_refused.
    + rewrite bool_decide_eq_false_2; [done|].
      unfold len. destruct files; [done|]. cbn [length]. lia.
    + eapply Forall_impl; [done|]. by intros f [_ ?].
Qed.

(** With no regular file at the scratch path, [process_files] goes through
    the whole batch whatever happens to each file, and lowers the
    processing flag at the end; the status line reports how many of the
    runs succeeded. *)
Theorem process_files_completes gui files w :
  temp_dir w = Absent ∨ (∃ t, temp_dir w = Directory t) →
  ∃ w' success,
    process_each (new_compressor (size_var gui)) files w 0 = (w', Ok success)
    ∧ 0 ≤ success ≤ len files
    ∧ (temp_dir w' = Absent ∨ temp_dir w' = temp_dir w)
    ∧ process_files gui files w
      = ({| is_processing := false; size_var := size_var gui;
            status_label :=
              if bool_decide (success = len files)
              then (Completed success (len files), "#27ae60")
              else (PartlyCompleted success (len files), "#f39c12") |},
         w', Ok ()).
Proof.
  intros Hscratch.
  destruct (process_each_returns (new_compressor (size_var gui)) files w 0 Hscratch)
    as (w' & success & Hloop & Hle & Hw').
  exists w', success. split_and!; [done|lia|lia|done|].
  unfold process_files. cbv zeta. cbn [size_var]. rewrite Hloop.
  by case_bool_decide.
Qed.

(** With a regular file at the scratch path, the first run on an [.hwpx]
    path raises out of [process_hwpx], and so out of [process_files], before
    the processing flag is lowered: from then on every drop is refused
    with the "already processing" message. *)
Theorem scratch_file_blocks_front_end gui f files w data :
  temp_dir w = RegularFile data →
  endswith f ".hwpx" = true →
  let gui' := {| is_processing := true; size_var := size_var gui;
                 status_label := status_label gui |} in
  process_files gui (f :: files) w = (gui', w, Raise NotADirectoryError)
  ∧ ∀ w' dropped,
      on_drop gui' w' dropped
      = ({| is_processing := true; size_var := size_var gui;
            status_label := (AlreadyProcessing, "#f39c12") |}, None).
Proof.
  intros Hscratch Hext. cbv zeta. split; [|done].
  unfold process_files. cbv zeta. cbn [process_each]. unfold process_hwpx.
  rewrite Hext, Hscratch. done.
Qed.

(** The paths [parse_drop_files] answers exist, and none of them begins or
    ends with a brace: a dropped file whose own name does is looked up
    under the stripped name. *)
Theorem parse_drop_files_stripped w data f :
  f ∈ parse_drop_files w data →
  os_path_exists w f = true
  ∧ (∃ item, item ∈ splitlist data ∧ f = strip item "{}")
  ∧ (∀ c, head (chars f) = Some c ∨ last (chars f) = Some c → c ∉ chars "{}").
Proof.
  unfold parse_drop_files.
  intros [Hex (item & -> & Hitem)%list_elem_of_fmap]%list_elem_of_filter.
  split_and!; [done|by exists item|].
  intros c. unfold strip. unfold chars at 1 3.
  rewrite !String.list_ascii_of_string_of_list_ascii. apply strip_ends.
Qed.
End front_end_facts.

(** ** Colour modes *)

Section normalize_facts.
Context `{Pillow}.
(** What Pillow documents of the modes of its results. *)
Hypothesis mode_new : ∀ m sz color img, Image_new m sz color = Ok img → mode img = m.
Hypothesis mode_convert : ∀ img m img', convert img m = Ok img' → mode img' = m.
Hypothesis mode_paste : ∀ background img mask pasted,
  paste background img mask = Ok pasted → mode pasted = mode background.

(** Every image handed to the JPEG encoder is in mode RGB.  An RGB image
    is taken as it is; an image with transparency (RGBA, LA, or a palette
    image, converted to RGBA first) is pasted on a white background of its
    size through its last band; any other image is converted.  A call that
    raises ends the normalisation with its exception. *)
Theorem normalize_gives_rgb (img : Image) :
  (∀ img', normalize img = Ok img' → mode img' = "RGB")
  ∧ (mode img = "RGB" → normalize img = Ok img)
  ∧ (mode img = "P" →
     normalize img
     = (background ← Image_new "RGB" (size img) (255, 255, 255);
        rgba ← convert img "RGBA";
        band ← last_band rgba;
        paste background rgba (Some band)))
  ∧ (mode img = "RGBA" ∨ mode img = "LA" →
     normalize img
     = (background ← Image_new "RGB" (size img) (255, 255, 255);
        band ← last_band img;
        paste background img (Some band)))
  ∧ (mode img ∉ ["RGBA"; "LA"; "P"; "RGB"] → normalize img = convert img "RGB").
Proof using All.
  unfold normalize. split_and!.
  - intros img'. case_bool_decide as Hm.
    + intros (bg & Hbg & Hrest)%bind_Ok_inv.
      apply bind_Ok_inv in Hrest as (img1 & _ & Hrest).
      apply bind_Ok_inv in Hrest as (mask & _ & Hpaste).
      by rewrite (mode_paste _ _ _ _ Hpaste), (mode_new _ _ _ _ Hbg).
    + case_bool_decide as Hrgb; [by apply mode_convert|].
      intros [= <-]. by destruct (decide (mode img = "RGB")).
  - intros Hm. rewrite Hm. done.
  - intros Hm. rewrite Hm.
    assert (bool_decide ("P" ∈ ["RGBA"; "LA"; "P"]) = true) as -> by done.
    assert (bool_decide ("P" = "P") = true) as -> by done.
    destruct (Image_new "RGB" (size img) (255, 255, 255)) as [bg|e]; [|done].
    rewrite !bind_Ok. destruct (convert img "RGBA") as [rgba|e] eqn:Hc; [|done].
    rewrite !bind_Ok, (mode_convert _ _ _ Hc).
    assert (bool_decide ("RGBA" ∈ ["RGBA"; "LA"]) = true) as -> by done.
    by destruct (last_band rgba).
  - intros Hm.
    rewrite bool_decide_eq_true_2 by (destruct Hm as [-> | ->]; set_solver).
    destruct (Image_new "RGB" (size img) (255, 255, 255)) as [bg|e]; [|done].
    rewrite bool_decide_eq_false_2 by (destruct Hm as [-> | ->]; done).
    rewrite !bind_Ok.
    rewrite bool_decide_eq_true_2 by (destruct Hm as [-> | ->]; set_solver).
    by destruct (last_band img).
  - intros Hm. rewrite bool_decide_eq_false_2 by set_solver.
    rewrite bool_decide_eq_true_2; [done|]. set_solver.
Qed.
End normalize_facts.

(** ** Progress reports *)

Lemma progress_ok_spec (n idx : Z) :
  1 ≤ n ≤ 300 →
  0 ≤ idx < n →
  0 ≤ asset_progress idx n ≤ 99
  ∧ 80 ≤ xml_progress idx n ≤ 94
  ∧ xml_progress 0 n = 80
  ∧ (6 ≤ n → 80 < asset_progress (n - 1) n).
Proof.
  intros Hn Hidx.
  assert (forallb progress_ok (seqZ 1 300) = true) as Hall by (vm_compute; reflexivity).
  rewrite forallb_forall in Hall.
  assert (progress_ok n = true) as Hok.
  { apply Hall, list_elem_of_In, elem_of_seqZ. lia. }
  unfold progress_ok in Hok.
  apply andb_true_iff in Hok as [[Heach Hfirst]%andb_true_iff Hlast].
  rewrite forallb_forall in Heach.
  assert (In idx (seqZ 0 n)) as Hin by (apply list_elem_of_In, elem_of_seqZ; lia).
  apply Heach in Hin. repeat (apply andb_true_iff in Hin as [Hin ?]).
  apply orb_true_iff in Hlast. split_and!; [lia..| |]; [by apply Z.eqb_eq|].
  intros Hsix. destruct Hlast as [?|?]; lia.
Qed.

(** The progress bar steps back.  In a run over up to 300 images and up to
    300 documents, the percentage reported for an image lies between 0 and
    99 and that for a document between 80 and 94; with six or more images,
    the first document reports less than the last image did. *)
Theorem progress_steps_back (total_images len_xml_files i j : Z) :
  1 ≤ total_images ≤ 300 →
  1 ≤ len_xml_files ≤ 300 →
  0 ≤ i < total_images →
  0 ≤ j < len_xml_files →
  0 ≤ asset_progress i total_images ≤ 99
  ∧ 80 ≤ xml_progress j len_xml_files ≤ 94
  ∧ (6 ≤ total_images →
     xml_progress 0 len_xml_files < asset_progress (total_images - 1) total_images).
Proof.
  intros Hn Hm Hi Hj.
  destruct (progress_ok_spec total_images i Hn Hi) as (Ha & _ & _ & Hlast).
  destruct (progress_ok_spec len_xml_files j Hm Hj) as (_ & Hx & Hfirst & _).
  split_and!; [lia..|]. intros Hsix. specialize (Hlast Hsix). lia.
Qed.

(** * The model at work on the toy libraries *)

Import Toy.

Example splitext_root_dotfile : splitext_root "docs.d/.hwpx" = "docs.d/.hwpx".
Proof. reflexivity. Qed.

Example is_image_name_upper : is_image_name "Pic.PNG" = true.
Proof. reflexivity. Qed.

Example directory_of_path : directory "docs/old/report.hwpx" = "docs/old/".
Proof. reflexivity. Qed.

(** The three ways for [compress_image] to return: a quality level fits, a
    scale level fits, or the fall-back is returned over the budget. *)
Example compress_quality_hit :
  compress_image one_kb (picture 30 1100) = Ok (toy_encoding 300 300 10, "jpg").
Proof. vm_compute. reflexivity. Qed.

Example compress_scale_hit :
  compress_image one_kb (picture 32 1100) = Ok (toy_encoding 96 96 85, "jpg").
Proof. vm_compute. reflexivity. Qed.

Example compress_fallback :
  compress_image one_kb (picture 44 1100) = Ok (toy_encoding 132 132 60, "jpg")
  ∧ len (toy_encoding 132 132 60) = 1047.
Proof. split; vm_compute; reflexivity. Qed.

(** A truncated inline picture stays as it is, uncounted. *)
Example truncated_inline_kept :
  compress_base64_image one_kb (String.string_of_list_byte (truncated_picture 30 1100))
  = (String.string_of_list_byte (truncated_picture 30 1100), 0, 0, false).
Proof. vm_compute. reflexivity. Qed.

(** Checks by evaluation. *)
Lemma over_check (self : HWPXImageCompressorAdvanced) (r : result bytes) :
  match r with
  | Ok output => target_size_bytes self <? len output
  | Raise _ => false
  end = true →
  over self r.
Proof. destruct r as [output|e]; [|done]. intros Hgt%Z.ltb_lt. by exists output. Qed.

Lemma returns_check {A} (r : result A) : is_returned r = true → returns r.
Proof. destruct r as [a|e]; [|done]. intros _. by exists a. Qed.

Lemma tree_files_check (P : path → bytes → bool) (t : tree) :
  forallb (λ pn, match pn.2 with File data => P pn.1 data | Dir => true end)
          (map_to_list t) = true →
  ∀ p data, t !! p = Some (File data) → P p data = true.
Proof.
  intros Hall p data Hp. rewrite forallb_forall in Hall.
  apply elem_of_map_to_list, list_elem_of_In in Hp. exact (Hall (p, File data) Hp).
Qed.

(** The toy libraries read back what they wrote. *)
Lemma toy_text_round_trip (s s' : string) : read_text (write_text s) = Some s' → s' = s.
Proof. intros [= <-]. apply String.string_of_list_byte_of_string. Qed.

Lemma toy_base64_round_trip (out d : bytes) : b64decode (b64encode out) = Some d → d = out.
Proof. intros [= <-]. apply String.list_byte_of_string_of_list_byte. Qed.

Lemma toy_tostring_decodes (root : Element) : is_Some (decode_utf8 (ET_tostring root)).
Proof. by eexists. Qed.

Lemma toy_parse_round_trip (root : Element) (s : string) (root' : Element) :
  decode_utf8 (ET_tostring root) = Some s → ET_fromstring s = Some root' →
  attr_values "bin" root' = attr_values "bin" root.
Proof.
  intros [= <-].
  destruct root as [tag outer text tail [|[tag2 inner text2 tail2 [|c2 cs2]] [|c cs]]];
    try (by intros Hparse; vm_compute in Hparse).
  cbn [ET_tostring element_tree].
  destruct (outer !! "bin") as [v|] eqn:Houter; [by intros Hparse; vm_compute in Hparse|].
  destruct (inner !! "bin") as [payload|] eqn:Hinner;
    [|by intros Hparse; vm_compute in Hparse].
  rewrite String.string_of_list_byte_of_string. cbn [ET_fromstring element_tree].
  intros [= <-]. rewrite !attr_values_Elem. cbn [fmap list_fmap concat app].
  rewrite !attr_values_Elem. cbn [fmap list_fmap concat app].
  rewrite Houter, Hinner, lookup_singleton_eq. by rewrite lookup_singleton_ne.
Qed.

(** ** The statements at explicit inputs *)

(** C1, counterexample: a picture 3 pixels wide and 60000 high, in 1100
    bytes.  Every encoding of it is over the budget of 1 KB down to scale
    0.4; at scale 0.3 its width comes to 0 pixels, the resizing raises, and
    so does [compress_image]: it returns neither bytes within the budget
    nor the fall-back. *)
Lemma narrow_picture_raises :
  Image_open narrow_picture = Some narrow
  ∧ target_size_bytes one_kb < len narrow_picture
  ∧ scaled_size narrow min_scale = (0, 18000)
  ∧ compress_image one_kb narrow_picture = Raise ValueError
  ∧ ¬ ∃ out tag, compress_image one_kb narrow_picture = Ok (out, tag).
Proof.
  assert (compress_image one_kb narrow_picture = Raise ValueError) as Hrun
    by (vm_compute; reflexivity).
  split_and!; [reflexivity|by vm_compute|vm_compute; reflexivity|exact Hrun|].
  intros (out & tag & Hok). by rewrite Hrun in Hok.
Qed.

(** C1, as amended, on a picture whose every encoding is over the budget:
    the fall-back is returned. *)
Lemma compress_image_fits_or_falls_back_witness :
  Image_open (picture 44 1100) = Some (rgb 440)
  ∧ target_size_bytes one_kb < len (picture 44 1100)
  ∧ compress_image one_kb (picture 44 1100) = Ok (toy_encoding 132 132 60, "jpg")
  ∧ (∃ img, normalize (rgb 440) = Ok img
       ∧ (len (toy_encoding 132 132 60) ≤ target_size_bytes one_kb
          ∨ fallback_encoding img = Ok (toy_encoding 132 132 60)))
  ∧ compress_image
      {| target_size_kb := 1; target_size_bytes := 1024;
         processed_images := {[ "cached" := "entry" ]} |}
      (picture 44 1100) = compress_image one_kb (picture 44 1100).
Proof.
  assert (target_size_bytes one_kb < len (picture 44 1100)) as Hgt by (by vm_compute).
  assert (target_size_bytes {| target_size_kb := 1; target_size_bytes := 1024;
                               processed_images := {[ "cached" := "entry" ]} |}
          = target_size_bytes one_kb) as Hbudget by reflexivity.
  destruct (compress_image_fits_or_falls_back one_kb _ (picture 44 1100) (rgb 440)
              eq_refl Hgt Hbudget) as (Hret & _ & _ & Hsame).
  destruct (Hret _ _ (proj1 compress_fallback)) as [_ Himg].
  split_and!; [reflexivity|exact Hgt|exact (proj1 compress_fallback)|exact Himg|exact Hsame].
Defined.

(** C3 on a picture that first fits at quality 10. *)
Lemma quality_search_first_fit_witness :
  Image_open (picture 30 1100) = Some (rgb 300)
  ∧ normalize (rgb 300) = Ok (rgb 300)
  ∧ first_fit one_kb (save_jpeg (rgb 300)) quality_levels
    = Ok (Some (10, toy_encoding 300 300 10))
  ∧ quality_search one_kb quality_fuel (rgb 300) 95
    = Ok (Returned (toy_encoding 300 300 10, "jpg"))
  ∧ compress_image one_kb (picture 30 1100) = Ok (toy_encoding 300 300 10, "jpg").
Proof.
  assert (first_fit one_kb (save_jpeg (rgb 300)) quality_levels
          = Ok (Some (10, toy_encoding 300 300 10))) as Hhit by (vm_compute; reflexivity).
  destruct (quality_search_first_fit one_kb (picture 30 1100) (rgb 300) (rgb 300)
              eq_refl eq_refl) as (_ & Hfound & _).
  destruct (Hfound _ _ Hhit) as [Hsearch Hrun].
  split_and!; [reflexivity|reflexivity|exact Hhit|exact Hsearch|exact Hrun].
Defined.

Lemma truncated_run : compress_image one_kb (truncated_picture 30 1100) = Raise OSError.
Proof. vm_compute. reflexivity. Qed.

(** C7, counterexample: a truncated picture.  It opens, its pixels do not
    decode, and the first encoding raises out of [compress_image]. *)
Lemma truncated_picture_raises :
  Image_open (truncated_picture 30 1100) = Some (toy_rgb 300 300 true)
  ∧ save_jpeg (toy_rgb 300 300 true) 95 = Raise OSError
  ∧ compress_image one_kb (truncated_picture 30 1100) = Raise OSError
  ∧ compress_image one_kb (truncated_picture 30 1100)
    ≠ Ok (truncated_picture 30 1100, "original").
Proof.
  split_and!; [reflexivity|reflexivity|exact truncated_run|]. by rewrite truncated_run.
Qed.

(** C7, as amended, on bytes that are no picture and on the truncated
    picture as an asset. *)
Lemma compress_image_undecodable_witness :
  Image_open no_picture = None
  ∧ compress_image one_kb no_picture = Ok (no_picture, "original")
  ∧ ∃ c', asset_step one_kb (mixed_tree, asset_zero) ("c.png", ["BinData"; "c.png"])
          = Ok (mixed_tree, c')
      ∧ compressed_count c' = compressed_count asset_zero.
Proof.
  split; [reflexivity|]. split.
  - exact (proj1 (compress_image_undecodable one_kb no_picture) eq_refl).
  - assert (lookup_node mixed_tree ["BinData"; "c.png"]
            = Some (File (truncated_picture 30 1100))) as Hnode by (vm_compute; reflexivity).
    destruct (proj2 (proj2 (compress_image_undecodable one_kb (truncated_picture 30 1100)))
                OSError truncated_run)
      as (_ & _ & Hasset).
    exact (Hasset mixed_tree asset_zero "c.png" ["BinData"; "c.png"] Hnode).
Defined.

(** C2 on the 500-byte asset of the archive, and on the same picture as an
    inline payload. *)
Lemma within_budget_left_verbatim_witness :
  lookup_node demo_tree ["BinData"; "image2.jpg"] = Some (File (picture 10 500))
  ∧ b64decode (String.string_of_list_byte (picture 10 500)) = Some (picture 10 500)
  ∧ len (picture 10 500) ≤ target_size_bytes one_kb
  ∧ asset_step one_kb (demo_tree, asset_zero) ("image2.jpg", ["BinData"; "image2.jpg"]) =
      Ok (demo_tree, {| compressed_count := 0; total_original_size := 0 + len (picture 10 500);
                        total_compressed_size := 0 + len (picture 10 500);
                        skipped_count := 0 + 1 |})
  ∧ compress_base64_image one_kb (String.string_of_list_byte (picture 10 500)) =
      (String.string_of_list_byte (picture 10 500), len (picture 10 500),
       len (picture 10 500), false).
Proof.
  assert (lookup_node demo_tree ["BinData"; "image2.jpg"] = Some (File (picture 10 500)))
    as Hnode by (vm_compute; reflexivity).
  assert (b64decode (String.string_of_list_byte (picture 10 500)) = Some (picture 10 500))
    as Hdec by (vm_compute; reflexivity).
  assert (len (picture 10 500) ≤ target_size_bytes one_kb) as Hle by (by vm_compute).
  split_and!; [done|done|done|..];
    apply (within_budget_left_verbatim one_kb demo_tree asset_zero "image2.jpg"
             ["BinData"; "image2.jpg"] (picture 10 500) _ Hnode Hdec Hle).
Defined.

Lemma demo_assets_processed :
  process_bindata one_kb demo_tree = Ok (demo_after_assets.1, demo_after_assets.2).
Proof. vm_cast_no_check (eq_refl (Ok (demo_after_assets.1, demo_after_assets.2))). Qed.

Lemma demo_run_succeeds :
  process_hwpx one_kb "doc.hwpx" None demo_world = (demo_run.1, Ok (Success demo_stats)).
Proof.
  assert (demo_run.2 = Ok (Success demo_stats)) as Hstats by (vm_compute; reflexivity).
  unfold demo_run in *. by destruct (process_hwpx _ _ _ _) as [w r]; cbn in *; subst.
Qed.

Lemma demo_output_written :
  zips demo_run.1 !! stat_output_path demo_stats = Some demo_output.
Proof. vm_compute. reflexivity. Qed.

Lemma demo_output_names :
  filename <$> demo_output =
    [["BinData"; "notes.txt"]; ["Contents"; "header.xml"]; ["Contents"; "section1.xml"];
     ["Contents"; "section0.xml"]; ["BinData"; "image2.jpg"]; ["mimetype"];
     ["BinData"; "image1.PNG"]].
Proof. vm_compute. reflexivity. Qed.

(** C4, counterexample: the input has the directory entry [BinData]; the
    output of a successful run does not, so the two sets of member names
    differ. *)
Lemma directory_entry_not_repacked :
  demo_run.2 = Ok (Success demo_stats)
  ∧ zips demo_run.1 !! "doc_compressed.hwpx" = Some demo_output
  ∧ ["BinData"] ∈ (filename <$> demo_archive)
  ∧ (["BinData"] ∉ (filename <$> demo_output))
  ∧ list_to_set (filename <$> demo_output) ≠@{gset path}
      list_to_set (filename <$> demo_archive).
Proof.
  assert (["BinData"] ∈ (filename <$> demo_archive)) as Hin by (by left).
  assert (["BinData"] ∉ (filename <$> demo_output)) as Hout.
  { rewrite demo_output_names. intros Hmem.
    repeat (apply elem_of_cons in Hmem as [Heq|Hmem]; [discriminate Heq|]).
    by apply elem_of_nil in Hmem. }
  split_and!; [vm_compute; reflexivity|vm_compute; reflexivity|done|done|].
  intros Heq. apply Hout.
  assert (["BinData"] ∈ (list_to_set (filename <$> demo_archive) : gset path)) as Hset
    by (rewrite elem_of_list_to_set; exact Hin).
  rewrite <- Heq, elem_of_list_to_set in Hset. exact Hset.
Qed.

(** C4, as amended, on the run over [demo_world]. *)
Lemma repack_keeps_file_members_witness :
  process_hwpx one_kb "doc.hwpx" None demo_world = (demo_run.1, Ok (Success demo_stats))
  ∧ zips demo_world !! "doc.hwpx" = Some demo_archive
  ∧ ∃ out, zips demo_run.1 !! stat_output_path demo_stats = Some out
      ∧ Forall (λ m, is_dir m = false) out
      ∧ NoDup (filename <$> out)
      ∧ list_to_set (filename <$> out) =@{gset path}
          list_to_set (sanitize ∘ filename <$> filter (λ m, is_dir m = false) demo_archive).
Proof.
  split; [exact demo_run_succeeds|]. split; [reflexivity|].
  apply (repack_keeps_file_members one_kb "doc.hwpx" None demo_world demo_run.1
           demo_stats demo_archive demo_run_succeeds eq_refl).
Defined.

(** C5, counterexample: the first run leaves [image1.PNG] at 1047 bytes (the
    fall-back, over the budget of 1024); the second run compresses it
    again, so its compressed count is 1 and only one of the two image
    assets is counted skipped. *)
Lemma second_run_compresses_again :
  demo_run.2 = Ok (Success demo_stats)
  ∧ demo_rerun.2 =
      Ok (Success {| stat_compressed := 1; stat_skipped := 1; stat_xml_compressed := 0;
                     total_all_compressed := 1; total_all_original := 1547;
                     total_all_compressed_size := 1516;
                     stat_output_path := "doc_compressed_compressed.hwpx" |})
  ∧ len (filter (λ m, is_image_member m = true) demo_output) = 2.
Proof. split_and!; vm_compute; reflexivity. Qed.

Lemma fit_run_succeeds :
  process_hwpx one_kb "fit.hwpx" None fit_world = (fit_run.1, Ok (Success fit_stats)).
Proof.
  assert (fit_run.2 = Ok (Success fit_stats)) as Hstats by (vm_compute; reflexivity).
  unfold fit_run in *. by destruct (process_hwpx _ _ _ _) as [w r]; cbn in *; subst.
Qed.

Lemma fit_tree_unpacked : extractall fit_archive ∅ = Ok fit_tree.
Proof.
  assert (is_returned (extractall fit_archive ∅) = true) as Hret by (vm_compute; reflexivity).
  unfold fit_tree. by destruct (extractall fit_archive ∅).
Qed.

(** The codec brings every image asset of [fit_archive] within the
    budget. *)
Lemma fit_assets_settle (f : string) (data : bytes) :
  is_image_name f = true →
  fit_tree !! (bindata_path ++ [f]) = Some (File data) →
  asset_settles one_kb data.
Proof.
  intros _ Hf.
  pose proof (tree_files_check
                (λ p d, match p with
                        | ["BinData"; _] =>
                            (len d <=? 1024)
                            || match compress_image one_kb d with
                               | Ok r => len r.1 <=? 1024
                               | Raise _ => false
                               end
                        | _ => true
                        end) fit_tree) as Hcheck.
  specialize (Hcheck ltac:(vm_compute; reflexivity) _ _ Hf). cbv beta iota in Hcheck.
  cbn [bindata_path app] in Hcheck.
  intros Hgt. change (target_size_bytes one_kb) with 1024 in *.
  apply orb_true_iff in Hcheck as [Hle%Z.leb_le|Hok]; [lia|].
  destruct (compress_image one_kb data) as [[out tag]|e]; [|done].
  exists out, tag. split; [done|]. by apply Z.leb_le.
Qed.

(** And every inline payload of its documents. *)
Lemma fit_documents_settle (f : string) (data : bytes) :
  endswith f ".xml" = true →
  fit_tree !! (contents_path ++ [f]) = Some (File data) →
  document_settles one_kb data.
Proof.
  intros _ Hf.
  pose proof (tree_files_check
                (λ p d, match p with
                        | ["Contents"; _] =>
                            match ET_fromstring (String.string_of_list_byte d) with
                            | Some root =>
                                forallb
                                  (λ v, negb (over_budget one_kb v)
                                        || match v ≫= b64decode with
                                           | Some image_data =>
                                               match compress_image one_kb image_data with
                                               | Ok r => len r.1 <=? 1024
                                               | Raise _ => false
                                               end
                                           | None => false
                                           end)
                                  (attr_values "bin" root)
                            | None => true
                            end
                        | _ => true
                        end) fit_tree) as Hcheck.
  specialize (Hcheck ltac:(vm_compute; reflexivity) _ _ Hf). cbv beta iota in Hcheck.
  cbn [contents_path app] in Hcheck.
  intros text root [= <-] Hroot _. rewrite Hroot in Hcheck.
  rewrite forallb_forall in Hcheck. apply Forall_forall. intros v Hv%list_elem_of_In.
  apply Hcheck in Hv. intros Hover. rewrite Hover in Hv. cbn [negb orb] in Hv.
  destruct (v ≫= b64decode) as [image_data|]; [|done].
  destruct (compress_image one_kb image_data) as [[out tag]|e] eqn:Hc; [|done].
  exists image_data, out, tag. split_and!; [done|done|]. by apply Z.leb_le.
Qed.

(** C5, as amended, on the run over [fit_world] and the run on its
    output. *)
Lemma second_run_skips_everything_witness :
  process_hwpx one_kb "fit.hwpx" None fit_world = (fit_run.1, Ok (Success fit_stats))
  ∧ stat_compressed fit_stats = 1
  ∧ stat_xml_compressed fit_stats = 1
  ∧ ∃ out w2 stats2 out2,
      zips fit_run.1 !! stat_output_path fit_stats = Some out
      ∧ process_hwpx one_kb (stat_output_path fit_stats) None fit_run.1
        = (w2, Ok (Success stats2))
      ∧ stat_compressed stats2 = 0
      ∧ stat_xml_compressed stats2 = 0
      ∧ total_all_compressed stats2 = 0
      ∧ stat_skipped stats2 = len (filter (λ m, is_image_member m = true) out)
      ∧ zips w2 !! stat_output_path stats2 = Some out2
      ∧ ∀ m, m ∈ out2 ↔ m ∈ out.
Proof.
  split; [exact fit_run_succeeds|]. split; [reflexivity|]. split; [reflexivity|].
  apply (second_run_skips_everything one_kb "fit.hwpx" None None fit_world fit_run.1
           fit_stats fit_archive fit_tree
           toy_text_round_trip toy_base64_round_trip toy_tostring_decodes
           toy_parse_round_trip fit_run_succeeds eq_refl fit_tree_unpacked
           fit_assets_settle fit_documents_settle).
  - reflexivity.
  - vm_compute. reflexivity.
  - vm_compute. reflexivity.
Defined.

(** C6 on the document of the archive that does not parse. *)
Lemma malformed_document_skipped_witness :
  lookup_node demo_tree ["Contents"; "section1.xml"] = Some (File bad_document)
  ∧ read_text bad_document = Some bad_text
  ∧ ET_fromstring bad_text = None
  ∧ xml_files demo_tree =
      Ok ([["Contents"; "header.xml"]] ++ ["Contents"; "section1.xml"]
            :: [["Contents"; "section0.xml"]])
  ∧ process_xml_images one_kb bad_text "section1.xml" = (Str bad_text, 0, 0, 0)
  ∧ ∃ t' c, process_contents one_kb demo_tree = Ok (t', c)
      ∧ (t', c) = foldl (xml_step one_kb) (demo_tree, xml_zero)
                    ([["Contents"; "header.xml"]] ++ [["Contents"; "section0.xml"]])
      ∧ lookup_node t' ["Contents"; "section1.xml"] = Some (File bad_document).
Proof.
  assert (lookup_node demo_tree ["Contents"; "section1.xml"] = Some (File bad_document))
    as Hnode by (vm_compute; reflexivity).
  assert (read_text bad_document = Some bad_text) as Htext by reflexivity.
  assert (ET_fromstring bad_text = None) as Hparse by (vm_compute; reflexivity).
  assert (xml_files demo_tree =
            Ok ([["Contents"; "header.xml"]] ++ ["Contents"; "section1.xml"]
                  :: [["Contents"; "section0.xml"]])) as Hfiles by (vm_compute; reflexivity).
  split_and!; [done|done|done|done|..];
    apply (malformed_document_skipped one_kb demo_tree bad_text "section1.xml"
             [["Contents"; "header.xml"]] ["Contents"; "section1.xml"]
             [["Contents"; "section0.xml"]] bad_document Hnode Htext Hparse Hfiles).
Defined.

(** C8 on the document with a large inline picture: the picture is
    rewritten, the external reference is not. *)
Lemma external_reference_untouched_witness :
  ET_fromstring pic_text = Some pic_root
  ∧ attr_values "fillImagePath" (scan_bin one_kb pic_root scan_zero).1
    = [Some "BinData/image1.png"; None]
  ∧ scan_count (scan_bin one_kb pic_root scan_zero).2 = 1.
Proof.
  assert (ET_fromstring pic_text = Some pic_root) as Hparse by (vm_compute; reflexivity).
  destruct (external_reference_untouched one_kb pic_text "section0.xml" pic_root Hparse)
    as (_ & _ & Hpaths & Htotals & _).
  split; [exact Hparse|]. split.
  - rewrite Hpaths. vm_compute. reflexivity.
  - rewrite Htotals. vm_compute. reflexivity.
Defined.

(** C9, counterexample: a regular file at the scratch path.  The run
    raises out of [process_hwpx]; the file is still there, and no result is
    returned. *)
Lemma regular_file_at_scratch_path :
  temp_dir blocked_world = RegularFile [Byte.x00]
  ∧ process_hwpx one_kb "small.hwpx" None blocked_world
    = (blocked_world, Raise NotADirectoryError)
  ∧ temp_dir (process_hwpx one_kb "small.hwpx" None blocked_world).1 ≠ Absent.
Proof. split_and!; [reflexivity|vm_compute; reflexivity|by vm_compute]. Qed.

(** C9, as amended, on a run that finds a stale scratch directory. *)
Lemma scratch_fresh_then_removed_witness :
  endswith "doc.hwpx" ".hwpx" = true
  ∧ temp_dir demo_world = Directory {[ ["stale"] := File [Byte.x00] ]}
  ∧ prepare_scratch (temp_dir demo_world) = Ok (Directory ∅)
  ∧ (∃ w' r, process_hwpx one_kb "doc.hwpx" None demo_world = (w', Ok r)
       ∧ temp_dir w' = Absent
       ∧ ((∃ stats, r = Success stats) ∨ (∃ e, r = Failure (ErrorOccurred e))))
  ∧ process_hwpx one_kb "doc.hwpx" None (scratch_removed demo_world (zips demo_world))
    = process_hwpx one_kb "doc.hwpx" None demo_world.
Proof.
  destruct (scratch_fresh_then_removed one_kb "doc.hwpx" None demo_world eq_refl)
    as [_ Hdir].
  destruct (Hdir (or_intror (ex_intro _ _ eq_refl))) as (Hfresh & _ & Hreturns).
  destruct (Hreturns ltac:(vm_compute; reflexivity)) as [Hret Hsame].
  split_and!; [reflexivity|reflexivity|exact Hfresh|exact Hret|exact Hsame].
Defined.

(** C10 on the asset [image1.PNG]: JPEG bytes end under the PNG name. *)
Lemma jpeg_written_under_original_name_witness :
  0 ≤ target_size_bytes one_kb
  ∧ is_Some (demo_tree !! bindata_path)
  ∧ is_image_name "image1.PNG" = true
  ∧ demo_tree !! (bindata_path ++ ["image1.PNG"]) = Some (File (picture 44 1100))
  ∧ Image_open (picture 44 1100) = Some (rgb 440)
  ∧ target_size_bytes one_kb < len (picture 44 1100)
  ∧ process_bindata one_kb demo_tree = Ok (demo_after_assets.1, demo_after_assets.2)
  ∧ compress_image one_kb (picture 44 1100) = Ok (toy_encoding 132 132 60, "jpg")
  ∧ (∃ img quality, save_jpeg img quality = Ok (toy_encoding 132 132 60))
  ∧ demo_after_assets.1 !! (bindata_path ++ ["image1.PNG"])
    = Some (File (toy_encoding 132 132 60))
  ∧ dom demo_after_assets.1 = dom demo_tree.
Proof.
  assert (0 ≤ target_size_bytes one_kb) as Hpos by (by vm_compute).
  assert (is_Some (demo_tree !! bindata_path)) as Hbd
    by (exists Dir; vm_compute; reflexivity).
  assert (is_image_name "image1.PNG" = true) as Himg by (vm_compute; reflexivity).
  assert (demo_tree !! (bindata_path ++ ["image1.PNG"]) = Some (File (picture 44 1100)))
    as Hf by (vm_compute; reflexivity).
  assert (Image_open (picture 44 1100) = Some (rgb 440)) as Hopen by reflexivity.
  assert (target_size_bytes one_kb < len (picture 44 1100)) as Hgt by (by vm_compute).
  pose proof (jpeg_written_under_original_name one_kb demo_tree demo_after_assets.1
                demo_after_assets.2 "image1.PNG" (picture 44 1100) (rgb 440)
                Hpos Hbd Himg Hf Hopen Hgt demo_assets_processed) as [Hjpeg Hdom].
  rewrite (proj1 compress_fallback) in Hjpeg. destruct Hjpeg as (_ & Henc & Hfile).
  split_and!; [done|done|done|done|done|done|exact demo_assets_processed|
               exact (proj1 compress_fallback)|exact Henc|exact Hfile|exact Hdom].
Defined.

(** The smallest scale on a dimension of 1999 pixels. *)
Lemma smallest_scale_is_three_tenths_witness :
  0 ≤ 1999 ≤ 65535 ∧ int_of_float (float_of_int 1999 * min_scale) = 3 * 1999 / 10.
Proof.
  assert (0 ≤ 1999 ≤ 65535) as Hn by lia.
  split; [exact Hn|]. exact (smallest_scale_is_three_tenths 1999 Hn).
Defined.

(** The document of the archive that declares a namespace. *)
Lemma namespace_declaration_stops_scan_witness :
  lookup_node demo_tree ["Contents"; "header.xml"] = Some (File ns_document)
  ∧ read_text ns_document = Some ns_text
  ∧ ET_start_ns ns_text ≠ []
  ∧ process_xml_images one_kb ns_text "header.xml" = (Str ns_text, 0, 0, 0)
  ∧ xml_step one_kb (demo_tree, xml_zero) ["Contents"; "header.xml"] = (demo_tree, xml_zero).
Proof.
  assert (lookup_node demo_tree ["Contents"; "header.xml"] = Some (File ns_document))
    as Hnode by (vm_compute; reflexivity).
  assert (read_text ns_document = Some ns_text) as Htext by reflexivity.
  assert (ET_start_ns ns_text ≠ []) as Hns by (vm_compute; discriminate).
  split_and!; [done|done|done|..];
    apply (namespace_declaration_stops_scan one_kb demo_tree xml_zero
             ["Contents"; "header.xml"] ns_document ns_text Hnode Htext Hns).
Defined.

(** An oversized asset that is no picture. *)
Lemma undecodable_asset_counted_compressed_witness :
  0 ≤ target_size_bytes one_kb
  ∧ lookup_node {[ ["BinData"; "scan.bmp"] := File (repeat Byte.x00 1100) ]}
      ["BinData"; "scan.bmp"] = Some (File (repeat Byte.x00 1100))
  ∧ Image_open (repeat Byte.x00 1100) = None
  ∧ target_size_bytes one_kb < len (repeat Byte.x00 1100)
  ∧ asset_step one_kb
      ({[ ["BinData"; "scan.bmp"] := File (repeat Byte.x00 1100) ]}, asset_zero)
      ("scan.bmp", ["BinData"; "scan.bmp"]) =
    Ok ({[ ["BinData"; "scan.bmp"] := File (repeat Byte.x00 1100) ]},
        {| compressed_count := 0 + 1;
           total_original_size := 0 + len (repeat Byte.x00 1100);
           total_compressed_size := 0 + len (repeat Byte.x00 1100);
           skipped_count := 0 |}).
Proof.
  assert (0 ≤ target_size_bytes one_kb) as Hpos by (by vm_compute).
  assert (lookup_node {[ ["BinData"; "scan.bmp"] := File (repeat Byte.x00 1100) ]}
            ["BinData"; "scan.bmp"] = Some (File (repeat Byte.x00 1100))) as Hnode
    by apply lookup_singleton_eq.
  assert (Image_open (repeat Byte.x00 1100) = None) as Hopen by reflexivity.
  assert (target_size_bytes one_kb < len (repeat Byte.x00 1100)) as Hgt by (by vm_compute).
  split_and!; [done|done|done|done|].
  exact (undecodable_asset_counted_compressed one_kb _ asset_zero "scan.bmp"
           ["BinData"; "scan.bmp"] (repeat Byte.x00 1100) Hpos Hnode Hopen Hgt).
Defined.

(** ** The further facts at explicit inputs *)

(** A picture of side 320 that no quality level brings under 1 KB: the
    scale search settles on the seventh level.  On the narrow picture the
    resizing at the seventh level raises. *)
Lemma scale_search_first_fit_witness :
  Image_open (picture 32 1100) = Some (rgb 320)
  ∧ normalize (rgb 320) = Ok (rgb 320)
  ∧ scale_levels = take 6 scale_levels ++ min_scale :: []
  ∧ candidate_encoding (rgb 320) 85 min_scale = Ok (toy_encoding 96 96 85)
  ∧ compress_image one_kb (picture 32 1100) = Ok (toy_encoding 96 96 85, "jpg").
Proof.
  assert (Image_open (picture 32 1100) = Some (rgb 320)) as Hopen by reflexivity.
  assert (normalize (rgb 320) = Ok (rgb 320)) as Hnorm by reflexivity.
  assert (∀ q, q ∈ quality_levels → over one_kb (save_jpeg (rgb 320) q)) as Hq.
  { intros q Hin. unfold quality_levels in Hin.
    repeat (apply elem_of_cons in Hin as [->|Hin];
            [apply over_check; vm_compute; reflexivity|]).
    by apply elem_of_nil in Hin. }
  assert (candidate_encoding (rgb 320) 85 min_scale = Ok (toy_encoding 96 96 85)) as Hs
    by (vm_compute; reflexivity).
  split_and!; [exact Hopen|exact Hnorm|reflexivity|exact Hs|].
  apply (proj1 (scale_search_first_fit one_kb (picture 32 1100) (rgb 320) (rgb 320)
                  Hopen Hnorm Hq)
           (take 6 scale_levels) min_scale [] (toy_encoding 96 96 85) eq_refl).
  - intros s' Hin. cbn [take scale_levels] in Hin.
    repeat (apply elem_of_cons in Hin as [->|Hin];
            [apply over_check; vm_compute; reflexivity|]).
    by apply elem_of_nil in Hin.
  - exact Hs.
  - by vm_compute.
Defined.

(** Every call into the toy library returns on the picture of side 440. *)
Lemma compress_image_returns_with_pillow_witness :
  ∃ out tag, compress_image one_kb (picture 44 1100) = Ok (out, tag)
    ∧ (tag = "original" ∧ out = picture 44 1100 ∧ Image_open (picture 44 1100) = None
       ∨ tag = "jpg" ∧ ∃ img0, Image_open (picture 44 1100) = Some img0).
Proof.
  apply (compress_image_returns_with_pillow one_kb (picture 44 1100)).
  intros img0 Hopen. injection Hopen as <-.
  exists (rgb 440). split_and!.
  - reflexivity.
  - intros q Hin. unfold quality_levels in Hin.
    repeat (apply elem_of_cons in Hin as [->|Hin];
            [apply returns_check; vm_compute; reflexivity|]).
    by apply elem_of_nil in Hin.
  - intros s Hin. unfold scale_levels in Hin.
    repeat (apply elem_of_cons in Hin as [->|Hin];
            [apply returns_check; vm_compute; reflexivity|]).
    by apply elem_of_nil in Hin.
  - apply returns_check. vm_compute. reflexivity.
Defined.

(** A budget of 2 KB instead of 1 KB on a picture of side 300: quality 20
    instead of 10. *)
Lemma larger_budget_higher_quality_witness :
  target_size_bytes one_kb ≤ target_size_bytes two_kb
  ∧ first_fit one_kb (save_jpeg (rgb 300)) quality_levels
    = Ok (Some (10, toy_encoding 300 300 10))
  ∧ first_fit two_kb (save_jpeg (rgb 300)) quality_levels
    = Ok (Some (20, toy_encoding 300 300 20))
  ∧ ∃ q' out', 10 ≤ q'
      ∧ first_fit two_kb (save_jpeg (rgb 300)) quality_levels = Ok (Some (q', out'))
      ∧ save_jpeg (rgb 300) 10 = Ok (toy_encoding 300 300 10)
      ∧ save_jpeg (rgb 300) q' = Ok out'
      ∧ quality_search one_kb quality_fuel (rgb 300) 95
        = Ok (Returned (toy_encoding 300 300 10, "jpg"))
      ∧ quality_search two_kb quality_fuel (rgb 300) 95 = Ok (Returned (out', "jpg")).
Proof.
  assert (target_size_bytes one_kb ≤ target_size_bytes two_kb) as Hle by (by vm_compute).
  assert (first_fit one_kb (save_jpeg (rgb 300)) quality_levels
          = Ok (Some (10, toy_encoding 300 300 10))) as Hfind by (vm_compute; reflexivity).
  split; [exact Hle|]. split; [exact Hfind|]. split; [vm_compute; reflexivity|].
  exact (larger_budget_higher_quality one_kb two_kb (rgb 300) 10 _ Hle Hfind).
Defined.

(** A dimension of 1999 pixels at the scale level 0.7000000000000001. *)
Lemma scale_levels_are_tenths_witness :
  0 ≤ 1999 ≤ 65535
  ∧ ((0.9 - 0.1 - 0.1)%float, 7) ∈ scale_tenths
  ∧ int_of_float (float_of_int 1999 * (0.9 - 0.1 - 0.1)) = 7 * 1999 / 10.
Proof.
  assert (0 ≤ 1999 ≤ 65535) as Hn by lia.
  assert (((0.9 - 0.1 - 0.1)%float, 7) ∈ scale_tenths) as Hsk
    by (right; right; left).
  split; [exact Hn|]. split; [exact Hsk|].
  exact (scale_levels_are_tenths 1999 _ 7 Hn Hsk).
Defined.

(** An inline payload of 1100 bytes that are no picture. *)
Lemma undecodable_inline_counted_compressed_witness :
  b64decode no_picture_text = Some no_picture
  ∧ Image_open no_picture = None
  ∧ target_size_bytes one_kb < len no_picture
  ∧ compress_base64_image one_kb no_picture_text
    = (b64encode no_picture, len no_picture, len no_picture, true).
Proof.
  assert (b64decode no_picture_text = Some no_picture) as Hdec by (vm_compute; reflexivity).
  assert (Image_open no_picture = None) as Hopen by reflexivity.
  assert (target_size_bytes one_kb < len no_picture) as Hgt by (by vm_compute).
  split_and!; [done|done|done|].
  exact (undecodable_inline_counted_compressed one_kb no_picture_text no_picture
           Hdec Hopen Hgt).
Defined.

(** The document of the archive with one inline picture over the budget. *)
Lemma inline_count_is_over_budget_witness :
  ET_fromstring pic_text = Some pic_root
  ∧ ET_start_ns pic_text = []
  ∧ len (filter (λ v, compressed_payload one_kb v = true) (attr_values "bin" pic_root)) = 1
  ∧ ∃ new_xml comp,
      process_xml_images one_kb pic_text "section0.xml"
      = (new_xml,
         len (filter (λ v, compressed_payload one_kb v = true) (attr_values "bin" pic_root)),
         total (decoded_size <$> filter (λ v, compressed_payload one_kb v = true)
                                   (attr_values "bin" pic_root)), comp)
      ∧ (filter (λ v, compressed_payload one_kb v = true) (attr_values "bin" pic_root) = [] →
         new_xml = Str pic_text ∧ comp = 0)
      ∧ (filter (λ v, compressed_payload one_kb v = true) (attr_values "bin" pic_root) ≠ [] →
         new_xml = Bytes (ET_tostring (scan_bin one_kb pic_root scan_zero).1)).
Proof.
  assert (ET_fromstring pic_text = Some pic_root) as Hroot by (vm_compute; reflexivity).
  assert (ET_start_ns pic_text = []) as Hns by (vm_compute; reflexivity).
  split_and!; [done|done|by vm_compute|].
  exact (inline_count_is_over_budget one_kb pic_text "section0.xml" pic_root Hroot Hns).
Defined.

(** A document whose inline picture is truncated: the payload is over the
    budget, [compress_image] raises on it, nothing is counted and the text
    comes back as given. *)
Example truncated_inline_not_counted :
  ET_fromstring truncated_text = Some truncated_root
  ∧ over_budget one_kb (Some (String.string_of_list_byte (truncated_picture 30 1100))) = true
  ∧ process_xml_images one_kb truncated_text "section0.xml" = (Str truncated_text, 0, 0, 0).
Proof. split_and!; vm_compute; reflexivity. Qed.

Lemma mixed_assets_processed :
  process_bindata one_kb mixed_tree = Ok (mixed_after.1, mixed_after.2).
Proof.
  assert (is_returned (process_bindata one_kb mixed_tree) = true) as Hret
    by (vm_compute; reflexivity).
  unfold mixed_after. by destruct (process_bindata one_kb mixed_tree) as [[t c]|e].
Qed.

(** The asset pass on a tree with three image assets, one of them
    truncated: one is compressed, one skipped, and the truncated one is
    counted as neither. *)
Lemma asset_totals_match_files_witness :
  process_bindata one_kb mixed_tree = Ok (mixed_after.1, mixed_after.2)
  ∧ compressed_count mixed_after.2 = 1
  ∧ skipped_count mixed_after.2 = 1
  ∧ mixed_after.1 !! ["BinData"; "c.png"] = Some (File (truncated_picture 30 1100))
  ∧ ∃ assets : list path,
      NoDup assets
      ∧ (∀ p, p ∈ assets ↔
           is_Some (mixed_tree !! bindata_path)
           ∧ ∃ f, p = bindata_path ++ [f] ∧ is_image_name f = true
                  ∧ is_Some (mixed_tree !! p))
      ∧ skipped_count mixed_after.2
        = len (filter (λ p, file_size mixed_tree p ≤ target_size_bytes one_kb) assets)
      ∧ compressed_count mixed_after.2
        = len (filter (λ p, compressed_asset one_kb mixed_tree p = true) assets)
      ∧ compressed_count mixed_after.2 + skipped_count mixed_after.2
        + len (filter (λ p, target_size_bytes one_kb < file_size mixed_tree p
                            ∧ compressed_asset one_kb mixed_tree p = false) assets)
        = len assets
      ∧ total_original_size mixed_after.2 = total (file_size mixed_tree <$> assets)
      ∧ total_compressed_size mixed_after.2 = total (file_size mixed_after.1 <$> assets).
Proof.
  split; [exact mixed_assets_processed|].
  split; [vm_compute; reflexivity|]. split; [vm_compute; reflexivity|].
  split; [vm_compute; reflexivity|].
  exact (asset_totals_match_files one_kb mixed_tree mixed_after.1 mixed_after.2
           mixed_assets_processed).
Defined.

Lemma demo_image_info :
  image_info demo_tree
  = Ok [("image1.PNG", ["BinData"; "image1.PNG"]); ("image2.jpg", ["BinData"; "image2.jpg"])].
Proof. vm_compute. reflexivity. Qed.

(** The two image assets of the archive: 1100 bytes, then 500. *)
Lemma assets_taken_largest_first_witness :
  image_info demo_tree
  = Ok [("image1.PNG", ["BinData"; "image1.PNG"]); ("image2.jpg", ["BinData"; "image2.jpg"])]
  ∧ getsize demo_tree ["BinData"; "image1.PNG"] = Ok 1100
  ∧ getsize demo_tree ["BinData"; "image2.jpg"] = Ok 500
  ∧ StronglySorted
      (λ x y, ∃ kx ky, getsize demo_tree x.2 = Ok kx ∧ getsize demo_tree y.2 = Ok ky ∧ ky ≤ kx)
      [("image1.PNG", ["BinData"; "image1.PNG"]); ("image2.jpg", ["BinData"; "image2.jpg"])].
Proof.
  split; [exact demo_image_info|]. split; [vm_compute; reflexivity|].
  split; [vm_compute; reflexivity|].
  exact (proj1 (assets_taken_largest_first demo_tree _ demo_image_info)).
Defined.

(** An empty image asset under a budget of -1 KB. *)
Lemma empty_asset_negative_budget_witness :
  target_size_bytes below_zero < 0
  ∧ lookup_node {[ ["BinData"; "empty.png"] := File [] ]} ["BinData"; "empty.png"]
    = Some (File [])
  ∧ ∃ c', asset_step below_zero ({[ ["BinData"; "empty.png"] := File [] ]}, asset_zero)
            ("empty.png", ["BinData"; "empty.png"])
          = Ok ({[ ["BinData"; "empty.png"] := File [] ]}, c')
      ∧ compressed_count c' = compressed_count asset_zero
      ∧ skipped_count c' = skipped_count asset_zero
      ∧ total_original_size c' = total_original_size asset_zero
      ∧ total_compressed_size c' = total_compressed_size asset_zero.
Proof.
  assert (target_size_bytes below_zero < 0) as Hneg by (by vm_compute).
  assert (lookup_node {[ ["BinData"; "empty.png"] := File [] ]} ["BinData"; "empty.png"]
          = Some (File [])) as Hnode by apply lookup_singleton_eq.
  split; [exact Hneg|]. split; [exact Hnode|].
  exact (empty_asset_negative_budget below_zero _ asset_zero "empty.png"
           ["BinData"; "empty.png"] Hneg Hnode).
Defined.

(** [BinData/notes.txt], 1200 bytes and no image: it leaves the run on
    [demo_world] as it entered it. *)
Lemma other_members_pass_through_witness :
  process_hwpx one_kb "doc.hwpx" None demo_world = (demo_run.1, Ok (Success demo_stats))
  ∧ zips demo_world !! "doc.hwpx" = Some demo_archive
  ∧ notes_member ∈ demo_archive
  ∧ is_dir notes_member = false
  ∧ target_size_bytes one_kb < len (content notes_member)
  ∧ ∃ out, zips demo_run.1 !! stat_output_path demo_stats = Some out
      ∧ {| filename := sanitize (filename notes_member); is_dir := false;
           content := content notes_member |} ∈ out.
Proof.
  assert (zips demo_world !! "doc.hwpx" = Some demo_archive) as Hzip by reflexivity.
  assert (notes_member ∈ demo_archive) as Hin by (do 4 right; left).
  assert (is_dir notes_member = false) as Hfile by reflexivity.
  assert (∀ m', m' ∈ demo_archive → is_dir m' = false →
            sanitize (filename m') = sanitize (filename notes_member) →
            content m' = content notes_member) as Huniq.
  { intros m' Hm' _. unfold demo_archive in Hm'.
    repeat (apply elem_of_cons in Hm' as [->|Hm']; [by vm_compute|]).
    by apply elem_of_nil in Hm'. }
  assert (∀ f, sanitize (filename notes_member) = bindata_path ++ [f] →
            is_image_name f = true →
            len (content notes_member) ≤ target_size_bytes one_kb) as Hasset.
  { intros f Hf. vm_compute in Hf. injection Hf as <-. by vm_compute. }
  assert (∀ f, sanitize (filename notes_member) = contents_path ++ [f] →
            endswith f ".xml" = true →
            document_within one_kb (content notes_member)) as Hdoc.
  { intros f Hf. vm_compute in Hf. discriminate Hf. }
  split_and!; [exact demo_run_succeeds|done|done|done|by vm_compute|].
  exact (other_members_pass_through one_kb "doc.hwpx" None demo_world demo_run.1 demo_stats
           demo_archive notes_member demo_run_succeeds Hzip Hin Hfile Huniq Hasset Hdoc).
Defined.

(** An archive left in the scratch directory by an earlier run: it is gone
    by the time the run opens it. *)
Lemma missing_archive_fails_witness :
  endswith "temp_hwpx_processing/old.hwpx" ".hwpx" = true
  ∧ zips nested_world !! "temp_hwpx_processing/old.hwpx" = Some small_archive
  ∧ under_scratch nested_world "temp_hwpx_processing/old.hwpx" = true
  ∧ process_hwpx one_kb "temp_hwpx_processing/old.hwpx" None nested_world
    = (scratch_removed nested_world (outside_scratch nested_world),
       Ok (Failure (ErrorOccurred FileNotFoundError)))
  ∧ zips (scratch_removed nested_world (outside_scratch nested_world)) !! "small.hwpx"
    = Some small_archive.
Proof.
  assert (endswith "temp_hwpx_processing/old.hwpx" ".hwpx" = true) as Hext by reflexivity.
  assert (under_scratch nested_world "temp_hwpx_processing/old.hwpx" = true) as Hunder
    by (vm_compute; reflexivity).
  destruct (missing_archive_fails one_kb "temp_hwpx_processing/old.hwpx" None nested_world
              Hext (or_intror (ex_intro _ _ eq_refl)) (or_intror Hunder)) as [Hfail Hkeep].
  split_and!; [done|vm_compute; reflexivity|done|exact Hfail|].
  rewrite (Hkeep "small.hwpx") by (vm_compute; reflexivity). vm_compute. reflexivity.
Defined.

Lemma small_tree_unpacked : extractall small_archive ∅ = Ok small_tree.
Proof.
  assert (is_returned (extractall small_archive ∅) = true) as Hret
    by (vm_compute; reflexivity).
  unfold small_tree. by destruct (extractall small_archive ∅).
Qed.

(** An output path in a directory that does not exist: the stages go
    through, the archive cannot be written, and the run fails. *)
Lemma run_succeeds_iff_witness :
  endswith "small.hwpx" ".hwpx" = true
  ∧ temp_dir desk_world = Absent
  ∧ zips desk_world !! "small.hwpx" = Some small_archive
  ∧ write_error desk_world "no/such/dir/out.hwpx" = Some FileNotFoundError
  ∧ ((bindata_ok small_tree ∧ contents_ok small_tree
      ∧ write_error desk_world (resolve_output "small.hwpx" (Some "no/such/dir/out.hwpx"))
        = None)
     ∧ (∃ w' stats, process_hwpx one_kb "small.hwpx" (Some "no/such/dir/out.hwpx") desk_world
                    = (w', Ok (Success stats)))
     ∨ ¬ (bindata_ok small_tree ∧ contents_ok small_tree
          ∧ write_error desk_world (resolve_output "small.hwpx" (Some "no/such/dir/out.hwpx"))
            = None)
       ∧ (∃ e, process_hwpx one_kb "small.hwpx" (Some "no/such/dir/out.hwpx") desk_world
               = (scratch_removed desk_world (outside_scratch desk_world),
                  Ok (Failure (ErrorOccurred e)))))
  ∧ (process_hwpx one_kb "small.hwpx" (Some "no/such/dir/out.hwpx") desk_world).2
    = Ok (Failure (ErrorOccurred FileNotFoundError)).
Proof.
  assert (endswith "small.hwpx" ".hwpx" = true) as Hext by reflexivity.
  assert (zips desk_world !! "small.hwpx" = Some small_archive) as Hzip
    by (vm_compute; reflexivity).
  assert (under_scratch desk_world "small.hwpx" = false) as Hin by (vm_compute; reflexivity).
  assert (under_scratch desk_world
            (resolve_output "small.hwpx" (Some "no/such/dir/out.hwpx")) = false) as Hout
    by (vm_compute; reflexivity).
  split_and!; [done|done|done|vm_compute; reflexivity| |vm_compute; reflexivity].
  exact (run_succeeds_iff one_kb "small.hwpx" (Some "no/such/dir/out.hwpx") desk_world
           small_archive small_tree Hext (or_introl eq_refl) Hzip Hin Hout
           small_tree_unpacked).
Defined.

(** The run on [demo_world] leaves [doc.hwpx] as it was. *)
Lemma default_output_spares_input_witness :
  under_scratch demo_world "doc.hwpx" = false
  ∧ zips demo_run.1 !! "doc.hwpx" = Some demo_archive
  ∧ zips demo_run.1 !! resolve_output "doc.hwpx" None = Some demo_output.
Proof.
  assert (under_scratch demo_world "doc.hwpx" = false) as Hin by (vm_compute; reflexivity).
  destruct (default_output_spares_input one_kb "doc.hwpx" demo_world Hin) as (Hkeep & _ & _).
  split_and!; [exact Hin|exact Hkeep|vm_compute; reflexivity].
Defined.

(** A report in a directory, and a file whose name is only the
    extension. *)
Lemma default_output_name_witness :
  endswith "docs/" "/" = true
  ∧ resolve_output ("docs/" +:+ "report.v2" +:+ ".hwpx") None
    = "docs/report.v2_compressed.hwpx"
  ∧ resolve_output ("docs/" +:+ "" +:+ ".hwpx") None = "docs/.hwpx_compressed.hwpx".
Proof.
  assert (endswith "docs/" "/" = true) as Hdir by reflexivity.
  assert ("/"%char ∉ chars "report.v2") as Hname.
  { intros Hin. cbn in Hin.
    repeat (apply elem_of_cons in Hin as [Heq|Hin]; [discriminate Heq|]).
    by apply elem_of_nil in Hin. }
  assert ("/"%char ∉ chars "") as Hempty by (intros Hin; by apply elem_of_nil in Hin).
  split; [exact Hdir|]. split.
  - exact (default_output_name "docs/" "report.v2" (or_intror Hdir) Hname).
  - exact (default_output_name "docs/" "" (or_intror Hdir) Hempty).
Defined.

(** A file dropped under the name [REPORT.HWPX]. *)
Lemma unlowered_extension_accepted_then_refused_witness :
  is_processing new_gui = false
  ∧ parse_drop_files desk_world "{REPORT.HWPX}" = ["REPORT.HWPX"]
  ∧ endswith (lower "REPORT.HWPX") ".hwpx" = true
  ∧ endswith "REPORT.HWPX" ".hwpx" = false
  ∧ on_drop new_gui desk_world "{REPORT.HWPX}" = (new_gui, Some ["REPORT.HWPX"])
  ∧ process_files new_gui ["REPORT.HWPX"] desk_world
    = ({| is_processing := false; size_var := size_var new_gui;
          status_label := (PartlyCompleted 0 (len ["REPORT.HWPX"]), "#f39c12") |},
       desk_world, Ok ()).
Proof.
  assert (parse_drop_files desk_world "{REPORT.HWPX}" = ["REPORT.HWPX"]) as Hparse
    by (vm_compute; reflexivity).
  assert (endswith (lower "REPORT.HWPX") ".hwpx" = true) as Hlow by (vm_compute; reflexivity).
  assert (endswith "REPORT.HWPX" ".hwpx" = false) as Hup by (vm_compute; reflexivity).
  split_and!; [done|done|done|done|..];
    apply (unlowered_extension_accepted_then_refused new_gui desk_world "{REPORT.HWPX}"
             ["REPORT.HWPX"] eq_refl Hparse);
    [discriminate|by repeat constructor|discriminate|by repeat constructor].
Defined.

(** A batch of three files, with nothing at the scratch path. *)
Lemma process_files_completes_witness :
  temp_dir desk_world = Absent
  ∧ ∃ w' success,
      process_each (new_compressor (size_var new_gui))
        ["small.hwpx"; "REPORT.HWPX"; "broken.hwpx"] desk_world 0 = (w', Ok success)
      ∧ 0 ≤ success ≤ len ["small.hwpx"; "REPORT.HWPX"; "broken.hwpx"]
      ∧ (temp_dir w' = Absent ∨ temp_dir w' = temp_dir desk_world)
      ∧ process_files new_gui ["small.hwpx"; "REPORT.HWPX"; "broken.hwpx"] desk_world
        = ({| is_processing := false; size_var := size_var new_gui;
              status_label :=
                if bool_decide (success = len ["small.hwpx"; "REPORT.HWPX"; "broken.hwpx"])
                then (Completed success (len ["small.hwpx"; "REPORT.HWPX"; "broken.hwpx"]),
                      "#27ae60")
                else (PartlyCompleted success
                        (len ["small.hwpx"; "REPORT.HWPX"; "broken.hwpx"]), "#f39c12") |},
           w', Ok ()).
Proof.
  split; [reflexivity|].
  exact (process_files_completes new_gui ["small.hwpx"; "REPORT.HWPX"; "broken.hwpx"]
           desk_world (or_introl eq_refl)).
Defined.

(** The same batch with a regular file at the scratch path. *)
Lemma scratch_file_blocks_front_end_witness :
  temp_dir blocked_world = RegularFile [Byte.x00]
  ∧ endswith "small.hwpx" ".hwpx" = true
  ∧ process_files new_gui ["small.hwpx"; "REPORT.HWPX"] blocked_world
    = ({| is_processing := true; size_var := size_var new_gui;
          status_label := status_label new_gui |},
       blocked_world, Raise NotADirectoryError)
  ∧ on_drop {| is_processing := true; size_var := size_var new_gui;
               status_label := status_label new_gui |} desk_world "small.hwpx"
    = ({| is_processing := true; size_var := size_var new_gui;
          status_label := (AlreadyProcessing, "#f39c12") |}, None).
Proof.
  destruct (scratch_file_blocks_front_end new_gui "small.hwpx" ["REPORT.HWPX"]
              blocked_world [Byte.x00] eq_refl eq_refl) as [Hraise Hrefuse].
  split_and!; [reflexivity|reflexivity|exact Hraise|exact (Hrefuse desk_world "small.hwpx")].
Defined.

(** A dropped path in braces. *)
Lemma parse_drop_files_stripped_witness :
  "small.hwpx" ∈ parse_drop_files desk_world "{small.hwpx} nothing.hwpx"
  ∧ os_path_exists desk_world "small.hwpx" = true
  ∧ (∃ item, item ∈ splitlist "{small.hwpx} nothing.hwpx"
             ∧ "small.hwpx" = strip item "{}")
  ∧ (∀ c, head (chars "small.hwpx") = Some c ∨ last (chars "small.hwpx") = Some c →
          c ∉ chars "{}").
Proof.
  assert ("small.hwpx" ∈ parse_drop_files desk_world "{small.hwpx} nothing.hwpx") as Hin.
  { assert (parse_drop_files desk_world "{small.hwpx} nothing.hwpx" = ["small.hwpx"]) as ->
      by (vm_compute; reflexivity).
    left. }
  split; [exact Hin|].
  exact (parse_drop_files_stripped desk_world "{small.hwpx} nothing.hwpx" "small.hwpx" Hin).
Defined.

(** The toy library keeps the modes as Pillow does; a palette image comes
    out in RGB, an RGB image as it is. *)
Lemma normalize_gives_rgb_witness :
  mode palette = "P"
  ∧ (∃ img', normalize palette = Ok img' ∧ mode img' = "RGB")
  ∧ normalize (rgb 300) = Ok (rgb 300).
Proof.
  assert (∀ m sz color (img : Image), Image_new m sz color = Ok img → mode img = m) as Hnew.
  { by intros m sz color img [= <-]. }
  assert (∀ (img : Image) m img', convert img m = Ok img' → mode img' = m) as Hconvert.
  { intros img m img'. cbn [convert pillow]. unfold toy_load.
    destruct (toy_truncated img); [done|]. by intros [= <-]. }
  assert (∀ (background img : Image) mask pasted,
            paste background img mask = Ok pasted → mode pasted = mode background) as Hpaste.
  { intros background img mask pasted. cbn [paste pillow]. unfold toy_load.
    destruct (toy_truncated img); [done|]. by intros [= <-]. }
  split_and!; [done|..].
  - assert (is_returned (normalize palette) = true) as Hret by (vm_compute; reflexivity).
    destruct (normalize palette) as [img'|e] eqn:Hnorm; [|done].
    exists img'. split; [done|].
    exact (proj1 (normalize_gives_rgb Hnew Hconvert Hpaste palette) img' Hnorm).
  - exact (proj1 (proj2 (normalize_gives_rgb Hnew Hconvert Hpaste (rgb 300))) eq_refl).
Defined.

(** Six images and three documents: the last image reports 83, the first
    document 80. *)
Lemma progress_steps_back_witness :
  1 ≤ 6 ≤ 300 ∧ 1 ≤ 3 ≤ 300 ∧ 0 ≤ 5 < 6 ∧ 0 ≤ 0 < 3
  ∧ asset_progress 5 6 = 83
  ∧ xml_progress 0 3 = 80
  ∧ 0 ≤ asset_progress 5 6 ≤ 99
  ∧ 80 ≤ xml_progress 0 3 ≤ 94
  ∧ (6 ≤ 6 → xml_progress 0 3 < asset_progress (6 - 1) 6).
Proof.
  assert (1 ≤ 6 ≤ 300) as Hn by lia. assert (1 ≤ 3 ≤ 300) as Hm by lia.
  assert (0 ≤ 5 < 6) as Hi by lia. assert (0 ≤ 0 < 3) as Hj by lia.
  split; [exact Hn|]. split; [exact Hm|]. split; [exact Hi|]. split; [exact Hj|].
  split; [vm_compute; reflexivity|]. split; [vm_compute; reflexivity|].
  exact (progress_steps_back 6 3 5 0 Hn Hm Hi Hj).
Defined.

(** The document of the archive with the large inline picture. *)
Lemma oversized_inline_document_rewritten_witness :
  lookup_node demo_tree ["Contents"; "section0.xml"] = Some (File pic_document)
  ∧ read_text pic_document = Some pic_text
  ∧ ET_fromstring pic_text = Some pic_root
  ∧ ET_start_ns pic_text = []
  ∧ filter (λ v, compressed_payload one_kb v = true) (attr_values "bin" pic_root) ≠ []
  ∧ decode_utf8 (ET_tostring (scan_bin one_kb pic_root scan_zero).1) = Some rewritten_text
  ∧ ∃ comp,
      xml_step one_kb (demo_tree, xml_zero) ["Contents"; "section0.xml"]
      = (<[ ["Contents"; "section0.xml"] := File (write_text rewritten_text) ]> demo_tree,
         {| xml_compressed_count :=
              xml_compressed_count xml_zero
              + len (filter (λ v, compressed_payload one_kb v = true)
                       (attr_values "bin" pic_root));
            xml_total_original :=
              xml_total_original xml_zero
              + total (decoded_size
                         <$> filter (λ v, compressed_payload one_kb v = true)
                               (attr_values "bin" pic_root));
            xml_total_compressed := xml_total_compressed xml_zero + comp |}).
Proof.
  assert (lookup_node demo_tree ["Contents"; "section0.xml"] = Some (File pic_document))
    as Hnode by (vm_compute; reflexivity).
  assert (read_text pic_document = Some pic_text) as Htext by reflexivity.
  assert (ET_fromstring pic_text = Some pic_root) as Hroot by (vm_compute; reflexivity).
  assert (ET_start_ns pic_text = []) as Hns by (vm_compute; reflexivity).
  assert (filter (λ v, compressed_payload one_kb v = true) (attr_values "bin" pic_root) ≠ [])
    as Hover by (by vm_compute).
  assert (decode_utf8 (ET_tostring (scan_bin one_kb pic_root scan_zero).1)
          = Some rewritten_text) as Hdec by (vm_compute; reflexivity).
  split_and!; [done|done|done|done|done|done|].
  exact (proj1 (oversized_inline_document_rewritten one_kb demo_tree xml_zero
                  ["Contents"; "section0.xml"] pic_document pic_text pic_root rewritten_text
                  Hnode Htext Hroot Hns Hdec) Hover).
Defined.
